(** * A shallow embedding of [static/js/app.js]

    The script of the brand-analysis dashboard: a two-step modal wizard, the
    progress simulator shown while the analysis request is in flight, and the
    renderer that maps the analysis payload onto scorecards, chart datasets
    and the topic dropdown.

    - A JavaScript value is a term of [JsVal]. A response body is a parsed
      JSON text, hence a tree: no object occurs at two places of it.
    - A string is a sequence of code units, a number is NaN, an infinity or
      an exact rational.
    - The document is a finite map from element ids to what the script reads
      and writes of each element; [if (el)] is a lookup in that map. A value
      assigned to a property is kept as assigned.
    - A statement is a function from a world to an outcome, which is a
      completion or a throw, each with the world it leaves.
    - An async function is two statements, one up to its [await] and one
      from the moment the request settles; the event loop is a step function
      over clicks, edits, timer ticks and settled requests.
    - Of a chart instance the model keeps what the script sets. Writes to the
      console are left out. *)

From Stdlib Require Import Ascii QArith Qabs Qround Lqa DecimalString.
From stdpp Require Import gmap strings list.

Set Warnings "-register-all".
Local Open Scope Z_scope.
Local Open Scope nat_scope.

(** ** Strings

    A string is a sequence of code units; this development covers the code
    units below 256, for which [String.string] is the exact representation. *)

Module JsString.

(** The white space and line terminators that [String.prototype.trim]
    strips, among the code units below 256: TAB, LF, VT, FF, CR, SP and
    NBSP. *)
Definition is_space (c : ascii) : bool :=
  match c with
  | "009" | "010" | "011" | "012" | "013" | " " | "160" => true
  | _ => false
  end%char.

Definition LF : ascii := "010"%char.
Definition CR : ascii := "013"%char.

Definition is_LF (c : ascii) : bool := bool_decide (c = LF).
Definition is_CR (c : ascii) : bool := bool_decide (c = CR).

Fixpoint trimStart (s : string) : string :=
  match s with
  | EmptyString => EmptyString
  | String c r => if is_space c then trimStart r else s
  end.

Fixpoint trimEnd (s : string) : string :=
  match s with
  | EmptyString => EmptyString
  | String c r =>
      match trimEnd r with
      | EmptyString => if is_space c then EmptyString else String c EmptyString
      | t => String c t
      end
  end.

(** [s.trim()] *)
Definition trim (s : string) : string := trimEnd (trimStart s).

(** [s.split(/\r?\n/)]: the pieces between the matches of the pattern, which
    is tried at every position from the left; a CR directly before an LF
    belongs to the separator. *)
Fixpoint split_lines (s : string) : list string :=
  match s with
  | EmptyString => [EmptyString]
  | String c r =>
      if is_LF c then EmptyString :: split_lines r
      else
        let keep :=
          match split_lines r with
          | piece :: pieces => String c piece :: pieces
          | [] => [String c EmptyString]
          end in
        match r with
        | String c' r' =>
            if is_CR c && is_LF c' then EmptyString :: split_lines r' else keep
        | EmptyString => keep
        end
  end.

Definition is_empty (s : string) : bool :=
  match s with EmptyString => true | _ => false end.

Definition first_char (s : string) : option ascii :=
  match s with EmptyString => None | String c _ => Some c end.

Fixpoint last_char (s : string) : option ascii :=
  match s with
  | EmptyString => None
  | String c EmptyString => Some c
  | String _ r => last_char r
  end.

(** A string that [trim] would leave alone: it neither starts nor ends with
    white space. *)
Definition trimmed (s : string) : Prop :=
  (forall c, first_char s = Some c -> is_space c = false) /\
  (forall c, last_char s = Some c -> is_space c = false).

End JsString.

(** ** Numbers

    A number is NaN, an infinity or a finite value; a finite value is the
    exact rational value of the double (negative zero is not told apart from
    zero: nothing it is used for in the script distinguishes them). *)

Inductive JsNum : Type :=
| NaN
| NegInfinity
| Finite (q : Q)
| Infinity.

Module Num.

Definition of_Z (z : Z) : JsNum := Finite (inject_Z z).
Definition of_nat (n : nat) : JsNum := of_Z (Z.of_nat n).

(** Truthiness of a number: NaN and zero are falsy. *)
Definition truthy (x : JsNum) : bool :=
  match x with
  | NaN => false
  | Finite q => negb (Qeq_bool q 0%Q)
  | NegInfinity | Infinity => true
  end.

(** [a <= b] on numbers that are not NaN. *)
Definition leb (a b : JsNum) : bool :=
  match a, b with
  | NaN, _ | _, NaN => false
  | NegInfinity, _ => true
  | _, Infinity => true
  | Finite x, Finite y => Qle_bool x y
  | _, _ => false
  end.

(** [Math.max(a, b)] and [Math.min(a, b)]: NaN when an argument is NaN. *)
Definition max (a b : JsNum) : JsNum :=
  match a, b with
  | NaN, _ | _, NaN => NaN
  | _, _ => if leb a b then b else a
  end.

Definition min (a b : JsNum) : JsNum :=
  match a, b with
  | NaN, _ | _, NaN => NaN
  | _, _ => if leb a b then a else b
  end.

(** [Math.round(x)]: the nearest integer, a tie going up. *)
Definition round (x : JsNum) : JsNum :=
  match x with
  | Finite q => of_Z (Qfloor (q + (1 # 2))%Q)
  | _ => x
  end.

(** SameValueZero on numbers (what [Array.prototype.includes] compares
    with): NaN is the same as NaN. *)
Definition same_value_zero (a b : JsNum) : bool :=
  match a, b with
  | NaN, NaN | NegInfinity, NegInfinity | Infinity, Infinity => true
  | Finite x, Finite y => Qeq_bool x y
  | _, _ => false
  end.

(** The decimal digits of a natural number. *)
Definition digits (n : N) : string := NilZero.string_of_uint (N.to_uint n).

Definition is_integer (q : Q) : bool := (Qnum q mod Zpos (Qden q) =? 0)%Z.

(** The integers every one of which a double holds exactly and prints with
    all its digits. *)
Definition max_safe : Z := 2 ^ 53.

Definition sign (negative : bool) : string := if negative then "-" else "".

End Num.

(** ** Values *)

Inductive JsVal : Type :=
| JUndefined
| JNull
| JBool (b : bool)
| JNumber (n : JsNum)
| JString (s : string)
| JArray (elems : list JsVal)
(** an ordinary object; its own properties stand in the order [Object.keys]
    reports them, each key once *)
| JObject (props : list (string * JsVal))
(** a function or object that the script did not build and only reaches by
    reading an inherited property *)
| JNative (name : string).

(** The outcome of an expression that may throw. *)
Inductive Exc (A : Type) : Type :=
| Value (a : A)
| TypeError.
Arguments Value {A} a.
Arguments TypeError {A}.

Module Js.

Definition exc_bind {A B} (m : Exc A) (k : A -> Exc B) : Exc B :=
  match m with
  | Value a => k a
  | TypeError => TypeError
  end.

(** [!!v] *)
Definition truthy (v : JsVal) : bool :=
  match v with
  | JUndefined | JNull => false
  | JBool b => b
  | JNumber n => Num.truthy n
  | JString s => negb (JsString.is_empty s)
  | JArray _ | JObject _ | JNative _ => true
  end.

(** [a || b] *)
Definition or (a b : JsVal) : JsVal := if truthy a then a else b.

Definition nullish (v : JsVal) : bool :=
  match v with JUndefined | JNull => true | _ => false end.

(** [a ?? b] *)
Definition coalesce (a b : JsVal) : JsVal := if nullish a then b else a.

Definition isArray (v : JsVal) : bool :=
  match v with JArray _ => true | _ => false end.

(** [typeof v === "string"] *)
Definition typeof_string (v : JsVal) : bool :=
  match v with JString _ => true | _ => false end.

(** The properties every ordinary object inherits from [Object.prototype]. *)
Definition object_prototype_keys : list string :=
  [ "constructor"; "__proto__"; "hasOwnProperty"; "isPrototypeOf";
    "propertyIsEnumerable"; "toLocaleString"; "toString"; "valueOf";
    "__defineGetter__"; "__defineSetter__"; "__lookupGetter__";
    "__lookupSetter__" ].

Fixpoint own (k : string) (props : list (string * JsVal)) : option JsVal :=
  match props with
  | [] => None
  | (k', v) :: rest => if String.eqb k k' then Some v else own k rest
  end.

Definition keys (props : list (string * JsVal)) : list string := props.*1.

(** [v[k]] for a [v] that is neither null nor undefined: an own property,
    else an inherited one. Of the properties that arrays and primitive values
    have or inherit, the script reads [values] only (on an element of a series
    array that is an array itself). *)
Definition prop (k : string) (v : JsVal) : JsVal :=
  match v with
  | JObject props =>
      match own k props with
      | Some x => x
      | None => if bool_decide (k ∈ object_prototype_keys) then JNative k else JUndefined
      end
  | JArray _ => if String.eqb k "values" then JNative k else JUndefined
  | _ => JUndefined
  end.

(** [v.k]: a TypeError on null and undefined. *)
Definition get (k : string) (v : JsVal) : Exc JsVal :=
  if nullish v then TypeError else Value (prop k v).

(** [v?.k] *)
Definition get_opt (k : string) (v : JsVal) : JsVal :=
  if nullish v then JUndefined else prop k v.

(** [v === s] for a string [s] *)
Definition strict_eq_string (v : JsVal) (s : string) : bool :=
  match v with JString t => String.eqb t s | _ => false end.

End Js.

(** ** The document and the script's state *)

(** What the script reads and writes of an element. *)
Record Elem : Type := {
  value : string;                   (* [el.value] *)
  textContent : string;             (* [el.textContent] *)
  display : string;                 (* [el.style.display] *)
  width : string;                   (* [el.style.width] *)
  classList : list string;          (* [el.classList] *)
  disabled : bool;                  (* [el.disabled] *)
  options : list (string * string)  (* the [option] children: value and text *)
}.

Module El.

Definition blank : Elem :=
  {| value := ""; textContent := ""; display := ""; width := "";
     classList := []; disabled := false; options := [] |}.

Definition set_value (s : string) (e : Elem) : Elem :=
  {| value := s; textContent := textContent e; display := display e;
     width := width e; classList := classList e; disabled := disabled e;
     options := options e |}.

Definition set_textContent (s : string) (e : Elem) : Elem :=
  {| value := value e; textContent := s; display := display e;
     width := width e; classList := classList e; disabled := disabled e;
     options := options e |}.

Definition set_display (s : string) (e : Elem) : Elem :=
  {| value := value e; textContent := textContent e; display := s;
     width := width e; classList := classList e; disabled := disabled e;
     options := options e |}.

Definition set_width (s : string) (e : Elem) : Elem :=
  {| value := value e; textContent := textContent e; display := display e;
     width := s; classList := classList e; disabled := disabled e;
     options := options e |}.

Definition set_classList (l : list string) (e : Elem) : Elem :=
  {| value := value e; textContent := textContent e; display := display e;
     width := width e; classList := l; disabled := disabled e;
     options := options e |}.

Definition set_disabled (b : bool) (e : Elem) : Elem :=
  {| value := value e; textContent := textContent e; display := display e;
     width := width e; classList := classList e; disabled := b;
     options := options e |}.

Definition set_options (l : list (string * string)) (e : Elem) : Elem :=
  {| value := value e; textContent := textContent e; display := display e;
     width := width e; classList := classList e; disabled := disabled e;
     options := l |}.

(** [el.classList.add(c)], [el.classList.remove(c)], [contains] *)
Definition has_class (c : string) (e : Elem) : bool :=
  bool_decide (c ∈ classList e).

Definition add_class (c : string) (e : Elem) : Elem :=
  if has_class c e then e else set_classList (classList e ++ [c]) e.

Definition remove_class (c : string) (e : Elem) : Elem :=
  set_classList (filter (fun c' => c' <> c) (classList e)) e.

(** [select.appendChild(opt)] *)
Definition append_option (v t : string) (e : Elem) : Elem :=
  set_options (options e ++ [(v, t)]) e.

End El.

(** One line series of the trend chart. *)
Record Dataset : Type := {
  label : JsVal;
  data : JsVal;
  borderColor : JsVal;
  backgroundColor : JsVal;
  tension : Q;
  pointRadius : Q;
  fill : bool;
  borderWidth : nat
}.

Record TrendState : Type := {
  labels : JsVal;
  visibilityDatasets : list Dataset;
  rankDatasets : list Dataset;
  currentMetric : string
}.

(** What the script sets of the line chart instance. *)
Record TrendChart : Type := {
  chart_labels : JsVal;
  chart_datasets : list Dataset;
  beginAtZero : bool;
  yTitle : string
}.

(** What the script sets of the doughnut chart instance. *)
Record DonutChart : Type := {
  donut_labels : list JsVal;
  donut_values : list JsVal;
  donut_colors : list JsVal
}.

(** A call of [fetch]: the endpoint and the fields of the JSON body. *)
Inductive Request : Type :=
| LookupRequest (brand_name brand_description : string)
| AnalyzeRequest (brand_name brand_description brand_url region language
                  initial_topics : string).

(** How a call of [fetch] followed by [resp.json()] settles. *)
Inductive FetchOutcome : Type :=
| Rejected
| Responded (status : nat) (body : option JsVal).

(** An async function suspended at its [await], with the variables its
    continuation reads. *)
Inductive Pending : Type :=
| PendingLookup (brandName brandDesc : string)
| PendingAnalysis (brandName topicsText : string).

Record World : Type := {
  dom : gmap string Elem;          (* the elements, by id *)
  hasChart : bool;                 (* [window.Chart] *)
  visibilityTrendChart : option TrendChart;
  mentionsDonutChart : option DonutChart;
  trendState : TrendState;
  progressInterval : option nat;
  visualProgress : nat;
  intervals : list nat;            (* the interval timers that are active *)
  nextTimerId : nat;               (* what the next [setInterval] returns *)
  requests : list Request;         (* the calls of [fetch], oldest first *)
  pending : list Pending
}.

Module W.

Definition set_dom (f : gmap string Elem -> gmap string Elem) (w : World) : World :=
  {| dom := f (dom w); hasChart := hasChart w;
     visibilityTrendChart := visibilityTrendChart w;
     mentionsDonutChart := mentionsDonutChart w; trendState := trendState w;
     progressInterval := progressInterval w; visualProgress := visualProgress w;
     intervals := intervals w; nextTimerId := nextTimerId w;
     requests := requests w; pending := pending w |}.

Definition set_visibilityTrendChart (c : option TrendChart) (w : World) : World :=
  {| dom := dom w; hasChart := hasChart w;
     visibilityTrendChart := c;
     mentionsDonutChart := mentionsDonutChart w; trendState := trendState w;
     progressInterval := progressInterval w; visualProgress := visualProgress w;
     intervals := intervals w; nextTimerId := nextTimerId w;
     requests := requests w; pending := pending w |}.

Definition set_mentionsDonutChart (c : option DonutChart) (w : World) : World :=
  {| dom := dom w; hasChart := hasChart w;
     visibilityTrendChart := visibilityTrendChart w;
     mentionsDonutChart := c; trendState := trendState w;
     progressInterval := progressInterval w; visualProgress := visualProgress w;
     intervals := intervals w; nextTimerId := nextTimerId w;
     requests := requests w; pending := pending w |}.

Definition set_trendState (f : TrendState -> TrendState) (w : World) : World :=
  {| dom := dom w; hasChart := hasChart w;
     visibilityTrendChart := visibilityTrendChart w;
     mentionsDonutChart := mentionsDonutChart w; trendState := f (trendState w);
     progressInterval := progressInterval w; visualProgress := visualProgress w;
     intervals := intervals w; nextTimerId := nextTimerId w;
     requests := requests w; pending := pending w |}.

Definition set_progressInterval (t : option nat) (w : World) : World :=
  {| dom := dom w; hasChart := hasChart w;
     visibilityTrendChart := visibilityTrendChart w;
     mentionsDonutChart := mentionsDonutChart w; trendState := trendState w;
     progressInterval := t; visualProgress := visualProgress w;
     intervals := intervals w; nextTimerId := nextTimerId w;
     requests := requests w; pending := pending w |}.

Definition set_visualProgress (n : nat) (w : World) : World :=
  {| dom := dom w; hasChart := hasChart w;
     visibilityTrendChart := visibilityTrendChart w;
     mentionsDonutChart := mentionsDonutChart w; trendState := trendState w;
     progressInterval := progressInterval w; visualProgress := n;
     intervals := intervals w; nextTimerId := nextTimerId w;
     requests := requests w; pending := pending w |}.

Definition set_timers (active : list nat) (next : nat) (w : World) : World :=
  {| dom := dom w; hasChart := hasChart w;
     visibilityTrendChart := visibilityTrendChart w;
     mentionsDonutChart := mentionsDonutChart w; trendState := trendState w;
     progressInterval := progressInterval w; visualProgress := visualProgress w;
     intervals := active; nextTimerId := next;
     requests := requests w; pending := pending w |}.

Definition set_network (rs : list Request) (ps : list Pending) (w : World) : World :=
  {| dom := dom w; hasChart := hasChart w;
     visibilityTrendChart := visibilityTrendChart w;
     mentionsDonutChart := mentionsDonutChart w; trendState := trendState w;
     progressInterval := progressInterval w; visualProgress := visualProgress w;
     intervals := intervals w; nextTimerId := nextTimerId w;
     requests := rs; pending := ps |}.

Definition set_labels (l : JsVal) (t : TrendState) : TrendState :=
  {| labels := l; visibilityDatasets := visibilityDatasets t;
     rankDatasets := rankDatasets t; currentMetric := currentMetric t |}.

Definition set_visibilityDatasets (d : list Dataset) (t : TrendState) : TrendState :=
  {| labels := labels t; visibilityDatasets := d;
     rankDatasets := rankDatasets t; currentMetric := currentMetric t |}.

Definition set_rankDatasets (d : list Dataset) (t : TrendState) : TrendState :=
  {| labels := labels t; visibilityDatasets := visibilityDatasets t;
     rankDatasets := d; currentMetric := currentMetric t |}.

Definition set_currentMetric (m : string) (t : TrendState) : TrendState :=
  {| labels := labels t; visibilityDatasets := visibilityDatasets t;
     rankDatasets := rankDatasets t; currentMetric := m |}.

End W.

(** ** Statements: state and exceptions

    A statement runs on a world and either completes with a result or throws;
    either way it leaves a world behind, so what was written before a throw
    stays written. *)

Inductive Outcome (A : Type) : Type :=
| Completed (a : A) (w : World)
| Threw (w : World).
Arguments Completed {A} a w.
Arguments Threw {A} w.

Definition M (A : Type) : Type := World -> Outcome A.

Module Stmt.

Definition world_of {A} (o : Outcome A) : World :=
  match o with Completed _ w | Threw w => w end.

Definition ret {A} (a : A) : M A := fun w => Completed a w.

Definition bind {A B} (m : M A) (k : A -> M B) : M B :=
  fun w => match m w with
           | Completed a w' => k a w'
           | Threw w' => Threw w'
           end.

Definition throw {A} : M A := fun w => Threw w.

(** An expression that may throw, evaluated as a statement. *)
Definition eval {A} (e : Exc A) : M A :=
  match e with Value a => ret a | TypeError => throw end.

(** A state change that cannot throw. *)
Definition modify (f : World -> World) : M unit := fun w => Completed tt (f w).

Definition read {A} (f : World -> A) : M A := fun w => Completed (f w) w.

(** [try { body } catch { handler }] *)
Definition try_catch {A} (body handler : M A) : M A :=
  fun w => match body w with
           | Completed a w' => Completed a w'
           | Threw w' => handler w'
           end.

(** [try { body } finally { final }], for a [final] that does not throw *)
Definition try_finally {A} (body : M A) (final : World -> World) : M A :=
  fun w => match body w with
           | Completed a w' => Completed a (final w')
           | Threw w' => Threw (final w')
           end.

(** The world an event handler leaves: an exception that escapes a handler
    or rejects the promise of an async function is reported on the console
    and changes nothing more. *)
Definition run {A} (m : M A) (w : World) : World := world_of (m w).

End Stmt.

Declare Scope stmt_scope.
Delimit Scope stmt_scope with stmt.
Notation "'let*' x := m 'in' k" := (Stmt.bind m (fun x => k))
  (at level 10, x name, m at level 100, k at level 200) : stmt_scope.
Notation "m ;; k" := (Stmt.bind m (fun _ => k))
  (at level 100, k at level 200, right associativity) : stmt_scope.
Notation "'let?' x := e 'in' k" := (Js.exc_bind e (fun x => k))
  (at level 10, x name, e at level 100, k at level 200).

(** ** The script *)

Section Script.

(** Two built-in conversions are taken as given: the shortest decimal text
    that reads back as a given double, which [Number.prototype.toString]
    prints for a number that is not a safe integer, and the reading of a
    string as a number by [Number(...)]. *)
Variable shortest_repr : Q -> string.
Variable StringToNumber : string -> JsNum.

Set Default Proof Using "Type".

(** [String(x)] for a number: a safe integer prints as its digits. *)
Definition number_toString (x : JsNum) : string :=
  match x with
  | NaN => "NaN"
  | Infinity => "Infinity"
  | NegInfinity => "-Infinity"
  | Finite q =>
      let z := (Qnum q / Zpos (Qden q))%Z in
      if Num.is_integer q && (Z.abs z <=? Num.max_safe)%Z
      then Num.sign (z <? 0)%Z +:+ Num.digits (Z.abs_N z)
      else shortest_repr q
  end.

(** [x.toFixed(1)]: the integer [n] for which [n / 10] is nearest to the
    magnitude of [x], the larger one at a tie, printed with a point before
    its last digit, after the sign of [x]. *)
Definition toFixed1 (x : JsNum) : string :=
  match x with
  | Finite q =>
      if Qle_bool (10 ^ 21)%Q (Qabs q) then number_toString x
      else
        let n := Z.to_N (Qfloor (Qabs q * 10 + (1 # 2))%Q) in
        Num.sign (negb (Qle_bool 0%Q q))
          +:+ Num.digits (n / 10)%N +:+ "." +:+ Num.digits (n mod 10)%N
  | _ => number_toString x
  end.

(** [String(v)]. An object that has a property of its own called [toString]
    (parsed from JSON, so not a function) cannot be converted. *)
Fixpoint ToString (v : JsVal) : Exc string :=
  match v with
  | JUndefined => Value "undefined"
  | JNull => Value "null"
  | JBool b => Value (if b then "true" else "false")
  | JNumber n => Value (number_toString n)
  | JString s => Value s
  | JArray elems =>
      (fix join (l : list JsVal) : Exc string :=
         match l with
         | [] => Value ""
         | x :: rest =>
             let? sx := (if Js.nullish x then Value "" else ToString x) in
             match rest with
             | [] => Value sx
             | _ => let? srest := join rest in Value (sx +:+ "," +:+ srest)
             end
         end) elems
  | JObject props =>
      match Js.own "toString" props with
      | Some _ => TypeError
      | None => Value "[object Object]"
      end
  | JNative name => Value ("function " +:+ name +:+ "() { [native code] }")
  end.

(** [Number(v)] *)
Definition ToNumber (v : JsVal) : Exc JsNum :=
  match v with
  | JUndefined => Value NaN
  | JNull => Value (Num.of_Z 0)
  | JBool b => Value (Num.of_Z (if b then 1 else 0))
  | JNumber n => Value n
  | JString s => Value (StringToNumber s)
  | JArray _ => let? s := ToString v in Value (StringToNumber s)
  | JObject props =>
      match Js.own "toString" props with
      | Some _ => TypeError
      | None => Value NaN
      end
  | JNative _ => Value NaN
  end.

(** The conversion of a value assigned to [el.textContent], a nullable
    string: null and undefined become the empty string. *)
Definition text_of (v : JsVal) : Exc string :=
  if Js.nullish v then Value "" else ToString v.

(** The conversion of a value assigned to [el.value]: null becomes the empty
    string. *)
Definition value_of (v : JsVal) : Exc string :=
  match v with JNull => Value "" | _ => ToString v end.

(** *** Elements *)

Definition elem (id : string) (w : World) : option Elem := dom w !! id.

(** [if (el) el.p = ...], for a right-hand side that is a string already *)
Definition update (id : string) (f : Elem -> Elem) (w : World) : World :=
  W.set_dom (alter f id) w.

(** [if (el) el.p = v] for a property [p] that converts what it is assigned:
    the right-hand side is converted only when the element is there. *)
Definition assign (id : string) (convert : JsVal -> Exc string)
    (set : string -> Elem -> Elem) (v : JsVal) : M unit :=
  fun w =>
    match elem id w with
    | None => Completed tt w
    | Some _ =>
        match convert v with
        | Value s => Completed tt (update id (set s) w)
        | TypeError => Threw w
        end
    end.

(** [if (el) el.textContent = v] *)
Definition assign_textContent (id : string) (v : JsVal) : M unit :=
  assign id text_of El.set_textContent v.

(** [if (el) el.value = v] *)
Definition assign_value (id : string) (v : JsVal) : M unit :=
  assign id value_of El.set_value v.

(** [el?.value || ""] *)
Definition field (id : string) (w : World) : string :=
  match elem id w with
  | Some e => value e
  | None => ""
  end.

Definition chartColors : list string :=
  [ "#2563eb"; "#22c55e"; "#a855f7"; "#f97316"; "#0ea5e9";
    "#64748b"; "#16a34a"; "#facc15"; "#ec4899"; "#94a3b8" ].

(** [chartColors[idx % chartColors.length]] *)
Definition color (idx : nat) : JsVal :=
  match chartColors !! (idx mod length chartColors) with
  | Some c => JString c
  | None => JUndefined
  end.

(** *** Progress animation *)

Definition stopProgressAnimation (w : World) : World :=
  match progressInterval w with
  | Some id =>
      if bool_decide (id = 0) then w
      else
        W.set_progressInterval None
          (W.set_timers (filter (fun t => t <> id) (intervals w)) (nextTimerId w) w)
  | None => w
  end.

(** [Math.min(Math.max(percent, 0), 100)] *)
Definition safePercent (percent : JsNum) : JsNum :=
  Num.min (Num.max percent (Num.of_Z 0)) (Num.of_Z 100).

Definition updateAnalysisProgress (percent : JsNum) (used total : JsVal) : M unit :=
  (let safe := safePercent percent in
   Stmt.modify (update "analysisProgressFill"
                  (El.set_width (number_toString safe +:+ "%"))) ;;
   Stmt.modify (update "analysisPercentLabel"
                  (El.set_textContent (number_toString (Num.round safe) +:+ "%"))) ;;
   let* label := Stmt.read (elem "analysisPromptsLabel") in
   match label with
   | None => Stmt.ret tt
   | Some _ =>
       let* u := Stmt.eval (ToString used) in
       let* t := Stmt.eval (ToString total) in
       Stmt.modify (update "analysisPromptsLabel"
                      (El.set_textContent ("Prompts " +:+ u +:+ " / " +:+ t)))
   end)%stmt.

(** The function that [startProgressAnimation] hands to [setInterval]. *)
Definition progressTick : M unit :=
  (let* v := Stmt.read visualProgress in
   if bool_decide (v < 90) then
     Stmt.modify (W.set_visualProgress (v + 1)) ;;
     updateAnalysisProgress (Num.of_nat (v + 1))
       (JNumber (Num.of_Z 0)) (JNumber (Num.of_Z 0))
   else Stmt.ret tt)%stmt.

Definition startProgressAnimation (w : World) : World :=
  let w := stopProgressAnimation w in
  let w := W.set_visualProgress 0 w in
  let id := nextTimerId w in
  W.set_progressInterval (Some id) (W.set_timers (intervals w ++ [id]) (S id) w).

(** *** Modal helpers *)

Definition resetModal (w : World) : World :=
  let w := update "brandStep1" (El.add_class "is-active") w in
  let w := update "brandStep2" (El.remove_class "is-active") w in
  let w := update "brandModalError"
             (fun e => El.set_textContent "" (El.set_display "none" e)) w in
  let w := update "brandModalTitle" (El.set_textContent "Add New Brand") w in
  let w := update "brandNameStep1" (El.set_value "") w in
  let w := update "brandDescStep1" (El.set_value "") w in
  let w := update "brandNameStep2" (El.set_value "") w in
  let w := update "brandDescStep2" (El.set_value "") w in
  let w := update "brandUrlStep2" (El.set_value "") w in
  let w := update "brandRegionStep2" (El.set_value "") w in
  let w := update "brandLangStep2" (El.set_value "") w in
  let w := update "brandTopicsStep2" (El.set_value "") w in
  update "brandStepNext"
    (fun e => El.set_textContent "Next" (El.set_disabled false e)) w.

Definition openModal (w : World) : World :=
  update "brandModalBackdrop" (El.add_class "is-visible") (resetModal w).

Definition closeModal (w : World) : World :=
  update "brandModalBackdrop" (El.remove_class "is-visible") w.

Definition showError (msg : JsVal) : M unit :=
  (let* box := Stmt.read (elem "brandModalError") in
   match box with
   | None => Stmt.ret tt
   | Some _ =>
       if negb (Js.truthy msg) then
         Stmt.modify (update "brandModalError"
                        (fun e => El.set_textContent "" (El.set_display "none" e)))
       else
         assign_textContent "brandModalError" msg ;;
         Stmt.modify (update "brandModalError" (El.set_display "block"))
   end)%stmt.

(** *** Analysis bar helpers *)

Definition showAnalysisBar (w : World) : World :=
  update "analysisStatus"
    (fun e => El.set_display "flex" (El.remove_class "analysis-status--hidden" e)) w.

Definition hideAnalysisBar (w : World) : World :=
  update "analysisStatus"
    (fun e => El.set_display "none" (El.add_class "analysis-status--hidden" e)) w.

(** *** Metric cards updater *)

(** [Number(raw) || 0] *)
Definition number_or_zero (raw : JsVal) : Exc JsNum :=
  let? n := ToNumber raw in
  Value (if Num.truthy n then n else Num.of_Z 0).

Definition updateMetricCardsFromAnalysis (data : JsVal) (fallbackBrandName : string) : M unit :=
  (let brandName :=
     Js.or (Js.or (Js.get_opt "name" (Js.get_opt "brand" data))
                  (JString fallbackBrandName))
           (JString "") in
   let metrics := Js.or (Js.get_opt "metrics" data) (JObject []) in
   let mentionsRaw := Js.coalesce (Js.prop "brand_share_pct" metrics) (JNumber (Num.of_Z 0)) in
   let avgRankRaw := Js.coalesce (Js.prop "avg_rank" metrics) (JNumber (Num.of_Z 0)) in
   let citationsRaw := Js.coalesce (Js.prop "citations" metrics) (JNumber (Num.of_Z 0)) in
   let* mentions := Stmt.eval (number_or_zero mentionsRaw) in
   let* avgRank := Stmt.eval (number_or_zero avgRankRaw) in
   let* citations := Stmt.eval (number_or_zero citationsRaw) in
   assign_textContent "cardBrandMentionsLabel" (Js.or brandName (JString "Brand")) ;;
   assign_textContent "cardBrandMentionsSubtitle" (Js.or brandName (JString "brand")) ;;
   Stmt.modify (update "cardMentionsValue" (El.set_textContent (toFixed1 mentions))) ;;
   assign_textContent "cardBrandAvgRankLabel" (Js.or brandName (JString "Brand")) ;;
   assign_textContent "cardBrandAvgRankSubtitle" (Js.or brandName (JString "brand")) ;;
   Stmt.modify (update "cardAvgRankValue" (El.set_textContent (toFixed1 avgRank))) ;;
   Stmt.modify (update "cardCitationsValue" (El.set_textContent (number_toString citations))) ;;
   assign_textContent "cardBrandCitationsSubtitle" (Js.or brandName (JString "brand")))%stmt.

(** *** Helpers for topics *)

Definition parseTopics (topicsText : JsVal) : list string :=
  match topicsText with
  | JString s =>
      if JsString.is_empty s then []
      else
        filter (fun t => 0 < String.length t)
          (map JsString.trim (JsString.split_lines s))
  | _ => []
  end.

Definition populateTopicDropdown (topics : list string) (w : World) : World :=
  match elem "trendTopicSelect" w with
  | None => w
  | Some _ =>
      let w := update "trendTopicSelect" (El.set_options []) w in
      let w := update "trendTopicSelect" (El.append_option "" "All Topics") w in
      foldl (fun w t => update "trendTopicSelect" (El.append_option t t) w) w topics
  end.

(** *** Chart helpers *)

Definition dataset (lbl dat : JsVal) (idx : nat) : Dataset :=
  {| label := lbl; data := dat;
     borderColor := color idx; backgroundColor := color idx;
     tension := 35 # 100; pointRadius := 15 # 10; fill := false; borderWidth := 2 |}.

(** An element of the series array with its position. The array is part of
    a parsed response body, so two positions never hold the same object: two
    entries that are objects are the same value exactly when they are the same
    position. *)
Definition Entry : Type := nat * JsVal.

Fixpoint entries_from (i : nat) (elems : list JsVal) : list Entry :=
  match elems with
  | [] => []
  | v :: rest => (i, v) :: entries_from (S i) rest
  end.

Definition entries (elems : list JsVal) : list Entry := entries_from 0 elems.

(** SameValueZero, which [Array.prototype.includes] compares with. *)
Definition same_value_zero (x y : Entry) : bool :=
  match x.2, y.2 with
  | JUndefined, JUndefined | JNull, JNull => true
  | JBool a, JBool b => bool_decide (a = b)
  | JNumber a, JNumber b => Num.same_value_zero a b
  | JString a, JString b => String.eqb a b
  | (JArray _ | JObject _ | JNative _), (JArray _ | JObject _ | JNative _) =>
      bool_decide (x.1 = y.1)
  | _, _ => false
  end.

(** [ordered.includes(s)] *)
Definition includes (ordered : list Entry) (s : Entry) : bool :=
  existsb (same_value_zero s) ordered.

(** [series.find((s) => s.name === brandName)] *)
Fixpoint find_named (brandName : string) (series : list Entry) : Exc (option Entry) :=
  match series with
  | [] => Value None
  | s :: rest =>
      let? name := Js.get "name" s.2 in
      if Js.strict_eq_string name brandName then Value (Some s)
      else find_named brandName rest
  end.

(** [series.forEach((s) => { if (!ordered.includes(s)) ordered.push(s); })] *)
Definition push_missing (ordered : list Entry) (series : list Entry) : list Entry :=
  foldl (fun ordered s => if includes ordered s then ordered else ordered ++ [s])
    ordered series.

(** [limited.map((item, idx) => ...)], with [f] the function mapped *)
Fixpoint map_indexed {A B} (f : A -> nat -> Exc B) (idx : nat) (l : list A) : Exc (list B) :=
  match l with
  | [] => Value []
  | x :: rest =>
      let? y := f x idx in
      let? ys := map_indexed f (S idx) rest in
      Value (y :: ys)
  end.

Definition array_dataset (item : Entry) (idx : nat) : Exc Dataset :=
  let? name := Js.get "name" item.2 in
  let? values := Js.get "values" item.2 in
  Value (dataset name (if Js.isArray values then values else JArray []) idx).

Definition object_dataset (props : list (string * JsVal)) (name : string) (idx : nat)
  : Exc Dataset :=
  Value (dataset (JString name) (Js.or (Js.prop name (JObject props)) (JArray [])) idx).

(** [ordered.includes(b)] and the loop over [allBrands], on property names *)
Definition push_missing_names (ordered : list string) (names : list string) : list string :=
  foldl (fun ordered b => if bool_decide (b ∈ ordered) then ordered else ordered ++ [b])
    ordered names.

Definition buildDatasetsFromSeries (series : JsVal) (brandName : string)
  : Exc (list Dataset) :=
  if negb (Js.truthy series) then Value []
  else
    match series with
    | JArray elems =>
        let series := entries elems in
        let? ordered :=
          (if JsString.is_empty brandName then Value []
           else
             let? main := find_named brandName series in
             match main with
             | Some s => Value (if Js.truthy s.2 then [s] else [])
             | None => Value []
             end) in
        let ordered := push_missing ordered series in
        let limited := take 10 ordered in
        map_indexed array_dataset 0 limited
    | JObject props =>
        let allBrands := Js.keys props in
        let ordered :=
          if negb (JsString.is_empty brandName)
             && Js.truthy (Js.prop brandName series)
          then [brandName] else [] in
        let ordered := push_missing_names ordered allBrands in
        let limited := take 10 ordered in
        map_indexed (object_dataset props) 0 limited
    | _ => Value []   (* [typeof series !== "object"] *)
    end.

Definition setTrendTabs (metric : string) (w : World) : World :=
  match elem "trendTabVisibility" w, elem "trendTabRank" w with
  | Some _, Some _ =>
      if String.eqb metric "visibility" then
        update "trendTabRank" (El.remove_class "active")
          (update "trendTabVisibility" (El.add_class "active") w)
      else
        update "trendTabRank" (El.add_class "active")
          (update "trendTabVisibility" (El.remove_class "active") w)
  | _, _ => w
  end.

(** The canvas elements are taken to be canvases and the chart library to
    build and update its charts without throwing. *)
Definition createOrUpdateTrendChart (metric : string) (w : World) : World :=
  match elem "visibilityTrendChart" w with
  | None => w
  | Some _ =>
      if negb (hasChart w) then w
      else
        let datasets :=
          if String.eqb metric "rank" then rankDatasets (trendState w)
          else visibilityDatasets (trendState w) in
        let yTitle :=
          if String.eqb metric "rank" then "Average Rank" else "Share of Voice (%)" in
        let w :=
          match visibilityTrendChart w with
          | None =>
              W.set_visibilityTrendChart
                (Some {| chart_labels := labels (trendState w);
                         chart_datasets := datasets;
                         beginAtZero := String.eqb metric "visibility";
                         yTitle := yTitle |}) w
          | Some chart =>
              W.set_visibilityTrendChart
                (Some {| chart_labels := labels (trendState w);
                         chart_datasets := datasets;
                         beginAtZero := String.eqb metric "visibility";
                         yTitle := yTitle |}) w
          end in
        let w := W.set_trendState (W.set_currentMetric metric) w in
        setTrendTabs metric w
  end.

(** [(donutData || []).map((d) => d.p)] *)
Definition pluck (p : string) (v : JsVal) : Exc (list JsVal) :=
  match v with
  | JArray elems => map_indexed (fun d _ => Js.get p d) 0 elems
  | _ => TypeError
  end.

Definition createOrUpdateDonutChart (donutData : JsVal) : M unit :=
  (let* canvas := Stmt.read (elem "mentionsDonutChart") in
   let* lib := Stmt.read hasChart in
   match canvas with
   | None => Stmt.ret tt
   | Some _ =>
       if negb lib then Stmt.ret tt
       else
         let* labels := Stmt.eval (pluck "label" (Js.or donutData (JArray []))) in
         let* values := Stmt.eval (pluck "value" (Js.or donutData (JArray []))) in
         let bgColors := imap (fun idx _ => color idx) labels in
         let data :=
           {| donut_labels := labels; donut_values := values;
              donut_colors := bgColors |} in
         let* chart := Stmt.read mentionsDonutChart in
         match chart with
         | None => Stmt.modify (W.set_mentionsDonutChart (Some data))
         | Some _ => Stmt.modify (W.set_mentionsDonutChart (Some data))
         end
   end)%stmt.

Definition updateChartsFromAnalysis (data : JsVal) (brandName : string) (topicsText : string)
  : M unit :=
  (let metrics := Js.or (Js.get_opt "metrics" data) (JObject []) in
   let trend := Js.or (Js.prop "trend" metrics) (JObject []) in
   let donut := Js.or (Js.prop "donut" metrics) (JArray []) in
   let labels := Js.or (Js.prop "labels" trend) (JArray []) in
   let visibilitySeries := Js.or (Js.prop "visibility" trend) (JArray []) in
   let avgRankSeries := Js.or (Js.prop "avg_rank" trend) (JArray []) in
   Stmt.modify (W.set_trendState (W.set_labels labels)) ;;
   let* vis := Stmt.eval (buildDatasetsFromSeries visibilitySeries brandName) in
   Stmt.modify (W.set_trendState (W.set_visibilityDatasets vis)) ;;
   let* rank := Stmt.eval (buildDatasetsFromSeries avgRankSeries brandName) in
   Stmt.modify (W.set_trendState (W.set_rankDatasets rank)) ;;
   Stmt.modify (createOrUpdateTrendChart "visibility") ;;
   createOrUpdateDonutChart donut ;;
   let topics := parseTopics (JString topicsText) in
   Stmt.modify (populateTopicDropdown topics))%stmt.

(** *** Analysis runner *)

(** [fetch(...)]: the call is recorded and the async function is suspended
    until the request settles. *)
Definition fetch (r : Request) (k : Pending) (w : World) : World :=
  W.set_network (requests w ++ [r]) (pending w ++ [k]) w.

(** [runBrandAnalysisFromStep2], up to its [await]. *)
Definition runBrandAnalysisFromStep2 : M unit :=
  (let* input := Stmt.read (elem "brandNameStep2") in
   match input with
   | None => Stmt.ret tt
   | Some _ =>
       let* brandName := Stmt.read (fun w => JsString.trim (field "brandNameStep2" w)) in
       let* brandDesc := Stmt.read (fun w => JsString.trim (field "brandDescStep2" w)) in
       let* brandUrl := Stmt.read (fun w => JsString.trim (field "brandUrlStep2" w)) in
       let* region := Stmt.read (fun w => JsString.trim (field "brandRegionStep2" w)) in
       let* language := Stmt.read (fun w => JsString.trim (field "brandLangStep2" w)) in
       let* topicsText := Stmt.read (fun w => JsString.trim (field "brandTopicsStep2" w)) in
       if JsString.is_empty brandName then Stmt.ret tt
       else
         Stmt.modify showAnalysisBar ;;
         updateAnalysisProgress (Num.of_Z 0) (JNumber (Num.of_Z 0)) (JNumber (Num.of_Z 0)) ;;
         Stmt.modify startProgressAnimation ;;
         Stmt.modify
           (fetch (AnalyzeRequest brandName brandDesc brandUrl region language topicsText)
                  (PendingAnalysis brandName topicsText))
   end)%stmt.

(** [runBrandAnalysisFromStep2], from the moment the request settles. *)
Definition runBrandAnalysisFromStep2_resume (brandName topicsText : string)
  (settled : FetchOutcome) : M unit :=
  Stmt.try_catch
    (match settled with
     | Rejected => Stmt.throw
     | Responded _ None => Stmt.modify stopProgressAnimation
     | Responded _ (Some data) =>
         let promptStats :=
           Js.or (Js.get_opt "prompt_stats" (Js.get_opt "metrics" data)) (JObject []) in
         let used := Js.or (Js.prop "used" promptStats) (JNumber (Num.of_Z 0)) in
         let total := Js.or (Js.prop "total" promptStats) (JNumber (Num.of_Z 0)) in
         Stmt.modify stopProgressAnimation ;;
         updateAnalysisProgress (Num.of_Z 100) used total ;;
         updateMetricCardsFromAnalysis data brandName ;;
         updateChartsFromAnalysis data brandName topicsText
     end)%stmt
    (Stmt.modify stopProgressAnimation).

(** *** Step 1 -> Step 2 (lookup_brand) *)

(** [if (el) el.value = data.key || fallback] *)
Definition populate (id key : string) (data : JsVal) (fallback : string) : M unit :=
  (let* el := Stmt.read (elem id) in
   match el with
   | None => Stmt.ret tt
   | Some _ =>
       let* v := Stmt.eval (Js.get key data) in
       assign_value id (Js.or v (JString fallback))
   end)%stmt.

(** [resp.ok] *)
Definition ok (status : nat) : bool :=
  bool_decide (200 <= status) && bool_decide (status <= 299).

Definition status_text (status : nat) : string := Num.digits (N.of_nat status).

(** [goToStep2], up to its [await]. *)
Definition goToStep2 (useRegenerate : bool) : M unit :=
  (let* nextBtn := Stmt.read (elem "brandStepNext") in
   match nextBtn with
   | None => Stmt.ret tt
   | Some _ =>
       let* rawName :=
         Stmt.read (field (if useRegenerate then "brandNameStep2" else "brandNameStep1")) in
       let* rawDesc :=
         Stmt.read (field (if useRegenerate then "brandDescStep2" else "brandDescStep1")) in
       let brandName := JsString.trim rawName in
       let brandDesc := rawDesc in
       if JsString.is_empty brandName then
         showError (JString "Please enter a brand name.")
       else
         Stmt.modify
           (update "brandStepNext"
              (fun e =>
                 El.set_textContent
                   (if useRegenerate then "Re-generating..." else "Generating...")
                   (El.set_disabled true e))) ;;
         showError (JString "") ;;
         Stmt.modify
           (fetch (LookupRequest brandName brandDesc) (PendingLookup brandName brandDesc))
   end)%stmt.

(** [goToStep2], from the moment the request settles. *)
Definition goToStep2_resume (brandName brandDesc : string) (settled : FetchOutcome)
  : M unit :=
  Stmt.try_finally
    (Stmt.try_catch
       (match settled with
        | Rejected => Stmt.throw
        | Responded status None =>
            showError
              (JString ("Server returned an invalid response ("
                          +:+ status_text status +:+ ")."))
        | Responded status (Some data) =>
            let* failed :=
              (if negb (ok status) then Stmt.ret true
               else let* e := Stmt.eval (Js.get "error" data) in
                    Stmt.ret (Js.truthy e)) in
            if (failed : bool) then
              let* e := Stmt.eval (Js.get "error" data) in
              showError (Js.or e (JString ("Backend error: " +:+ status_text status)))
            else
              populate "brandNameStep2" "brand_name" data brandName ;;
              populate "brandDescStep2" "brand_description" data brandDesc ;;
              populate "brandUrlStep2" "brand_url" data "" ;;
              populate "brandRegionStep2" "region" data "" ;;
              populate "brandLangStep2" "language" data "" ;;
              populate "brandTopicsStep2" "initial_topics" data "" ;;
              Stmt.modify (update "brandStep1" (El.remove_class "is-active")) ;;
              Stmt.modify (update "brandStep2" (El.add_class "is-active")) ;;
              Stmt.modify (update "brandModalTitle" (El.set_textContent "Configure Brand"))
        end)%stmt
       (showError (JString "Something went wrong while contacting the server.")))
    (update "brandStepNext"
       (fun e => El.set_textContent "Next" (El.set_disabled false e))).

(** *** Event binding *)

(** The listener of the Create button. *)
Definition createBtn_click : M unit :=
  (Stmt.modify closeModal ;;
   runBrandAnalysisFromStep2)%stmt.

(** The listener bound to the element with the given id, if any. A click on
    the backdrop means a click whose target is the backdrop itself. *)
Definition listener (id : string) : M unit :=
  if String.eqb id "openBrandModal" then Stmt.modify openModal
  else if String.eqb id "closeBrandModal" then Stmt.modify closeModal
  else if String.eqb id "cancelBrandModal" then Stmt.modify closeModal
  else if String.eqb id "cancelBrandModalStep2" then Stmt.modify closeModal
  else if String.eqb id "brandModalBackdrop" then Stmt.modify closeModal
  else if String.eqb id "brandStepNext" then goToStep2 false
  else if String.eqb id "brandRegenerate" then goToStep2 true
  else if String.eqb id "trendTabVisibility" then
    Stmt.modify (createOrUpdateTrendChart "visibility")
  else if String.eqb id "trendTabRank" then
    Stmt.modify (createOrUpdateTrendChart "rank")
  else if String.eqb id "brandCreateBtn" then createBtn_click
  else Stmt.ret tt.

(** What the event loop takes up next. *)
Inductive Event : Type :=
| Click (id : string)                     (* the user clicks an element *)
| Input (id : string) (text : string)     (* the user edits a field *)
| TimerFires (id : nat)                   (* an interval elapses *)
| Settles (k : nat) (settled : FetchOutcome). (* the k-th pending request settles *)

Definition resume (p : Pending) (settled : FetchOutcome) : M unit :=
  match p with
  | PendingLookup brandName brandDesc => goToStep2_resume brandName brandDesc settled
  | PendingAnalysis brandName topicsText =>
      runBrandAnalysisFromStep2_resume brandName topicsText settled
  end.

(** One turn of the event loop. A disabled control dispatches no click. *)
Definition step (ev : Event) (w : World) : World :=
  match ev with
  | Click id =>
      match elem id w with
      | Some e => if disabled e then w else Stmt.run (listener id) w
      | None => w
      end
  | Input id text => update id (El.set_value text) w
  | TimerFires id =>
      if bool_decide (id ∈ intervals w) then Stmt.run progressTick w else w
  | Settles k settled =>
      match pending w !! k with
      | Some p =>
          Stmt.run (resume p settled)
            (W.set_network (requests w) (delete k (pending w)) w)
      | None => w
      end
  end.

(** The world when the script has loaded, for a document and with or
    without the chart library. *)
Definition initial (document : gmap string Elem) (chartLibrary : bool) : World :=
  {| dom := document; hasChart := chartLibrary;
     visibilityTrendChart := None; mentionsDonutChart := None;
     trendState :=
       {| labels := JArray []; visibilityDatasets := []; rankDatasets := [];
          currentMetric := "visibility" |};
     progressInterval := None; visualProgress := 0;
     intervals := []; nextTimerId := 1;
     requests := []; pending := [] |}.

(** The worlds the event loop can reach. *)
Inductive Reachable : World -> Prop :=
| reach_initial document chartLibrary : Reachable (initial document chartLibrary)
| reach_step ev w : Reachable w -> Reachable (step ev w).

(** Every interval that is active fires once. *)
Definition tickAll (w : World) : World :=
  foldl (fun w id => step (TimerFires id) w) w (intervals w).

(** ** The vocabulary of the properties *)

(** Every code unit of the string is white space. *)
Fixpoint all_space (s : string) : bool :=
  match s with
  | EmptyString => true
  | String c r => JsString.is_space c && all_space r
  end.

(** The string holds a line feed. *)
Fixpoint has_LF (s : string) : bool :=
  match s with
  | EmptyString => false
  | String c r => JsString.is_LF c || has_LF r
  end.

(** The string starts with a line feed. *)
Definition starts_LF (s : string) : bool :=
  match s with
  | String c _ => JsString.is_LF c
  | EmptyString => false
  end.

(** The string "\n". *)
Definition newline : string := String JsString.LF "".

(** A value that is no object: undefined, null, a boolean, a number or a
    string. The endpoints are specified to send numbers and strings. *)
Definition primitive (v : JsVal) : bool :=
  match v with
  | JUndefined | JNull | JBool _ | JNumber _ | JString _ => true
  | JArray _ | JObject _ | JNative _ => false
  end.

(** The value is an ordinary object, as a series [{name, values}] is. *)
Definition is_object (v : JsVal) : bool :=
  match v with JObject _ => true | _ => false end.

(** The series is called [b]. *)
Definition named (b : string) (v : JsVal) : bool :=
  Js.strict_eq_string (Js.prop "name" v) b.

(** The order the datasets are specified to have: the first series that is
    called by the focal brand name first, then the other series in the order
    of the source. *)
Definition focal_first (b : string) (elems : list JsVal) : list JsVal :=
  match list_find (fun v => named b v = true) elems with
  | Some (i, main) => main :: delete i elems
  | None => elems
  end.

(** The dataset built from a series object at a position of the chart. *)
Definition series_dataset (v : JsVal) (idx : nat) : Dataset :=
  dataset (Js.prop "name" v)
    (if Js.isArray (Js.prop "values" v) then Js.prop "values" v else JArray [])
    idx.

(** The labels of the datasets built, in order. *)
Definition dataset_labels (built : Exc (list Dataset)) : Exc (list JsVal) :=
  let? datasets := built in Value (label <$> datasets).

(** A series object [{name, values}] with numbers for values. *)
Definition series_object (name : string) (values : list Z) : JsVal :=
  JObject [("name", JString name);
           ("values", JArray ((fun z => JNumber (Num.of_Z z)) <$> values))].

(** [keeps view m]: running [m], to completion or to a throw, leaves the
    [view] of the world as it was. *)
Definition keeps {A T} (view : World -> T) (m : M A) : Prop :=
  forall w, view (Stmt.world_of (m w)) = view w.

(** A view that shows nothing of the document, of the chart instances and
    of the metric that is current. *)
Record Blind {T} (view : World -> T) : Prop := {
  blind_dom : forall f w, view (W.set_dom f w) = view w;
  blind_trend_chart : forall c w, view (W.set_visibilityTrendChart c w) = view w;
  blind_donut_chart : forall c w, view (W.set_mentionsDonutChart c w) = view w;
  blind_metric : forall m w, view (W.set_trendState (W.set_currentMetric m) w) = view w
}.

(** The timers and the handle the script keeps of its own. *)
Definition timers (w : World) : option nat * list nat * nat :=
  (progressInterval w, intervals w, nextTimerId w).

(** The requests made and the continuations that wait for them. *)
Definition network (w : World) : list Request * list Pending :=
  (requests w, pending w).

(** The datasets of the two metrics. *)
Definition datasets (w : World) : list Dataset * list Dataset :=
  (visibilityDatasets (trendState w), rankDatasets (trendState w)).

(** The shape of the value that [buildDatasetsFromSeries] is given. *)
Inductive SeriesForm : Type := NoSeries | ArrayForm | ObjectForm.

Definition series_form (series : JsVal) : SeriesForm :=
  match series with
  | JArray _ => ArrayForm
  | JObject _ => ObjectForm
  | _ => NoSeries
  end.

(** The names of the series, in the order of the source: the [name] of each
    element of an array, the keys of a mapping. *)
Definition series_names (series : JsVal) : list JsVal :=
  match series with
  | JArray elems => Js.prop "name" <$> elems
  | JObject props => JString <$> Js.keys props
  | _ => []
  end.

(** A series input as the response is specified to hold: an array of series
    objects, or a mapping from a name to an array of values (truthy, as
    every array is). *)
Definition series_wf (series : JsVal) : Prop :=
  match series with
  | JArray elems => Forall (fun v => is_object v = true) elems
  | JObject props => Forall (fun kv : string * JsVal => Js.truthy kv.2 = true) props
  | _ => True
  end.

(** [focal_first] on the names alone. *)
Definition focal_first_names (b : string) (names : list JsVal) : list JsVal :=
  match list_find (fun n => Js.strict_eq_string n b = true) names with
  | Some (i, main) => main :: delete i names
  | None => names
  end.

(** A field of the lookup response as the endpoint is specified to send it:
    a string, or missing (absent or null). *)
Definition optional_string (v : JsVal) : bool :=
  match v with
  | JUndefined | JNull | JString _ => true
  | _ => false
  end.

(** The field of the response when it is present, the fallback when it is
    missing: absent, null or empty. *)
Definition field_or (v : JsVal) (fallback : string) : string :=
  match v with
  | JString s => if JsString.is_empty s then fallback else s
  | _ => fallback
  end.

(** A lookup that succeeded: the status is one of success, the body is JSON
    that is not null, and it reports no error. *)
Definition lookup_succeeded (status : nat) (data : JsVal) : Prop :=
  ok status = true /\ Js.nullish data = false /\ Js.truthy (Js.prop "error" data) = false.

(** At most one interval is active, and it is the one whose handle the
    script holds in [progressInterval]. *)
Definition one_timer (w : World) : Prop :=
  0 < nextTimerId w
  /\ match progressInterval w with
     | Some id => (0 < id /\ id < nextTimerId w) /\ intervals w = [id]
     | None => intervals w = []
     end.

(** [stable P m]: running [m], to completion or to a throw, from a world
    where [P] holds leaves a world where [P] holds. *)
Definition stable {A} (P : World -> Prop) (m : M A) : Prop :=
  forall w, P w -> P (Stmt.world_of (m w)).

(** *** Elements and state that a statement leaves alone *)

(** The inputs of the two steps of the wizard. *)
Definition form_fields : list string :=
  [ "brandNameStep1"; "brandDescStep1"; "brandNameStep2"; "brandDescStep2";
    "brandUrlStep2"; "brandRegionStep2"; "brandLangStep2"; "brandTopicsStep2" ].

(** The elements of the wizard that the lookup writes to. *)
Definition wizard_ids : list string :=
  [ "brandStepNext"; "brandModalError"; "brandNameStep2"; "brandDescStep2";
    "brandUrlStep2"; "brandRegionStep2"; "brandLangStep2"; "brandTopicsStep2";
    "brandStep1"; "brandStep2"; "brandModalTitle" ].

(** The elements of the modal that opening and closing it write to. *)
Definition modal_ids : list string :=
  "brandModalBackdrop" :: "brandNameStep1" :: "brandDescStep1" :: wizard_ids.

(** The elements of the progress display, of the scorecards and of the
    charts: the two tabs, the topic dropdown and the two canvases. *)
Definition progress_ids : list string :=
  [ "analysisProgressFill"; "analysisPercentLabel"; "analysisPromptsLabel" ].

Definition card_ids : list string :=
  [ "cardBrandMentionsLabel"; "cardBrandMentionsSubtitle"; "cardMentionsValue";
    "cardBrandAvgRankLabel"; "cardBrandAvgRankSubtitle"; "cardAvgRankValue";
    "cardCitationsValue"; "cardBrandCitationsSubtitle" ].

Definition chart_ids : list string :=
  [ "trendTabVisibility"; "trendTabRank"; "trendTopicSelect";
    "visibilityTrendChart"; "mentionsDonutChart" ].

(** The elements that the analysis writes to when its response is there,
    and those it writes to in all. *)
Definition render_ids : list string := progress_ids ++ card_ids ++ chart_ids.

Definition dashboard_ids : list string := "analysisStatus" :: render_ids.

(** [same_but ids w w']: the document of [w'] has the elements of the
    document of [w], no more and no fewer, and every element whose id is not
    in [ids] is as it was. *)
Definition same_but (ids : list string) (w w' : World) : Prop :=
  forall id,
    (id ∉ ids -> elem id w' = elem id w)
    /\ (is_Some (elem id w') <-> is_Some (elem id w)).

(** [writes ids m]: running [m], to completion or to a throw, writes to no
    element but those in [ids], and adds and removes none. *)
Definition writes {A} (ids : list string) (m : M A) : Prop :=
  forall w, same_but ids w (Stmt.world_of (m w)).

(** Everything of the world but the document and the network. *)
Definition script_state (w : World)
  : bool * option TrendChart * option DonutChart * TrendState
    * (option nat * list nat * nat) * nat :=
  (hasChart w, visibilityTrendChart w, mentionsDonutChart w, trendState w,
   timers w, visualProgress w).

(** The analysis bar is on display. *)
Definition bar_shown (w : World) : Prop :=
  exists e,
    elem "analysisStatus" w = Some e
    /\ display e = "flex"
    /\ El.has_class "analysis-status--hidden" e = false.

(** No interval is active and the script holds no handle. *)
Definition stopped (w : World) : Prop :=
  progressInterval w = None /\ intervals w = [].

(** *** The error box and the messages of the lookup *)

(** The error box as [showError] leaves it for a message that is a string:
    hidden and empty for the empty message, on display with the message
    otherwise. *)
Definition error_box (msg : string) (e : Elem) : Elem :=
  if JsString.is_empty msg then El.set_textContent "" (El.set_display "none" e)
  else El.set_display "block" (El.set_textContent msg e).

Definition generic_error : string :=
  "Something went wrong while contacting the server.".

(** The message for a lookup that failed, [None] for one that succeeded. A
    lookup fails when the request fails, when the body is no JSON, when the
    body is null (reading its [error] throws), when the status is not one of
    success and when the body reports an error. *)
Definition lookup_failure (settled : FetchOutcome) : option string :=
  match settled with
  | Rejected => Some generic_error
  | Responded status None =>
      Some ("Server returned an invalid response (" +:+ status_text status +:+ ").")
  | Responded status (Some data) =>
      if Js.nullish data then Some generic_error
      else if negb (ok status) || Js.truthy (Js.prop "error" data)
      then Some (field_or (Js.prop "error" data)
                   ("Backend error: " +:+ status_text status))
      else None
  end.

(** *** Topics *)

(** [pieces.join(sep)] *)
Fixpoint join (sep : string) (pieces : list string) : string :=
  match pieces with
  | [] => ""
  | p :: rest =>
      match rest with
      | [] => p
      | _ => p +:+ sep +:+ join sep rest
      end
  end.

(** The string "\r\n". *)
Definition CRLF : string := String JsString.CR newline.

(** A topic as [parseTopics] returns it: not empty, on one line, without
    white space at either end. *)
Definition is_topic (t : string) : Prop :=
  t <> "" /\ has_LF t = false /\ JsString.trimmed t.

(** The options of the topic dropdown for a list of topics. *)
Definition topic_options (topics : list string) : list (string * string) :=
  ("", "All Topics") :: ((fun t => (t, t)) <$> topics).

(** *** Series *)

(** The order of the names in the legacy form: the focal brand first when
    the mapping has a truthy value under its name, then the other keys in
    the order of the mapping. *)
Definition focal_first_keys (b : string) (series : JsVal) (keys : list string)
  : list string :=
  if negb (JsString.is_empty b) && Js.truthy (Js.prop b series)
  then b :: filter (fun k => k <> b) keys
  else keys.

(** The dataset built from a name of the legacy form at a position of the
    chart. *)
Definition mapping_dataset (series : JsVal) (idx : nat) (name : string) : Dataset :=
  dataset (JString name) (Js.or (Js.prop name series) (JArray [])) idx.

(** *** Charts *)

(** A chart can be drawn: its canvas is in the document and the chart
    library has loaded. *)
Definition can_draw (canvas : string) (w : World) : bool :=
  bool_decide (is_Some (elem canvas w)) && hasChart w.

(** The trend chart for a metric, from the trend state. *)
Definition trend_chart_of (metric : string) (w : World) : TrendChart :=
  {| chart_labels := labels (trendState w);
     chart_datasets :=
       if String.eqb metric "rank" then rankDatasets (trendState w)
       else visibilityDatasets (trendState w);
     beginAtZero := String.eqb metric "visibility";
     yTitle := if String.eqb metric "rank" then "Average Rank" else "Share of Voice (%)" |}.

(** The doughnut chart for a list of segments. *)
Definition donut_chart_of (segments : list JsVal) : DonutChart :=
  {| donut_labels := Js.prop "label" <$> segments;
     donut_values := Js.prop "value" <$> segments;
     donut_colors := color <$> seq 0 (length segments) |}.

(** The labels of the trend state. *)
Definition trend_labels (w : World) : JsVal := labels (trendState w).

(** ** Pages and responses for the instances *)

(** Stand-ins for the two conversions that the script is parameterised by:
    no instance prints a number that is not a safe integer or converts a
    string to a number. *)
Definition no_shortest_repr : Q -> string := fun _ => "".
Definition no_StringToNumber : string -> JsNum := fun _ => NaN.

(** A page that has every element the script looks up. *)
Definition example_page : gmap string Elem :=
  list_to_map
    ((fun id => (id, El.blank)) <$>
       [ "openBrandModal"; "brandModalBackdrop"; "closeBrandModal";
         "brandStep1"; "brandStep2"; "brandStepNext"; "brandCreateBtn";
         "cancelBrandModal"; "cancelBrandModalStep2"; "brandModalError";
         "brandModalTitle"; "brandNameStep1"; "brandDescStep1";
         "brandNameStep2"; "brandDescStep2"; "brandUrlStep2";
         "brandRegionStep2"; "brandLangStep2"; "brandTopicsStep2";
         "brandRegenerate"; "analysisStatus"; "analysisProgressFill";
         "analysisPercentLabel"; "analysisPromptsLabel";
         "cardBrandMentionsLabel"; "cardBrandMentionsSubtitle";
         "cardMentionsValue"; "cardBrandAvgRankLabel";
         "cardBrandAvgRankSubtitle"; "cardAvgRankValue"; "cardCitationsValue";
         "cardBrandCitationsSubtitle"; "trendTabVisibility"; "trendTabRank";
         "trendTopicSelect"; "visibilityTrendChart"; "mentionsDonutChart" ]).

(** The page once the script has loaded and the modal is open. *)
Definition example_world : World := openModal (initial example_page true).

(** Step 1 filled in with a name that has white space around it. *)
Definition step1_filled : World :=
  update "brandNameStep1" (El.set_value "  Acme ") example_world.

(** Step 2 with nothing but white space for a name. *)
Definition step2_blank : World :=
  update "brandNameStep2" (El.set_value "   ") example_world.

(** Step 2 filled in. *)
Definition step2_filled : World :=
  update "brandTopicsStep2" (El.set_value (" pricing" +:+ newline +:+ "support "))
    (update "brandNameStep2" (El.set_value " Acme ") example_world).

(** A response whose trend holds the same two series for both metrics. *)
Definition example_visibility : JsVal :=
  JArray [series_object "A" [10; 20]%Z; series_object "B" [30; 40]%Z].

Definition example_avg_rank : JsVal :=
  JArray [series_object "A" [2; 1]%Z; series_object "B" [4; 3]%Z].

Definition example_analysis : JsVal :=
  JObject
    [("brand", JObject [("name", JString "B")]);
     ("metrics",
      JObject
        [("citations", JNumber (Num.of_Z 7));
         ("trend",
          JObject
            [("labels", JArray [JString "Mon"; JString "Tue"]);
             ("visibility", example_visibility);
             ("avg_rank", example_avg_rank)])])].

(** A lookup response that leaves out everything but the url. *)
Definition example_lookup : JsVal :=
  JObject [("brand_url", JString "https://acme.example"); ("region", JNull)].

(** The world after Create was clicked over a filled step 2. *)
Definition created_once : World := step (Click "brandCreateBtn") step2_filled.

(** A response that reports an error and holds no metrics. *)
Definition example_error : JsVal := JObject [("error", JString "quota exceeded")].

(** A response whose visibility series starts with null. *)
Definition example_malformed : JsVal :=
  JObject
    [("metrics",
      JObject
        [("trend",
          JObject
            [("labels", JArray [JString "Mon"]);
             ("visibility", JArray [JNull; series_object "A" [1]%Z])])])].

(** The segments of a doughnut chart. *)
Definition example_donut : list JsVal :=
  [ JObject [("label", JString "Acme"); ("value", JNumber (Num.of_Z 3))];
    JObject [("label", JString "Other"); ("value", JNumber (Num.of_Z 5))] ].

(** A series input of the legacy form, with no values for B. *)
Definition example_mapping : list (string * JsVal) :=
  [("A", JArray [JNumber (Num.of_Z 1)]); ("B", JNull)].

(** One series called A, in the form of an array and in the legacy form. *)
Definition example_array_A : JsVal := JArray [series_object "A" [1]%Z].

Definition example_mapping_A : JsVal := JObject [("A", JArray [JNumber (Num.of_Z 1)])].

(** A series input of the legacy form with values for A and for B. *)
Definition example_mapping_AB : JsVal :=
  JObject [("A", JArray [JNumber (Num.of_Z 1)]); ("B", JArray [JNumber (Num.of_Z 2)])].

(** A response whose rank series has no values for B. *)
Definition example_uneven : JsVal :=
  JObject
    [("metrics",
      JObject
        [("trend",
          JObject
            [("labels", JArray [JString "Mon"]);
             ("visibility", example_mapping_AB);
             ("avg_rank", JObject example_mapping)])])].

(** A response with a share that is no integer and with no average rank. *)
Definition example_scores : JsVal :=
  JObject
    [("brand", JObject [("name", JString "B")]);
     ("metrics",
      JObject
        [("brand_share_pct", JNumber (Finite (85 # 2)));
         ("citations", JNumber (Num.of_Z 7))])].

(** The world after Create was clicked twice over a filled step 2. *)
Definition created_twice : World :=
  step (Click "brandCreateBtn") (step (Click "brandCreateBtn") step2_filled).

(** ** Properties of the string helpers *)

Lemma trimStart_first s c :
  JsString.first_char (JsString.trimStart s) = Some c -> JsString.is_space c = false.
Proof.
  induction s as [|a r IH]; simpl; [discriminate|].
  destruct (JsString.is_space a) eqn:Ha; [exact IH|].
  simpl. intros [= <-]. exact Ha.
Qed.

Lemma trimEnd_last s c :
  JsString.last_char (JsString.trimEnd s) = Some c -> JsString.is_space c = false.
Proof.
  induction s as [|a r IH]; simpl; [discriminate|].
  destruct (JsString.trimEnd r) as [|b t] eqn:Hr.
  - destruct (JsString.is_space a) eqn:Ha; simpl; [discriminate|].
    intros [= <-]. exact Ha.
  - exact IH.
Qed.

Lemma trimEnd_first s c :
  JsString.first_char (JsString.trimEnd s) = Some c -> JsString.first_char s = Some c.
Proof.
  destruct s as [|a r]; simpl; [discriminate|].
  destruct (JsString.trimEnd r); [destruct (JsString.is_space a)|]; simpl; congruence.
Qed.

Lemma trim_trimmed s : JsString.trimmed (JsString.trim s).
Proof.
  split; intros c Hc.
  - apply (trimStart_first s). apply trimEnd_first. exact Hc.
  - apply (trimEnd_last (JsString.trimStart s)). exact Hc.
Qed.

Lemma trimStart_decompose s :
  exists pre, s = pre +:+ JsString.trimStart s /\ all_space pre = true.
Proof.
  induction s as [|a r [pre [Hr Hpre]]]; simpl.
  - exists "". split; reflexivity.
  - destruct (JsString.is_space a) eqn:Ha.
    + exists (String a pre). simpl. rewrite Ha, Hpre. split; [|reflexivity].
      unfold String.app in *. simpl. congruence.
    + exists "". split; reflexivity.
Qed.

Lemma trimEnd_decompose s :
  exists post, s = JsString.trimEnd s +:+ post /\ all_space post = true.
Proof.
  induction s as [|a r [post [Hr Hpost]]]; simpl.
  - exists "". split; reflexivity.
  - destruct (JsString.trimEnd r) as [|b t] eqn:Ht.
    + destruct (JsString.is_space a) eqn:Ha.
      * exists (String a post). simpl. rewrite Ha, Hpost.
        unfold String.app in *. simpl in *. split; congruence.
      * exists post. unfold String.app in *. simpl in *. split; congruence.
    + exists post. unfold String.app in *. simpl in *. split; congruence.
Qed.

(** [trim] removes white space from both ends and nothing else. *)
Lemma trim_decompose s :
  exists pre post,
    s = pre +:+ JsString.trim s +:+ post
    /\ all_space pre = true /\ all_space post = true.
Proof.
  destruct (trimStart_decompose s) as [pre [Hs Hpre]].
  destruct (trimEnd_decompose (JsString.trimStart s)) as [post [Ht Hpost]].
  exists pre, post. unfold JsString.trim. rewrite <- Ht. auto.
Qed.

(** One step of [split_lines] at a code unit that is part of no separator. *)
Lemma split_lines_keep c r :
  JsString.is_LF c = false -> JsString.is_CR c && starts_LF r = false ->
  JsString.split_lines (String c r)
  = match JsString.split_lines r with
    | piece :: pieces => String c piece :: pieces
    | [] => [String c ""]
    end.
Proof.
  intros Hc Hsep. cbn [JsString.split_lines]. rewrite Hc.
  destruct r as [|c' r']; [reflexivity|].
  simpl in Hsep. rewrite Hsep. reflexivity.
Qed.

Lemma no_LF_starts s : has_LF s = false -> starts_LF s = false.
Proof.
  destruct s; simpl; [reflexivity|]. intros H.
  apply orb_false_iff in H as [H _]. exact H.
Qed.

Lemma split_lines_no_LF a : has_LF a = false -> JsString.split_lines a = [a].
Proof.
  induction a as [|c r IH]; [reflexivity|].
  intros H. simpl in H. apply orb_false_iff in H as [Hc Hr].
  rewrite split_lines_keep, (IH Hr); [reflexivity|exact Hc|].
  rewrite (no_LF_starts _ Hr). apply andb_false_r.
Qed.

Lemma split_lines_LF a b :
  has_LF a = false -> JsString.last_char a <> Some JsString.CR ->
  JsString.split_lines (a +:+ String JsString.LF b) = a :: JsString.split_lines b.
Proof.
  induction a as [|c r IH]; intros Ha Hlast; [reflexivity|].
  simpl in Ha. apply orb_false_iff in Ha as [Hc Hr].
  change (String c r +:+ String JsString.LF b)
    with (String c (r +:+ String JsString.LF b)).
  destruct r as [|c' r'].
  - rewrite split_lines_keep; [reflexivity|exact Hc|].
    assert (JsString.is_CR c = false) as ->; [|reflexivity].
    apply bool_decide_eq_false. simpl in Hlast. congruence.
  - rewrite split_lines_keep, IH; [reflexivity|exact Hr|exact Hlast|exact Hc|].
    simpl in Hr. apply orb_false_iff in Hr as [Hc' _].
    change (starts_LF _) with (JsString.is_LF c'). rewrite Hc'. apply andb_false_r.
Qed.

Lemma split_lines_CRLF a b :
  has_LF a = false ->
  JsString.split_lines (a +:+ String JsString.CR (String JsString.LF b))
  = a :: JsString.split_lines b.
Proof.
  induction a as [|c r IH]; intros Ha; [reflexivity|].
  simpl in Ha. apply orb_false_iff in Ha as [Hc Hr].
  change (String c r +:+ String JsString.CR (String JsString.LF b))
    with (String c (r +:+ String JsString.CR (String JsString.LF b))).
  rewrite split_lines_keep, (IH Hr); [reflexivity|exact Hc|].
  destruct r as [|c' r']; [apply andb_false_r|].
  simpl in Hr. apply orb_false_iff in Hr as [Hc' _].
  change (starts_LF _) with (JsString.is_LF c'). rewrite Hc'. apply andb_false_r.
Qed.

Lemma length_pos_nonempty (t : string) : 0 < String.length t -> t <> "".
Proof. destruct t; simpl; [lia|discriminate]. Qed.

(** ** Properties of the element helpers *)

Lemma elem_update id f w : elem id (update id f w) = f <$> elem id w.
Proof. apply lookup_alter_eq. Qed.

Lemma elem_update_ne id id' f w : id <> id' -> elem id' (update id f w) = elem id' w.
Proof. intros H. apply lookup_alter_ne. exact H. Qed.

Lemma elem_update_is_Some id id' f w :
  is_Some (elem id' (update id f w)) <-> is_Some (elem id' w).
Proof.
  unfold elem, update. simpl. rewrite lookup_alter_is_Some. reflexivity.
Qed.

(** ** Topics *)

Lemma parseTopics_string s :
  parseTopics (JString s)
  = filter (fun t => t <> "") (map JsString.trim (JsString.split_lines s)).
Proof.
  unfold parseTopics. destruct s as [|c r]; [reflexivity|].
  cbn [JsString.is_empty]. apply list_filter_iff.
  intros t. split; [apply length_pos_nonempty|].
  destruct t; simpl; [congruence|lia].
Qed.

(** C8. [parseTopics] splits the text at every line feed, a carriage return
    directly before the line feed going with it, trims each line and drops
    the lines that are empty then; the text "a\n\nb \n" gives a and b; and
    every topic returned is a non-empty string without white space at either
    end, namely a line of the text without the white space around it. *)
Theorem parseTopics_splits_trims_drops :
  (forall s,
      parseTopics (JString s)
      = filter (fun t => t <> "") (map JsString.trim (JsString.split_lines s)))
  /\ (forall a, has_LF a = false -> JsString.split_lines a = [a])
  /\ (forall a b, has_LF a = false -> JsString.last_char a <> Some JsString.CR ->
        JsString.split_lines (a +:+ String JsString.LF b)
        = a :: JsString.split_lines b)
  /\ (forall a b, has_LF a = false ->
        JsString.split_lines (a +:+ String JsString.CR (String JsString.LF b))
        = a :: JsString.split_lines b)
  /\ parseTopics (JString ("a" +:+ newline +:+ newline +:+ "b " +:+ newline)) = ["a"; "b"]
  /\ (forall s t,
        t ∈ parseTopics (JString s) ->
        t <> "" /\ JsString.trimmed t
        /\ exists line pre post,
             line ∈ JsString.split_lines s
             /\ line = pre +:+ t +:+ post
             /\ all_space pre = true /\ all_space post = true).
Proof.
  split; [exact parseTopics_string|].
  split; [exact split_lines_no_LF|].
  split; [exact split_lines_LF|].
  split; [exact split_lines_CRLF|].
  split; [reflexivity|].
  intros s t. rewrite parseTopics_string.
  rewrite list_elem_of_filter, list_elem_of_fmap.
  intros [Hne [line [-> Hline]]].
  split; [exact Hne|]. split; [apply trim_trimmed|].
  destruct (trim_decompose line) as [pre [post [Hdec [Hpre Hpost]]]].
  exists line, pre, post. auto.
Qed.

(** C10. Whatever is not a non-empty string ([null], [undefined], the empty
    string, a value of another type) parses to the empty list of topics:
    [parseTopics] evaluates nothing that can throw. The dropdown built from
    that list has the "All Topics" option and no other. *)
Theorem parseTopics_total_on_malformed (v : JsVal) :
  v = JNull \/ v = JUndefined \/ v = JString "" \/ Js.typeof_string v = false ->
  parseTopics v = []
  /\ forall w e,
       elem "trendTopicSelect" w = Some e ->
       elem "trendTopicSelect" (populateTopicDropdown (parseTopics v) w)
       = Some (El.set_options [("", "All Topics")] e).
Proof.
  intros Hv.
  assert (parseTopics v = []) as Hnil.
  { destruct Hv as [-> | [-> | [-> | Hv]]]; try reflexivity.
    destruct v; try reflexivity. discriminate. }
  split; [exact Hnil|].
  intros w e He. rewrite Hnil. unfold populateTopicDropdown. rewrite He.
  cbn [foldl]. rewrite !elem_update, He. reflexivity.
Qed.

Lemma update_absent id f w : elem id w = None -> update id f w = w.
Proof.
  intros H. destruct w as [d ? ? ? ? ? ? ? ? ? ?]. unfold update, W.set_dom.
  cbn in *. f_equal. apply map_eq. intros j.
  destruct (decide (id = j)) as [<-|Hne].
  - rewrite lookup_alter_eq. unfold elem in H. cbn in H. rewrite H. reflexivity.
  - rewrite lookup_alter_ne by exact Hne. reflexivity.
Qed.

(** An assignment whose right-hand side converts is the update of the
    element, whether the element is there or not. *)
Lemma assign_converts id convert set v s w :
  convert v = Value s -> assign id convert set v w = Completed tt (update id (set s) w).
Proof.
  intros Hs. unfold assign. rewrite Hs.
  destruct (elem id w) eqn:He; [reflexivity|].
  rewrite update_absent by exact He. reflexivity.
Qed.

(** Rewrites the lookup of an element after updates of elements whose ids
    are literals. *)
Ltac elem_simpl :=
  repeat first
    [ rewrite elem_update
    | rewrite elem_update_ne by discriminate ].

(** ** The progress display *)

Lemma safePercent_range percent :
  percent <> NaN ->
  exists q, safePercent percent = Finite q /\ (0 <= q /\ q <= 100)%Q.
Proof.
  intros Hnum. destruct percent as [| |p|]; [congruence| | |].
  - exists (inject_Z 0). split; [reflexivity|]. split; [apply Qle_refl|discriminate].
  - unfold safePercent, Num.max, Num.of_Z, Num.leb.
    destruct (Qle_bool p (inject_Z 0)) eqn:Hp0.
    + exists (inject_Z 0). split; [reflexivity|]. split; [apply Qle_refl|discriminate].
    + unfold Num.min, Num.leb. destruct (Qle_bool p (inject_Z 100)) eqn:Hp100.
      * exists p. split; [reflexivity|]. split.
        -- apply Qlt_le_weak, Qnot_le_lt. intros H.
           apply (Qle_bool_iff p (inject_Z 0)) in H. congruence.
        -- apply Qle_bool_iff in Hp100. exact Hp100.
      * exists (inject_Z 100). split; [reflexivity|]. split; [discriminate|apply Qle_refl].
  - exists (inject_Z 100). split; [reflexivity|]. split; [discriminate|apply Qle_refl].
Qed.

Lemma round_range q :
  (0 <= q /\ q <= 100)%Q ->
  exists r, Num.round (Finite q) = Finite r /\ (0 <= r /\ r <= 100)%Q.
Proof.
  intros [H0 H100]. exists (inject_Z (Qfloor (q + (1 # 2)))).
  split; [reflexivity|]. split.
  - change 0%Q with (inject_Z 0). rewrite <- Zle_Qle.
    change 0%Z with (Qfloor 0). apply Qfloor_resp_le. lra.
  - change 100%Q with (inject_Z 100). rewrite <- Zle_Qle.
    change 100%Z with (Qfloor (100 + (1 # 2))). apply Qfloor_resp_le. lra.
Qed.

Lemma updateAnalysisProgress_elems percent used total w :
  let w' := Stmt.world_of (updateAnalysisProgress percent used total w) in
  elem "analysisProgressFill" w'
  = El.set_width (number_toString (safePercent percent) +:+ "%")
      <$> elem "analysisProgressFill" w
  /\ elem "analysisPercentLabel" w'
     = El.set_textContent (number_toString (Num.round (safePercent percent)) +:+ "%")
         <$> elem "analysisPercentLabel" w.
Proof.
  unfold updateAnalysisProgress, Stmt.bind, Stmt.modify, Stmt.read, Stmt.eval,
    Stmt.ret, Stmt.throw.
  cbn beta zeta.
  destruct (elem "analysisPromptsLabel" _) as [l|]; cbn [Stmt.world_of].
  - destruct (ToString used) as [u|]; cbn [Stmt.world_of].
    + destruct (ToString total) as [t|]; cbn [Stmt.world_of]; split; elem_simpl; reflexivity.
    + split; elem_simpl; reflexivity.
  - split; elem_simpl; reflexivity.
Qed.

(** C7. For every number [percent] (negative, above 100 and infinite ones
    among them), [updateAnalysisProgress] shows a value between 0 and 100:
    the width of the bar is the text of a number in that range followed by
    a percent sign, and so is the label, whose number is the rounded one. *)
Theorem updateAnalysisProgress_clamps (percent : JsNum) (used total : JsVal) (w : World) :
  percent <> NaN ->
  exists shown rounded : Q,
    (0 <= shown /\ shown <= 100)%Q /\ (0 <= rounded /\ rounded <= 100)%Q
    /\ safePercent percent = Finite shown
    /\ Num.round (Finite shown) = Finite rounded
    /\ let w' := Stmt.world_of (updateAnalysisProgress percent used total w) in
       width <$> elem "analysisProgressFill" w'
       = (fun _ => number_toString (Finite shown) +:+ "%") <$> elem "analysisProgressFill" w
       /\ textContent <$> elem "analysisPercentLabel" w'
          = (fun _ => number_toString (Finite rounded) +:+ "%")
              <$> elem "analysisPercentLabel" w.
Proof.
  intros Hnum.
  destruct (safePercent_range percent Hnum) as [shown [Hsafe Hshown]].
  destruct (round_range shown Hshown) as [rounded [Hround Hrounded]].
  exists shown, rounded. repeat (split; [assumption|]).
  destruct (updateAnalysisProgress_elems percent used total w) as [Hfill Hlabel].
  cbn zeta. rewrite Hfill, Hlabel, Hsafe, Hround.
  split.
  - destruct (elem "analysisProgressFill" w); reflexivity.
  - destruct (elem "analysisPercentLabel" w); reflexivity.
Qed.

(** ** The scorecards *)

Lemma primitive_ToString v : primitive v = true -> exists s, ToString v = Value s.
Proof. destruct v; try discriminate; intros _; eexists; reflexivity. Qed.

Lemma primitive_text_of v : primitive v = true -> exists s, text_of v = Value s.
Proof. destruct v; try discriminate; intros _; eexists; reflexivity. Qed.

Lemma primitive_number_or_zero v :
  primitive v = true -> exists n, number_or_zero v = Value n.
Proof. destruct v; try discriminate; intros _; eexists; reflexivity. Qed.

Lemma primitive_or a b : primitive a = true -> primitive b = true -> primitive (Js.or a b) = true.
Proof. unfold Js.or. destruct (Js.truthy a); auto. Qed.

Lemma primitive_coalesce a b :
  primitive a = true -> primitive b = true -> primitive (Js.coalesce a b) = true.
Proof. unfold Js.coalesce. destruct (Js.nullish a); auto. Qed.

(** The default: a metric that is absent (or null) counts as zero. *)
Lemma number_or_zero_default v :
  Js.nullish v = true ->
  number_or_zero (Js.coalesce v (JNumber (Num.of_Z 0))) = Value (Num.of_Z 0).
Proof. intros H. unfold Js.coalesce. rewrite H. reflexivity. Qed.

Lemma toFixed1_zero : toFixed1 (Num.of_Z 0) = "0.0".
Proof. reflexivity. Qed.

Lemma number_toString_zero : number_toString (Num.of_Z 0) = "0".
Proof. reflexivity. Qed.

(** C9. When [brand_share_pct], [avg_rank] or [citations] is absent from the
    metrics of an analysis response (or null, or the metrics are absent
    altogether), [updateMetricCardsFromAnalysis] renders the scorecard of
    that metric with the default: "0.0" for the share and the average rank,
    "0" for the citations. The response is one whose brand name and metrics,
    where present, are no objects. *)
Theorem updateMetricCards_defaults (data : JsVal) (fallbackBrandName : string) (w : World) :
  let metrics := Js.or (Js.get_opt "metrics" data) (JObject []) in
  primitive (Js.get_opt "name" (Js.get_opt "brand" data)) = true ->
  primitive (Js.prop "brand_share_pct" metrics) = true ->
  primitive (Js.prop "avg_rank" metrics) = true ->
  primitive (Js.prop "citations" metrics) = true ->
  exists w',
    updateMetricCardsFromAnalysis data fallbackBrandName w = Completed tt w'
    /\ (Js.nullish (Js.prop "brand_share_pct" metrics) = true ->
        textContent <$> elem "cardMentionsValue" w'
        = (fun _ => "0.0") <$> elem "cardMentionsValue" w)
    /\ (Js.nullish (Js.prop "avg_rank" metrics) = true ->
        textContent <$> elem "cardAvgRankValue" w'
        = (fun _ => "0.0") <$> elem "cardAvgRankValue" w)
    /\ (Js.nullish (Js.prop "citations" metrics) = true ->
        textContent <$> elem "cardCitationsValue" w'
        = (fun _ => "0") <$> elem "cardCitationsValue" w).
Proof.
  intros metrics Hname Hshare Hrank Hcit.
  unfold updateMetricCardsFromAnalysis. fold metrics.
  set (brandName := Js.or (Js.or _ (JString fallbackBrandName)) (JString "")).
  assert (primitive brandName = true) as Hbrand
    by (unfold brandName; auto using primitive_or).
  destruct (primitive_number_or_zero _ (primitive_coalesce _ (JNumber (Num.of_Z 0)) Hshare eq_refl))
    as [mentions Hmentions].
  destruct (primitive_number_or_zero _ (primitive_coalesce _ (JNumber (Num.of_Z 0)) Hrank eq_refl))
    as [avgRank HavgRank].
  destruct (primitive_number_or_zero _ (primitive_coalesce _ (JNumber (Num.of_Z 0)) Hcit eq_refl))
    as [citations Hcitations].
  destruct (primitive_text_of (Js.or brandName (JString "Brand"))) as [upper Hupper];
    [auto using primitive_or|].
  destruct (primitive_text_of (Js.or brandName (JString "brand"))) as [lower Hlower];
    [auto using primitive_or|].
  cbn zeta. unfold Stmt.bind, Stmt.eval, Stmt.modify, Stmt.ret.
  rewrite Hmentions, HavgRank, Hcitations.
  repeat first
    [ progress unfold assign_textContent
    | rewrite (assign_converts _ _ _ _ _ _ Hupper)
    | rewrite (assign_converts _ _ _ _ _ _ Hlower)
    | progress cbv beta iota ].
  eexists. split; [reflexivity|].
  split; [|split]; intros Hnull; elem_simpl.
  - rewrite (number_or_zero_default _ Hnull) in Hmentions.
    injection Hmentions as <-. rewrite toFixed1_zero.
    destruct (elem "cardMentionsValue" w); reflexivity.
  - rewrite (number_or_zero_default _ Hnull) in HavgRank.
    injection HavgRank as <-. rewrite toFixed1_zero.
    destruct (elem "cardAvgRankValue" w); reflexivity.
  - rewrite (number_or_zero_default _ Hnull) in Hcitations.
    injection Hcitations as <-. rewrite number_toString_zero.
    destruct (elem "cardCitationsValue" w); reflexivity.
Qed.

(** ** The datasets of the trend chart *)

Lemma entries_from_snd k l : (entries_from k l).*2 = l.
Proof. revert k. induction l as [|v r IH]; intros k; simpl; [|rewrite IH]; reflexivity. Qed.

Lemma entries_from_fst k l : (entries_from k l).*1 = seq k (length l).
Proof. revert k. induction l as [|v r IH]; intros k; simpl; [|rewrite IH]; reflexivity. Qed.

Lemma entries_from_lookup k l i :
  entries_from k l !! i = (fun v => (k + i, v)) <$> l !! i.
Proof.
  revert k i. induction l as [|v r IH]; intros k [|i]; simpl; try reflexivity.
  - rewrite Nat.add_0_r. reflexivity.
  - rewrite IH. rewrite Nat.add_succ_r. reflexivity.
Qed.

Lemma entries_from_objects k l :
  Forall (fun v => is_object v = true) l ->
  Forall (fun e : Entry => is_object e.2 = true) (entries_from k l).
Proof.
  intros H. revert k. induction H as [|v r Hv _ IH]; intros k; simpl; constructor; auto.
Qed.

Lemma get_object k v : is_object v = true -> Js.get k v = Value (Js.prop k v).
Proof. destruct v; try discriminate. reflexivity. Qed.

Lemma object_truthy v : is_object v = true -> Js.truthy v = true.
Proof. destruct v; try discriminate. reflexivity. Qed.

Lemma find_named_objects b k l :
  Forall (fun v => is_object v = true) l ->
  find_named b (entries_from k l)
  = Value (prod_map (fun i => k + i) id <$> list_find (fun v => named b v = true) l).
Proof.
  intros H. revert k. induction H as [|v r Hv _ IH]; intros k; [reflexivity|].
  cbn [entries_from find_named list_find]. cbn [snd].
  rewrite (get_object _ _ Hv). cbn [Js.exc_bind]. fold (named b v).
  destruct (named b v) eqn:Hn.
  - rewrite decide_True by reflexivity. cbn. rewrite Nat.add_0_r. reflexivity.
  - rewrite decide_False by discriminate. rewrite IH.
    destruct (list_find _ r) as [[i m]|]; cbn; [|reflexivity].
    rewrite Nat.add_succ_r. reflexivity.
Qed.

(** Two entries that are objects are the same value when they are the same
    position. *)
Lemma same_value_zero_objects (x y : Entry) :
  is_object x.2 = true -> is_object y.2 = true ->
  same_value_zero x y = bool_decide (x.1 = y.1).
Proof.
  destruct x as [i [| | | | | |p|]], y as [j [| | | | | |q|]]; try discriminate.
  reflexivity.
Qed.

Lemma includes_app ordered s x :
  includes (ordered ++ [s]) x = includes ordered x || same_value_zero x s.
Proof.
  unfold includes. rewrite existsb_app. simpl. rewrite orb_false_r. reflexivity.
Qed.

Lemma filter_ext_in {A} (P Q : A -> Prop)
    `{!forall x, Decision (P x), !forall x, Decision (Q x)} (l : list A) :
  (forall x, x ∈ l -> P x <-> Q x) -> filter P l = filter Q l.
Proof.
  induction l as [|a l IH]; intros Hext; [reflexivity|].
  rewrite !filter_cons.
  rewrite IH by (intros x Hx; apply Hext; right; exact Hx).
  apply decide_ext. apply Hext. left.
Qed.

Lemma filter_all {A} (P : A -> Prop) `{!forall x, Decision (P x)} (l : list A) :
  (forall x, x ∈ l -> P x) -> filter P l = l.
Proof.
  induction l as [|a l IH]; intros Hall; [reflexivity|].
  rewrite filter_cons_True by (apply Hall; left).
  rewrite IH by (intros x Hx; apply Hall; right; exact Hx). reflexivity.
Qed.

(** Over entries that are objects at distinct positions, the loop appends
    the entries that the list did not include at the start. *)
Lemma push_missing_objects ordered l :
  Forall (fun e : Entry => is_object e.2 = true) l ->
  Forall (fun e : Entry => is_object e.2 = true) ordered ->
  NoDup l.*1 ->
  push_missing ordered l = ordered ++ filter (fun s => includes ordered s = false) l.
Proof.
  unfold push_missing. intros Hobj. revert ordered.
  induction Hobj as [|s r Hs Hr IH]; intros ordered Hord Hnd.
  - simpl. rewrite app_nil_r. reflexivity.
  - cbn [fmap list_fmap] in Hnd. apply NoDup_cons in Hnd as [Hnotin Hnd].
    cbn [foldl]. rewrite filter_cons. destruct (includes ordered s) eqn:Hinc.
    + rewrite decide_False by discriminate. apply IH; assumption.
    + rewrite decide_True by reflexivity.
      rewrite IH;
        [|apply Forall_app; split; [exact Hord|constructor; [exact Hs|constructor]]
         |exact Hnd].
      rewrite <- app_assoc. cbn [app]. do 2 f_equal.
      apply filter_ext_in. intros x Hx. rewrite includes_app.
      rewrite same_value_zero_objects;
        [|exact (proj1 (Forall_forall _ _) Hr x Hx)|exact Hs].
      rewrite bool_decide_eq_false_2; [rewrite orb_false_r; reflexivity|].
      intros Heq. apply Hnotin. rewrite <- Heq.
      apply list_elem_of_fmap. exists x. split; [reflexivity|exact Hx].
Qed.

Lemma filter_other_positions (l : list Entry) i m :
  Forall (fun e : Entry => is_object e.2 = true) l -> NoDup l.*1 ->
  l !! i = Some m ->
  filter (fun s => includes [m] s = false) l = delete i l.
Proof.
  intros Hobj. revert i. induction Hobj as [|s r Hs Hr IH]; intros i Hnd Hi.
  - destruct i; discriminate.
  - cbn [fmap list_fmap] in Hnd. apply NoDup_cons in Hnd as [Hnotin Hnd].
    destruct i as [|i]; cbn in Hi.
    + injection Hi as ->. rewrite filter_cons_False.
      * cbn [delete list_delete]. apply filter_all. intros x Hx. unfold includes. cbn [existsb].
        rewrite same_value_zero_objects;
          [|exact (proj1 (Forall_forall _ _) Hr x Hx)|exact Hs].
        rewrite bool_decide_eq_false_2; [reflexivity|].
        intros Heq. apply Hnotin. rewrite <- Heq.
        apply list_elem_of_fmap. exists x. split; [reflexivity|exact Hx].
      * unfold includes. cbn [existsb].
        rewrite same_value_zero_objects by exact Hs.
        rewrite bool_decide_eq_true_2 by reflexivity. discriminate.
    + assert (m ∈ r) as Hm by (apply list_elem_of_lookup; exists i; exact Hi).
      rewrite filter_cons_True.
      * cbn [delete list_delete]. f_equal. apply IH; assumption.
      * unfold includes. cbn [existsb].
        rewrite same_value_zero_objects;
          [|exact Hs|exact (proj1 (Forall_forall _ _) Hr m Hm)].
        rewrite bool_decide_eq_false_2; [reflexivity|].
        intros Heq. apply Hnotin. rewrite Heq.
        apply list_elem_of_fmap. exists m. split; [reflexivity|exact Hm].
Qed.

Lemma map_indexed_objects k (l : list Entry) :
  Forall (fun e : Entry => is_object e.2 = true) l ->
  map_indexed array_dataset k l
  = Value (imap (fun j (e : Entry) => series_dataset e.2 (k + j)) l).
Proof.
  intros H. revert k. induction H as [|e r He _ IH]; intros k; [reflexivity|].
  cbn [map_indexed]. unfold array_dataset at 1.
  rewrite !(get_object _ _ He). cbn [Js.exc_bind]. rewrite IH. cbn [Js.exc_bind].
  rewrite imap_cons. rewrite Nat.add_0_r. do 2 f_equal.
  apply imap_ext. intros j x _. cbn. rewrite Nat.add_succ_r. reflexivity.
Qed.

Lemma datasets_of_entries (ordered : list Entry) :
  Forall (fun e : Entry => is_object e.2 = true) ordered ->
  map_indexed array_dataset 0 (take 10 ordered)
  = Value (imap (fun j v => series_dataset v j) (take 10 ordered.*2)).
Proof.
  intros H. rewrite map_indexed_objects by (apply Forall_take; exact H).
  rewrite <- fmap_take, imap_fmap. f_equal.
Qed.

(** The array form, over series objects: the datasets of the first ten
    series in the order of [focal_first], or in the order of the source when
    no focal brand name is given. *)
Lemma buildDatasets_array elems b :
  Forall (fun v => is_object v = true) elems ->
  buildDatasetsFromSeries (JArray elems) b
  = Value (imap (fun j v => series_dataset v j)
             (take 10 (if JsString.is_empty b then elems else focal_first b elems))).
Proof.
  intros Hobj.
  pose proof (entries_from_objects 0 _ Hobj) as Hent.
  assert (NoDup (entries elems).*1) as Hnd
    by (unfold entries; rewrite entries_from_fst; apply NoDup_seq).
  assert (push_missing [] (entries elems) = entries elems) as Hall.
  { rewrite push_missing_objects by (try constructor; assumption).
    cbn [app]. apply filter_all. reflexivity. }
  unfold buildDatasetsFromSeries. cbn [Js.truthy negb].
  destruct (JsString.is_empty b) eqn:Hb.
  - cbn [Js.exc_bind]. rewrite Hall, datasets_of_entries by exact Hent.
    unfold entries. rewrite entries_from_snd. reflexivity.
  - unfold entries at 1. rewrite find_named_objects by exact Hobj.
    unfold focal_first.
    destruct (list_find _ elems) as [[i m]|] eqn:Hfind;
      cbn [fmap option_fmap option_map Js.exc_bind].
    + apply list_find_Some in Hfind as (Hi & _ & _).
      assert (is_object m = true) as Hm.
      { apply (proj1 (Forall_forall _ _) Hobj). apply list_elem_of_lookup. eauto. }
      cbn [prod_map fst snd id]. rewrite (object_truthy _ Hm).
      assert (entries elems !! i = Some (0 + i, m)) as Hlook
        by (unfold entries; rewrite entries_from_lookup, Hi; reflexivity).
      rewrite push_missing_objects;
        [|exact Hent|constructor; [exact Hm|constructor]|exact Hnd].
      rewrite (filter_other_positions _ i) by assumption.
      cbn [app]. rewrite datasets_of_entries.
      * cbn [fmap list_fmap snd]. rewrite list_fmap_delete.
        unfold entries. rewrite entries_from_snd. reflexivity.
      * constructor; [exact Hm|].
        apply Forall_delete. exact Hent.
    + rewrite Hall, datasets_of_entries by exact Hent.
      unfold entries. rewrite entries_from_snd. reflexivity.
Qed.

Lemma focal_first_Permutation b elems : focal_first b elems ≡ₚ elems.
Proof.
  unfold focal_first. destruct (list_find _ elems) as [[i m]|] eqn:Hfind; [|reflexivity].
  apply list_find_Some in Hfind as (Hi & _ & _).
  symmetry. apply delete_Permutation. exact Hi.
Qed.

Lemma series_dataset_labels l :
  label <$> imap (fun j v => series_dataset v j) l = Js.prop "name" <$> l.
Proof.
  rewrite fmap_imap. rewrite <- imap_const. apply imap_ext. reflexivity.
Qed.

Lemma named_name b v : named b v = true -> Js.prop "name" v = JString b.
Proof.
  unfold named, Js.strict_eq_string. destruct (Js.prop "name" v); try discriminate.
  intros H. apply String.eqb_eq in H. congruence.
Qed.

Lemma is_empty_false s : s <> "" -> JsString.is_empty s = false.
Proof. destruct s; [congruence|reflexivity]. Qed.

Lemma is_empty_true s : JsString.is_empty s = true -> s = "".
Proof. destruct s; [reflexivity|discriminate]. Qed.

(** C1. For an array of series objects and a focal brand name (a non-empty
    string), [buildDatasetsFromSeries] returns the datasets of the series in
    this order: the series called by the focal brand name first, when there
    is one, then the other series in the order of the source, every series
    once, cut to ten. For the series A and B with focal brand B the labels
    are B, A; from more than ten series it builds exactly ten datasets, the
    focal brand's first. *)
Theorem buildDatasets_focal_first_capped (elems : list JsVal) (brandName : string) :
  Forall (fun v => is_object v = true) elems ->
  brandName <> "" ->
  exists datasets,
    buildDatasetsFromSeries (JArray elems) brandName = Value datasets
    /\ datasets
       = imap (fun idx v => series_dataset v idx) (take 10 (focal_first brandName elems))
    /\ label <$> datasets = Js.prop "name" <$> take 10 (focal_first brandName elems)
    /\ focal_first brandName elems ≡ₚ elems
    /\ (forall v, v ∈ elems -> named brandName v = true ->
        label <$> head datasets = Some (JString brandName))
    /\ length datasets <= 10
    /\ (10 < length elems -> length datasets = 10)
    /\ dataset_labels
         (buildDatasetsFromSeries
            (JArray [series_object "A" [1; 2]; series_object "B" [3; 4]])%Z "B")
       = Value [JString "B"; JString "A"].
Proof.
  intros Hobj Hb. eexists. split.
  { rewrite (buildDatasets_array _ _ Hobj), (is_empty_false _ Hb). reflexivity. }
  split; [reflexivity|].
  split; [apply series_dataset_labels|].
  split; [apply focal_first_Permutation|].
  assert (length (focal_first brandName elems) = length elems) as Hlen
    by (apply Permutation_length, focal_first_Permutation).
  split; [|split; [|split]].
  - intros v Hv Hnamed.
    destruct (list_find_elem_of (fun v => named brandName v = true) elems v Hv Hnamed)
      as [[i m] Hfind].
    unfold focal_first. rewrite Hfind.
    apply list_find_Some in Hfind as (_ & Hm & _).
    cbn. rewrite (named_name _ _ Hm). reflexivity.
  - rewrite length_imap, length_take. lia.
  - intros Hmany. rewrite length_imap, length_take, Hlen. lia.
  - reflexivity.
Qed.

(** ** What a statement leaves unchanged *)

Lemma Blind_timers : Blind timers.
Proof. split; reflexivity. Qed.

Lemma Blind_visualProgress : Blind visualProgress.
Proof. split; reflexivity. Qed.

Lemma Blind_network : Blind network.
Proof. split; reflexivity. Qed.

Lemma Blind_datasets : Blind datasets.
Proof. split; reflexivity. Qed.

Section Keeps.

Context {T : Type} (view : World -> T).

Lemma keeps_ret {A} (a : A) : keeps view (Stmt.ret a).
Proof. intros w. reflexivity. Qed.

Lemma keeps_throw {A} : keeps view (@Stmt.throw A).
Proof. intros w. reflexivity. Qed.

Lemma keeps_eval {A} (e : Exc A) : keeps view (Stmt.eval e).
Proof. intros w. destruct e; reflexivity. Qed.

Lemma keeps_read {A} (f : World -> A) : keeps view (Stmt.read f).
Proof. intros w. reflexivity. Qed.

Lemma keeps_modify (f : World -> World) :
  (forall w, view (f w) = view w) -> keeps view (Stmt.modify f).
Proof. intros H w. apply H. Qed.

Lemma keeps_bind {A B} (m : M A) (k : A -> M B) :
  keeps view m -> (forall a, keeps view (k a)) -> keeps view (Stmt.bind m k).
Proof.
  intros Hm Hk w. unfold Stmt.bind. specialize (Hm w).
  destruct (m w) as [a w'|w']; cbn in *; [|exact Hm].
  rewrite Hk. exact Hm.
Qed.

Lemma keeps_try_catch {A} (body handler : M A) :
  keeps view body -> keeps view handler -> keeps view (Stmt.try_catch body handler).
Proof.
  intros Hb Hh w. unfold Stmt.try_catch. specialize (Hb w).
  destruct (body w) as [a w'|w']; cbn in *; [exact Hb|].
  rewrite Hh. exact Hb.
Qed.

Lemma keeps_try_finally {A} (body : M A) (final : World -> World) :
  keeps view body -> (forall w, view (final w) = view w) ->
  keeps view (Stmt.try_finally body final).
Proof.
  intros Hb Hf w. unfold Stmt.try_finally. specialize (Hb w).
  destruct (body w) as [a w'|w']; cbn in *; rewrite Hf; exact Hb.
Qed.

Hypothesis blind : Blind view.

Lemma view_update id f w : view (update id f w) = view w.
Proof using blind. apply (blind_dom view blind). Qed.

Lemma keeps_assign id convert set v : keeps view (assign id convert set v).
Proof using blind.
  intros w. unfold assign. destruct (elem id w); [|reflexivity].
  destruct (convert v); [|reflexivity]. cbn. apply view_update.
Qed.

Lemma view_populateTopicDropdown topics w :
  view (populateTopicDropdown topics w) = view w.
Proof using blind.
  unfold populateTopicDropdown. destruct (elem "trendTopicSelect" w); [|reflexivity].
  assert (forall w0,
             view (foldl (fun w t => update "trendTopicSelect" (El.append_option t t) w)
                     w0 topics) = view w0) as Hfold.
  { induction topics as [|t r IH]; intros w0; [reflexivity|].
    cbn [foldl]. rewrite IH. apply view_update. }
  rewrite Hfold, !view_update. reflexivity.
Qed.

Lemma view_setTrendTabs metric w : view (setTrendTabs metric w) = view w.
Proof using blind.
  unfold setTrendTabs.
  destruct (elem "trendTabVisibility" w), (elem "trendTabRank" w); try reflexivity.
  destruct (String.eqb metric "visibility"); rewrite !view_update; reflexivity.
Qed.

Lemma view_createOrUpdateTrendChart metric w :
  view (createOrUpdateTrendChart metric w) = view w.
Proof using blind.
  unfold createOrUpdateTrendChart.
  destruct (elem "visibilityTrendChart" w); [|reflexivity].
  destruct (negb (hasChart w)); [reflexivity|].
  rewrite view_setTrendTabs, (blind_metric view blind).
  destruct (visibilityTrendChart w); apply (blind_trend_chart view blind).
Qed.

Lemma keeps_createOrUpdateDonutChart donut : keeps view (createOrUpdateDonutChart donut).
Proof using blind.
  intros w. unfold createOrUpdateDonutChart, Stmt.bind, Stmt.read, Stmt.ret.
  destruct (elem "mentionsDonutChart" w); [|reflexivity].
  destruct (negb (hasChart w)); [reflexivity|].
  destruct (pluck "label" _); [|reflexivity]. cbn.
  destruct (pluck "value" _); [|reflexivity]. cbn.
  destruct (mentionsDonutChart w); apply (blind_donut_chart view blind).
Qed.

End Keeps.

(** Proves a goal [keeps view m] for a statement made of the constructs
    above and of changes that are updates of elements. *)
Ltac keeps_step blind :=
  lazymatch goal with
  | |- keeps _ (Stmt.bind _ _) => apply keeps_bind; [|intros ?]
  | |- keeps _ (Stmt.ret _) => apply keeps_ret
  | |- keeps _ Stmt.throw => apply keeps_throw
  | |- keeps _ (Stmt.eval _) => apply keeps_eval
  | |- keeps _ (Stmt.read _) => apply keeps_read
  | |- keeps _ (assign _ _ _ _) => apply (keeps_assign _ blind)
  | |- keeps _ (assign_textContent _ _) => apply (keeps_assign _ blind)
  | |- keeps _ (assign_value _ _) => apply (keeps_assign _ blind)
  | |- keeps _ (createOrUpdateDonutChart _) => apply (keeps_createOrUpdateDonutChart _ blind)
  | |- keeps _ (Stmt.try_catch _ _) => apply keeps_try_catch
  | |- keeps _ (Stmt.try_finally _ _) =>
      apply keeps_try_finally; [|intros ?; rewrite ?(view_update _ blind); reflexivity]
  | |- keeps _ (Stmt.modify (populateTopicDropdown _)) =>
      apply keeps_modify; intros ?; apply (view_populateTopicDropdown _ blind)
  | |- keeps _ (Stmt.modify (createOrUpdateTrendChart _)) =>
      apply keeps_modify; intros ?; apply (view_createOrUpdateTrendChart _ blind)
  | |- keeps _ (Stmt.modify _) =>
      apply keeps_modify; intros ?; rewrite ?(view_update _ blind); reflexivity
  | |- keeps _ (match ?x with _ => _ end) => destruct x
  end.

Ltac keeps_tac blind := repeat keeps_step blind.

Lemma keeps_showError {T} (view : World -> T) msg : Blind view -> keeps view (showError msg).
Proof. intros blind. unfold showError. keeps_tac blind. Qed.

Lemma keeps_updateAnalysisProgress {T} (view : World -> T) percent used total :
  Blind view -> keeps view (updateAnalysisProgress percent used total).
Proof. intros blind. unfold updateAnalysisProgress. cbn zeta. keeps_tac blind. Qed.

Lemma keeps_updateMetricCardsFromAnalysis {T} (view : World -> T) data fallback :
  Blind view -> keeps view (updateMetricCardsFromAnalysis data fallback).
Proof. intros blind. unfold updateMetricCardsFromAnalysis. cbn zeta. keeps_tac blind. Qed.

Lemma keeps_populate {T} (view : World -> T) id key data fallback :
  Blind view -> keeps view (populate id key data fallback).
Proof. intros blind. unfold populate. keeps_tac blind. Qed.

Lemma keeps_goToStep2_resume {T} (view : World -> T) brandName brandDesc settled :
  Blind view -> keeps view (goToStep2_resume brandName brandDesc settled).
Proof.
  intros blind. unfold goToStep2_resume.
  apply keeps_try_finally; [|intros ?; apply (view_update _ blind)].
  apply keeps_try_catch; [|apply keeps_showError; exact blind].
  destruct settled as [|status [data|]];
    [apply keeps_throw| |apply keeps_showError; exact blind].
  apply keeps_bind.
  { destruct (negb (ok status)); keeps_tac blind. }
  intros failed. destruct failed.
  - apply keeps_bind; [apply keeps_eval|intros e; apply keeps_showError; exact blind].
  - repeat (apply keeps_bind; [apply keeps_populate; exact blind|intros _]).
    keeps_tac blind.
Qed.

(** ** The order of the series across the two metrics *)

Lemma focal_first_names_of b elems :
  Js.prop "name" <$> focal_first b elems
  = focal_first_names b (Js.prop "name" <$> elems).
Proof.
  unfold focal_first, focal_first_names. rewrite list_find_fmap.
  unfold named, compose.
  destruct (list_find _ elems) as [[i m]|]; cbn; [|reflexivity].
  rewrite list_fmap_delete. reflexivity.
Qed.

Lemma buildDatasets_array_labels elems b :
  Forall (fun v => is_object v = true) elems ->
  dataset_labels (buildDatasetsFromSeries (JArray elems) b)
  = Value (take 10 (if JsString.is_empty b then Js.prop "name" <$> elems
                    else focal_first_names b (Js.prop "name" <$> elems))).
Proof.
  intros Hobj. rewrite (buildDatasets_array _ _ Hobj). cbn [dataset_labels Js.exc_bind].
  rewrite series_dataset_labels, fmap_take.
  destruct (JsString.is_empty b); [reflexivity|].
  rewrite focal_first_names_of. reflexivity.
Qed.

Lemma map_indexed_object props k l :
  map_indexed (object_dataset props) k l
  = Value (imap (fun j name =>
                   dataset (JString name)
                     (Js.or (Js.prop name (JObject props)) (JArray [])) (k + j)) l).
Proof.
  revert k. induction l as [|x r IH]; intros k; [reflexivity|].
  cbn [map_indexed]. unfold object_dataset at 1. cbn [Js.exc_bind].
  rewrite IH. cbn [Js.exc_bind]. rewrite imap_cons, Nat.add_0_r. do 2 f_equal.
  apply imap_ext. intros j y _. cbn. rewrite Nat.add_succ_r. reflexivity.
Qed.

Lemma buildDatasets_object_labels props b :
  dataset_labels (buildDatasetsFromSeries (JObject props) b)
  = Value (JString <$>
             take 10
               (push_missing_names
                  (if negb (JsString.is_empty b) && Js.truthy (Js.prop b (JObject props))
                   then [b] else [])
                  (Js.keys props))).
Proof.
  unfold buildDatasetsFromSeries. cbn [Js.truthy negb].
  rewrite map_indexed_object. cbn [dataset_labels Js.exc_bind].
  rewrite fmap_imap, <- imap_const. f_equal.
Qed.

Lemma own_Some k props x : Js.own k props = Some x -> (k, x) ∈ props.
Proof.
  induction props as [|[k' v] r IH]; simpl; [discriminate|].
  destruct (String.eqb k k') eqn:Hk.
  - apply String.eqb_eq in Hk as <-. intros [= <-]. left.
  - intros H. right. exact (IH H).
Qed.

Lemma own_None k props : Js.own k props = None -> k ∉ Js.keys props.
Proof.
  unfold Js.keys. induction props as [|[k' v] r IH]; simpl.
  - intros _. apply not_elem_of_nil.
  - destruct (String.eqb k k') eqn:Hk; [discriminate|].
    intros H. apply not_elem_of_cons. split; [|exact (IH H)].
    apply String.eqb_neq. exact Hk.
Qed.

(** In a mapping whose values are truthy, a name has a truthy value exactly
    when it is a key or the name of an inherited property. *)
Lemma truthy_prop_mapping props b :
  Forall (fun kv : string * JsVal => Js.truthy kv.2 = true) props ->
  Js.truthy (Js.prop b (JObject props))
  = bool_decide (b ∈ Js.keys props) || bool_decide (b ∈ Js.object_prototype_keys).
Proof.
  intros Hwf. unfold Js.prop. destruct (Js.own b props) as [x|] eqn:Hown.
  - pose proof (own_Some _ _ _ Hown) as Hin.
    pose proof (proj1 (Forall_forall _ _) Hwf _ Hin) as Hx. cbn in Hx. rewrite Hx.
    rewrite bool_decide_eq_true_2; [reflexivity|].
    apply list_elem_of_fmap. exists (b, x). split; [reflexivity|exact Hin].
  - rewrite (bool_decide_eq_false_2 _ (own_None _ _ Hown)). cbn [orb].
    destruct (bool_decide (b ∈ Js.object_prototype_keys)); reflexivity.
Qed.

Lemma fmap_JString_inj (l1 l2 : list string) :
  JString <$> l1 = JString <$> l2 -> l1 = l2.
Proof.
  revert l2. induction l1 as [|x r IH]; intros [|y r2]; cbn; try discriminate.
  - reflexivity.
  - intros [= -> H]. f_equal. apply IH. exact H.
Qed.

Lemma buildDatasets_no_series series b :
  series_form series = NoSeries -> buildDatasetsFromSeries series b = Value [].
Proof.
  destruct series; try discriminate; intros _; unfold buildDatasetsFromSeries;
    destruct (negb (Js.truthy _)); reflexivity.
Qed.

(** Two well-formed series inputs of one form with the same names in the
    same order give the same labels in the same order. *)
Lemma buildDatasets_same_labels vis rank b :
  series_wf vis -> series_wf rank ->
  series_form vis = series_form rank ->
  series_names vis = series_names rank ->
  exists lbls,
    dataset_labels (buildDatasetsFromSeries vis b) = Value lbls
    /\ dataset_labels (buildDatasetsFromSeries rank b) = Value lbls.
Proof.
  intros Hv Hr Hform Hnames.
  destruct (series_form vis) eqn:Hfv.
  - exists []. rewrite !buildDatasets_no_series by congruence. split; reflexivity.
  - destruct vis as [| | | | |ev| |]; try discriminate.
    destruct rank as [| | | | |er| |]; try discriminate.
    cbn in Hv, Hr, Hnames. eexists.
    rewrite !buildDatasets_array_labels by assumption. rewrite Hnames.
    split; reflexivity.
  - destruct vis as [| | | | | |pv|]; try discriminate.
    destruct rank as [| | | | | |pr|]; try discriminate.
    cbn in Hv, Hr, Hnames.
    assert (Js.keys pv = Js.keys pr) as Hkeys.
    { apply fmap_JString_inj. exact Hnames. }
    eexists. rewrite !buildDatasets_object_labels.
    rewrite !truthy_prop_mapping by assumption. rewrite Hkeys.
    split; reflexivity.
Qed.

Lemma world_of_bind_modify {B} f (k : unit -> M B) w :
  Stmt.world_of (Stmt.bind (Stmt.modify f) k w) = Stmt.world_of (k tt (f w)).
Proof. reflexivity. Qed.

Lemma world_of_bind_eval {A B} (a : A) (k : A -> M B) w :
  Stmt.world_of (Stmt.bind (Stmt.eval (Value a)) k w) = Stmt.world_of (k a w).
Proof. reflexivity. Qed.

Lemma dataset_labels_Value built lbls :
  dataset_labels built = Value lbls ->
  exists ds, built = Value ds /\ label <$> ds = lbls.
Proof.
  destruct built as [ds|]; cbn; [|discriminate].
  intros [= <-]. exists ds. split; reflexivity.
Qed.

(** C4, as the code has it. The same names in the same order do not by
    themselves give the same order of datasets: the two inputs must also be
    of one form and well formed. Two series inputs, for visibility and for
    rank, that are both arrays of series objects, or both mappings whose
    values are all truthy (as arrays of values are), and that present the
    same names in the same order, give, with the same focal brand name,
    datasets whose labels are the same sequence; and when a response holds
    these two inputs, [updateChartsFromAnalysis] leaves datasets with the
    same sequence of labels under the two metrics of the trend state. *)
Theorem series_order_stable (visibilitySeries avgRankSeries : JsVal) (brandName : string) :
  series_wf visibilitySeries -> series_wf avgRankSeries ->
  series_form visibilitySeries = series_form avgRankSeries ->
  series_names visibilitySeries = series_names avgRankSeries ->
  exists lbls,
    dataset_labels (buildDatasetsFromSeries visibilitySeries brandName) = Value lbls
    /\ dataset_labels (buildDatasetsFromSeries avgRankSeries brandName) = Value lbls
    /\ forall data topicsText w,
         let metrics := Js.or (Js.get_opt "metrics" data) (JObject []) in
         let trend := Js.or (Js.prop "trend" metrics) (JObject []) in
         Js.or (Js.prop "visibility" trend) (JArray []) = visibilitySeries ->
         Js.or (Js.prop "avg_rank" trend) (JArray []) = avgRankSeries ->
         let w' := Stmt.world_of (updateChartsFromAnalysis data brandName topicsText w) in
         label <$> visibilityDatasets (trendState w') = lbls
         /\ label <$> rankDatasets (trendState w') = lbls.
Proof.
  intros Hv Hr Hform Hnames.
  destruct (buildDatasets_same_labels _ _ brandName Hv Hr Hform Hnames)
    as [lbls [Hvis Hrank]].
  exists lbls. split; [exact Hvis|]. split; [exact Hrank|].
  intros data topicsText w metrics trend Hdv Hdr.
  apply dataset_labels_Value in Hvis as [dv [Hbv Hlv]].
  apply dataset_labels_Value in Hrank as [dr [Hbr Hlr]].
  assert (datasets
            (Stmt.world_of (updateChartsFromAnalysis data brandName topicsText w))
          = (dv, dr)) as Hd.
  { unfold updateChartsFromAnalysis. fold metrics. fold trend. rewrite Hdv, Hdr.
    cbn zeta. rewrite world_of_bind_modify, Hbv, world_of_bind_eval.
    rewrite world_of_bind_modify, Hbr, world_of_bind_eval, world_of_bind_modify.
    match goal with
    | |- datasets (Stmt.world_of (?m ?w0)) = _ =>
        assert (keeps datasets m) as Hkeeps by keeps_tac Blind_datasets;
        rewrite (Hkeeps w0)
    end.
    rewrite ?(view_createOrUpdateTrendChart datasets Blind_datasets). reflexivity. }
  cbn zeta. unfold datasets in Hd. injection Hd as H1 H2.
  rewrite H1, H2. split; assumption.
Qed.

(** ** The wizard: the lookup request *)

Lemma showError_string_completes s w :
  exists w', showError (JString s) w = Completed tt w'.
Proof.
  unfold showError, Stmt.bind, Stmt.read, Stmt.modify, Stmt.ret.
  destruct (elem "brandModalError" w); [|eexists; reflexivity].
  destruct (negb (Js.truthy (JString s))); [eexists; reflexivity|].
  cbv beta. eexists. unfold assign_textContent.
  rewrite (assign_converts _ _ _ _ s) by reflexivity. reflexivity.
Qed.

(** The error box after [showError] with a non-empty message. *)
Lemma showError_message s w :
  s <> "" ->
  showError (JString s) w
  = Completed tt
      (update "brandModalError" (El.set_display "block")
         (update "brandModalError" (El.set_textContent s) w)).
Proof.
  intros Hs. unfold showError, Stmt.bind, Stmt.read, Stmt.modify, Stmt.ret.
  cbn [Js.truthy]. rewrite (is_empty_false _ Hs). cbn [negb]. cbv beta iota.
  destruct (elem "brandModalError" w) eqn:He.
  - unfold assign_textContent.
    rewrite (assign_converts _ _ _ _ s) by (cbn; rewrite (is_empty_false _ Hs) || reflexivity).
    reflexivity.
  - rewrite !update_absent; [reflexivity|exact He|].
    rewrite update_absent by exact He. exact He.
Qed.

(** [goToStep2] past its reads, on a page that has the Next button. *)
Lemma goToStep2_unfold (useRegenerate : bool) (w : World) :
  is_Some (elem "brandStepNext" w) ->
  let name :=
    JsString.trim (field (if useRegenerate then "brandNameStep2" else "brandNameStep1") w) in
  let desc := field (if useRegenerate then "brandDescStep2" else "brandDescStep1") w in
  goToStep2 useRegenerate w
  = if JsString.is_empty name then showError (JString "Please enter a brand name.") w
    else
      (Stmt.modify
         (update "brandStepNext"
            (fun e =>
               El.set_textContent
                 (if useRegenerate then "Re-generating..." else "Generating...")
                 (El.set_disabled true e))) ;;
       showError (JString "") ;;
       Stmt.modify (fetch (LookupRequest name desc) (PendingLookup name desc)))%stmt w.
Proof.
  intros [btn Hbtn] name desc. unfold goToStep2.
  unfold Stmt.bind at 1. unfold Stmt.read at 1. rewrite Hbtn.
  unfold Stmt.bind at 1. unfold Stmt.read at 1.
  unfold Stmt.bind at 1. unfold Stmt.read at 1.
  fold name. fold desc. destruct (JsString.is_empty name); reflexivity.
Qed.

Lemma goToStep2_sends (useRegenerate : bool) (w : World) :
  is_Some (elem "brandStepNext" w) ->
  let name :=
    JsString.trim (field (if useRegenerate then "brandNameStep2" else "brandNameStep1") w) in
  let desc := field (if useRegenerate then "brandDescStep2" else "brandDescStep1") w in
  name <> "" ->
  exists w2,
    goToStep2 useRegenerate w
    = Completed tt (fetch (LookupRequest name desc) (PendingLookup name desc) w2)
    /\ network w2 = network w.
Proof.
  intros Hbtn name desc Hname.
  rewrite (goToStep2_unfold _ _ Hbtn). fold name. fold desc.
  rewrite (is_empty_false _ Hname).
  unfold Stmt.bind at 1. unfold Stmt.modify at 1. unfold Stmt.bind at 1.
  match goal with
  | |- context [showError (JString "") ?w0] =>
      destruct (showError_string_completes "" w0) as [w2 Hw2];
      pose proof (keeps_showError network (JString "") Blind_network w0) as Hnet;
      rewrite Hw2 in *
  end.
  exists w2. split; [reflexivity|exact Hnet].
Qed.

(** C2. [goToStep2] sends a lookup request exactly when the brand name it
    reads from the step in use is not empty once trimmed. With a name that
    is not empty it calls [fetch] once, with the trimmed name for
    [brand_name] (and the description as it stands); with an empty name or
    one of white space only it calls [fetch] not at all and shows the message
    that asks for a brand name. When the request settles, no further request
    is made. The page is one that has the Next button. *)
Theorem goToStep2_requests_iff_name (useRegenerate : bool) (w : World) :
  is_Some (elem "brandStepNext" w) ->
  let name :=
    JsString.trim (field (if useRegenerate then "brandNameStep2" else "brandNameStep1") w) in
  let desc := field (if useRegenerate then "brandDescStep2" else "brandDescStep1") w in
  let w' := Stmt.run (goToStep2 useRegenerate) w in
  (name <> "" ->
   requests w' = requests w ++ [LookupRequest name desc]
   /\ pending w' = pending w ++ [PendingLookup name desc])
  /\ (name = "" ->
      requests w' = requests w /\ pending w' = pending w
      /\ (fun e => (display e, textContent e)) <$> elem "brandModalError" w'
         = (fun _ => ("block", "Please enter a brand name."))
             <$> elem "brandModalError" w)
  /\ (forall settled w1,
        requests (Stmt.run (goToStep2_resume name desc settled) w1) = requests w1).
Proof.
  intros Hbtn name desc w'.
  split; [|split].
  - intros Hname. subst w'. unfold Stmt.run.
    destruct (goToStep2_sends useRegenerate w Hbtn Hname) as [w2 [-> Hnet]].
    unfold network in Hnet. injection Hnet as Hreq Hpend.
    cbn. rewrite Hreq, Hpend. split; reflexivity.
  - intros Hname. subst w'. unfold Stmt.run.
    rewrite (goToStep2_unfold _ _ Hbtn). fold name. rewrite Hname.
    cbn [JsString.is_empty].
    rewrite showError_message by discriminate. cbn [Stmt.world_of].
    split; [reflexivity|]. split; [reflexivity|].
    elem_simpl. destruct (elem "brandModalError" w); reflexivity.
  - intros settled w1.
    pose proof (keeps_goToStep2_resume network name desc settled Blind_network w1) as Hnet.
    unfold network in Hnet. injection Hnet as Hreq _. exact Hreq.
Qed.

(** ** The wizard: the fields of step 2 *)

Lemma value_of_field_or v fallback :
  optional_string v = true ->
  value_of (Js.or v (JString fallback)) = Value (field_or v fallback).
Proof.
  destruct v as [| | | |s| | |]; try discriminate; intros _; try reflexivity.
  unfold Js.or, field_or. cbn [Js.truthy]. destruct (JsString.is_empty s); reflexivity.
Qed.

Lemma populate_converts id key data fallback w :
  Js.nullish data = false ->
  optional_string (Js.prop key data) = true ->
  populate id key data fallback w
  = Completed tt (update id (El.set_value (field_or (Js.prop key data) fallback)) w).
Proof.
  intros Hdata Hopt. unfold populate, Stmt.bind, Stmt.read, Stmt.eval, Stmt.ret, Js.get.
  rewrite Hdata. destruct (elem id w) eqn:He.
  - cbv beta iota. unfold assign_value.
    rewrite (assign_converts _ _ _ _ _ _ (value_of_field_or _ fallback Hopt)).
    reflexivity.
  - rewrite update_absent by exact He. reflexivity.
Qed.

(** The world that [goToStep2] leaves when a lookup succeeded with fields
    that are strings or missing. *)
Lemma goToStep2_resume_success brandName brandDesc status data w :
  lookup_succeeded status data ->
  optional_string (Js.prop "brand_name" data) = true ->
  optional_string (Js.prop "brand_description" data) = true ->
  optional_string (Js.prop "brand_url" data) = true ->
  optional_string (Js.prop "region" data) = true ->
  optional_string (Js.prop "language" data) = true ->
  optional_string (Js.prop "initial_topics" data) = true ->
  goToStep2_resume brandName brandDesc (Responded status (Some data)) w
  = Completed tt
      (update "brandStepNext" (fun e => El.set_textContent "Next" (El.set_disabled false e))
      (update "brandModalTitle" (El.set_textContent "Configure Brand")
      (update "brandStep2" (El.add_class "is-active")
      (update "brandStep1" (El.remove_class "is-active")
      (update "brandTopicsStep2"
         (El.set_value (field_or (Js.prop "initial_topics" data) ""))
      (update "brandLangStep2" (El.set_value (field_or (Js.prop "language" data) ""))
      (update "brandRegionStep2" (El.set_value (field_or (Js.prop "region" data) ""))
      (update "brandUrlStep2" (El.set_value (field_or (Js.prop "brand_url" data) ""))
      (update "brandDescStep2"
         (El.set_value (field_or (Js.prop "brand_description" data) brandDesc))
      (update "brandNameStep2"
         (El.set_value (field_or (Js.prop "brand_name" data) brandName))
         w)))))))))).
Proof.
  intros (Hok & Hdata & Herror) H1 H2 H3 H4 H5 H6.
  unfold goToStep2_resume, Stmt.try_finally, Stmt.try_catch.
  rewrite Hok. cbn [negb].
  unfold Stmt.bind at 1. unfold Stmt.bind at 1. unfold Js.get at 1. rewrite Hdata.
  cbn [Stmt.eval Stmt.ret]. rewrite Herror.
  unfold Stmt.bind, Stmt.modify.
  repeat first
    [ rewrite populate_converts by assumption
    | progress cbv beta iota ].
  reflexivity.
Qed.

Lemma field_or_missing v fallback :
  v = JUndefined \/ v = JNull \/ v = JString "" -> field_or v fallback = fallback.
Proof. intros [-> | [-> | ->]]; reflexivity. Qed.

Lemma field_or_present s fallback : s <> "" -> field_or (JString s) fallback = s.
Proof. intros Hs. cbn. rewrite (is_empty_false _ Hs). reflexivity. Qed.

(** C5. When a lookup succeeded and fields of the response are missing
    (absent, null or empty), [goToStep2] fills the name and the description
    of step 2 with the values it submitted, which it read from step 1 (from
    step 2 when regenerating), the name trimmed, and the url, the region, the
    language and the topics with the empty string; a field that is present
    is copied from the response. The fields of the response are strings
    where they are present. *)
Theorem lookup_fields_fall_back
    (useRegenerate : bool) (w0 w : World) (status : nat) (data : JsVal) :
  let name :=
    JsString.trim (field (if useRegenerate then "brandNameStep2" else "brandNameStep1") w0) in
  let desc := field (if useRegenerate then "brandDescStep2" else "brandDescStep1") w0 in
  is_Some (elem "brandStepNext" w0) ->
  name <> "" ->
  lookup_succeeded status data ->
  optional_string (Js.prop "brand_name" data) = true ->
  optional_string (Js.prop "brand_description" data) = true ->
  optional_string (Js.prop "brand_url" data) = true ->
  optional_string (Js.prop "region" data) = true ->
  optional_string (Js.prop "language" data) = true ->
  optional_string (Js.prop "initial_topics" data) = true ->
  LookupRequest name desc ∈ requests (Stmt.run (goToStep2 useRegenerate) w0)
  /\ PendingLookup name desc ∈ pending (Stmt.run (goToStep2 useRegenerate) w0)
  /\ (let w' :=
        Stmt.run (resume (PendingLookup name desc) (Responded status (Some data))) w in
      value <$> elem "brandNameStep2" w'
      = (fun _ => field_or (Js.prop "brand_name" data) name) <$> elem "brandNameStep2" w
      /\ value <$> elem "brandDescStep2" w'
         = (fun _ => field_or (Js.prop "brand_description" data) desc)
             <$> elem "brandDescStep2" w
      /\ value <$> elem "brandUrlStep2" w'
         = (fun _ => field_or (Js.prop "brand_url" data) "") <$> elem "brandUrlStep2" w
      /\ value <$> elem "brandRegionStep2" w'
         = (fun _ => field_or (Js.prop "region" data) "") <$> elem "brandRegionStep2" w
      /\ value <$> elem "brandLangStep2" w'
         = (fun _ => field_or (Js.prop "language" data) "") <$> elem "brandLangStep2" w
      /\ value <$> elem "brandTopicsStep2" w'
         = (fun _ => field_or (Js.prop "initial_topics" data) "")
             <$> elem "brandTopicsStep2" w)
  /\ (forall v fallback,
        v = JUndefined \/ v = JNull \/ v = JString "" -> field_or v fallback = fallback)
  /\ (forall s fallback, s <> "" -> field_or (JString s) fallback = s).
Proof.
  intros name desc Hbtn Hname Hsucc H1 H2 H3 H4 H5 H6.
  destruct (goToStep2_sends useRegenerate w0 Hbtn Hname) as [w2 [Hrun _]].
  fold name in Hrun. fold desc in Hrun.
  unfold Stmt.run. rewrite Hrun. cbn [Stmt.world_of fetch W.set_network requests pending].
  split; [apply elem_of_app; right; left|].
  split; [apply elem_of_app; right; left|].
  split; [|split; [exact field_or_missing|exact field_or_present]].
  cbn [resume]. rewrite goToStep2_resume_success by assumption.
  cbn [Stmt.world_of].
  repeat split; elem_simpl;
    match goal with |- context [elem ?id w] => destruct (elem id w); reflexivity end.
Qed.

(** ** The Create button *)

Lemma updateAnalysisProgress_numbers percent a b w :
  updateAnalysisProgress percent (JNumber a) (JNumber b) w
  = Completed tt
      (update "analysisPromptsLabel"
         (El.set_textContent
            ("Prompts " +:+ number_toString a +:+ " / " +:+ number_toString b))
      (update "analysisPercentLabel"
         (El.set_textContent (number_toString (Num.round (safePercent percent)) +:+ "%"))
      (update "analysisProgressFill"
         (El.set_width (number_toString (safePercent percent) +:+ "%")) w))).
Proof.
  unfold updateAnalysisProgress, Stmt.bind, Stmt.modify, Stmt.read, Stmt.eval, Stmt.ret.
  cbv beta zeta.
  match goal with |- context [elem "analysisPromptsLabel" ?w0] =>
    destruct (elem "analysisPromptsLabel" w0) eqn:He
  end; [reflexivity|].
  rewrite (update_absent "analysisPromptsLabel") by exact He. reflexivity.
Qed.

(** [runBrandAnalysisFromStep2] past its reads, on a page that has the name
    field of step 2. *)
Lemma runBrandAnalysisFromStep2_unfold (w : World) :
  is_Some (elem "brandNameStep2" w) ->
  let brandName := JsString.trim (field "brandNameStep2" w) in
  let brandDesc := JsString.trim (field "brandDescStep2" w) in
  let brandUrl := JsString.trim (field "brandUrlStep2" w) in
  let region := JsString.trim (field "brandRegionStep2" w) in
  let language := JsString.trim (field "brandLangStep2" w) in
  let topicsText := JsString.trim (field "brandTopicsStep2" w) in
  runBrandAnalysisFromStep2 w
  = if JsString.is_empty brandName then Completed tt w
    else
      Completed tt
        (fetch (AnalyzeRequest brandName brandDesc brandUrl region language topicsText)
           (PendingAnalysis brandName topicsText)
           (startProgressAnimation
              (update "analysisPromptsLabel"
                 (El.set_textContent
                    ("Prompts " +:+ number_toString (Num.of_Z 0) +:+ " / "
                     +:+ number_toString (Num.of_Z 0)))
              (update "analysisPercentLabel"
                 (El.set_textContent
                    (number_toString (Num.round (safePercent (Num.of_Z 0))) +:+ "%"))
              (update "analysisProgressFill"
                 (El.set_width (number_toString (safePercent (Num.of_Z 0)) +:+ "%"))
                 (showAnalysisBar w)))))).
Proof.
  intros [input Hinput] brandName brandDesc brandUrl region language topicsText.
  unfold runBrandAnalysisFromStep2.
  unfold Stmt.bind at 1. unfold Stmt.read at 1. rewrite Hinput.
  do 6 (unfold Stmt.bind at 1; unfold Stmt.read at 1).
  fold brandName. destruct (JsString.is_empty brandName); [reflexivity|].
  unfold Stmt.bind at 1. unfold Stmt.modify at 1.
  unfold Stmt.bind at 1. rewrite updateAnalysisProgress_numbers.
  reflexivity.
Qed.

Lemma field_closeModal id w :
  id <> "brandModalBackdrop" -> field id (closeModal w) = field id w.
Proof.
  intros Hid. unfold field, closeModal. rewrite elem_update_ne by congruence. reflexivity.
Qed.

Lemma startProgressAnimation_handle w :
  progressInterval (startProgressAnimation w) = Some (nextTimerId w)
  /\ nextTimerId w ∈ intervals (startProgressAnimation w)
  /\ visualProgress (startProgressAnimation w) = 0
  /\ requests (startProgressAnimation w) = requests w
  /\ pending (startProgressAnimation w) = pending w.
Proof.
  unfold startProgressAnimation, stopProgressAnimation.
  destruct (progressInterval w) as [id|]; [destruct (bool_decide (id = 0))|];
    cbn; repeat split; apply elem_of_app; right; left.
Qed.

Lemma elem_fetch id r k w : elem id (fetch r k w) = elem id w.
Proof. reflexivity. Qed.

Lemma elem_stopProgressAnimation id w : elem id (stopProgressAnimation w) = elem id w.
Proof.
  unfold stopProgressAnimation.
  destruct (progressInterval w) as [t|]; [destruct (bool_decide (t = 0))|]; reflexivity.
Qed.

Lemma elem_startProgressAnimation id w : elem id (startProgressAnimation w) = elem id w.
Proof.
  unfold startProgressAnimation, elem.
  cbn [dom W.set_progressInterval W.set_timers W.set_visualProgress].
  exact (elem_stopProgressAnimation id w).
Qed.

(** C3, as the code has it. The Create button closes the modal whatever the
    name is. With a name of step 2 that is empty or white space only it does
    nothing more: no progress simulator, no request. With a name that is not
    empty it starts the progress simulator and calls [fetch] once, for the
    analysis, with the six fields of step 2, each trimmed. The page is one
    that has the name field of step 2. *)
Theorem createBtn_click_effects (w : World) :
  is_Some (elem "brandNameStep2" w) ->
  let brandName := JsString.trim (field "brandNameStep2" w) in
  let w' := Stmt.run createBtn_click w in
  elem "brandModalBackdrop" w'
  = El.remove_class "is-visible" <$> elem "brandModalBackdrop" w
  /\ (brandName = "" -> w' = closeModal w)
  /\ (brandName <> "" ->
      requests w'
      = requests w
          ++ [AnalyzeRequest brandName
                (JsString.trim (field "brandDescStep2" w))
                (JsString.trim (field "brandUrlStep2" w))
                (JsString.trim (field "brandRegionStep2" w))
                (JsString.trim (field "brandLangStep2" w))
                (JsString.trim (field "brandTopicsStep2" w))]
      /\ progressInterval w' = Some (nextTimerId w)
      /\ nextTimerId w ∈ intervals w'
      /\ visualProgress w' = 0).
Proof.
  intros Hinput brandName w'.
  assert (is_Some (elem "brandNameStep2" (closeModal w))) as Hinput'
    by (unfold closeModal; rewrite elem_update_ne by discriminate; exact Hinput).
  assert (w' = Stmt.world_of (runBrandAnalysisFromStep2 (closeModal w))) as Hw'
    by reflexivity.
  rewrite (runBrandAnalysisFromStep2_unfold _ Hinput') in Hw'.
  rewrite !field_closeModal in Hw' by discriminate. fold brandName in Hw'.
  destruct (JsString.is_empty brandName) eqn:Hempty; cbn [Stmt.world_of] in Hw'.
  - apply is_empty_true in Hempty. rewrite Hw'.
    split; [apply elem_update|]. split; [reflexivity|]. congruence.
  - rewrite Hw'. split; [|split].
    + rewrite elem_fetch, elem_startProgressAnimation. unfold showAnalysisBar.
      elem_simpl. unfold closeModal. apply elem_update.
    + intros Hnil. rewrite Hnil in Hempty. discriminate.
    + intros _.
      match goal with |- context [startProgressAnimation ?x] =>
        remember x as w0 eqn:Hw0
      end.
      assert (timers w0 = timers w) as Htimers
        by (subst w0; unfold showAnalysisBar, closeModal;
            rewrite !(view_update _ Blind_timers); reflexivity).
      assert (network w0 = network w) as Hnet
        by (subst w0; unfold showAnalysisBar, closeModal;
            rewrite !(view_update _ Blind_network); reflexivity).
      clear Hw0 Hw'.
      destruct (startProgressAnimation_handle w0) as (Hh & Hin & Hv & Hreq & _).
      unfold timers in Htimers. injection Htimers as _ _ Hnext.
      unfold network in Hnet. injection Hnet as Hrequests _.
      rewrite Hnext in Hh, Hin. rewrite Hrequests in Hreq.
      unfold fetch.
      cbn [W.set_network requests progressInterval intervals visualProgress].
      rewrite Hreq. repeat split; assumption.
Qed.

(** ** The progress timer *)

Lemma stable_bind {A B} P (m : M A) (k : A -> M B) :
  stable P m -> (forall a, stable P (k a)) -> stable P (Stmt.bind m k).
Proof.
  intros Hm Hk w Hw. unfold Stmt.bind. specialize (Hm w Hw).
  destruct (m w) as [a w'|w']; cbn in *; [|exact Hm].
  apply Hk. exact Hm.
Qed.

Lemma stable_try_catch {A} P (body handler : M A) :
  stable P body -> stable P handler -> stable P (Stmt.try_catch body handler).
Proof.
  intros Hb Hh w Hw. unfold Stmt.try_catch. specialize (Hb w Hw).
  destruct (body w) as [a w'|w']; cbn in *; [exact Hb|].
  apply Hh. exact Hb.
Qed.

Lemma stable_modify P (f : World -> World) :
  (forall w, P w -> P (f w)) -> stable P (Stmt.modify f).
Proof. intros H w Hw. apply H. exact Hw. Qed.

Lemma stable_throw {A} P : stable P (@Stmt.throw A).
Proof. intros w Hw. exact Hw. Qed.

Lemma one_timer_view w w' : timers w' = timers w -> one_timer w -> one_timer w'.
Proof.
  unfold timers, one_timer. intros [= Hh Hi Hn]. rewrite Hh, Hi, Hn. tauto.
Qed.

Lemma stable_keeps {A} (m : M A) : keeps timers m -> stable one_timer m.
Proof. intros Hk w Hw. apply (one_timer_view w); [apply Hk|exact Hw]. Qed.

Lemma one_timer_initial document chartLibrary : one_timer (initial document chartLibrary).
Proof. split; [cbn; lia|reflexivity]. Qed.

Lemma one_timer_stop w :
  one_timer w ->
  progressInterval (stopProgressAnimation w) = None
  /\ intervals (stopProgressAnimation w) = []
  /\ nextTimerId (stopProgressAnimation w) = nextTimerId w
  /\ visualProgress (stopProgressAnimation w) = visualProgress w.
Proof.
  intros [Hnext Hw]. unfold stopProgressAnimation.
  destruct (progressInterval w) as [id|] eqn:Hid.
  - destruct Hw as [[Hpos Hlt] Hint].
    rewrite bool_decide_eq_false_2 by lia. cbn. rewrite Hint.
    rewrite filter_cons_False by (intros H; apply H; reflexivity).
    repeat split; reflexivity.
  - rewrite Hid. auto.
Qed.

Lemma one_timer_stopped w : one_timer w -> one_timer (stopProgressAnimation w).
Proof.
  intros Hw. destruct (one_timer_stop w Hw) as (Hh & Hi & Hn & _).
  destruct Hw as [Hnext _]. split; [lia|]. rewrite Hh. exact Hi.
Qed.

Lemma one_timer_start w :
  one_timer w ->
  progressInterval (startProgressAnimation w) = Some (nextTimerId w)
  /\ intervals (startProgressAnimation w) = [nextTimerId w]
  /\ nextTimerId (startProgressAnimation w) = S (nextTimerId w)
  /\ visualProgress (startProgressAnimation w) = 0.
Proof.
  intros Hw. destruct (one_timer_stop w Hw) as (Hh & Hi & Hn & _).
  unfold startProgressAnimation. cbn. rewrite Hi, Hn. auto.
Qed.

Lemma one_timer_started w : one_timer w -> one_timer (startProgressAnimation w).
Proof.
  intros Hw. destruct (one_timer_start w Hw) as (Hh & Hi & Hn & _).
  destruct Hw as [Hnext _]. split; [lia|]. rewrite Hh, Hi, Hn.
  split; [lia|reflexivity].
Qed.

Lemma keeps_updateChartsFromAnalysis_timers data brandName topicsText :
  keeps timers (updateChartsFromAnalysis data brandName topicsText).
Proof. unfold updateChartsFromAnalysis. cbn zeta. keeps_tac Blind_timers. Qed.

Lemma keeps_goToStep2_timers useRegenerate : keeps timers (goToStep2 useRegenerate).
Proof.
  unfold goToStep2.
  apply keeps_bind; [apply keeps_read|intros nextBtn].
  destruct nextBtn; [|apply keeps_ret].
  apply keeps_bind; [apply keeps_read|intros rawName].
  apply keeps_bind; [apply keeps_read|intros rawDesc]. cbn zeta.
  destruct (JsString.is_empty _); [apply keeps_showError, Blind_timers|].
  apply keeps_bind; [keeps_tac Blind_timers|intros _].
  apply keeps_bind; [apply keeps_showError, Blind_timers|intros _].
  keeps_tac Blind_timers.
Qed.

Lemma stable_runBrandAnalysisFromStep2 : stable one_timer runBrandAnalysisFromStep2.
Proof.
  unfold runBrandAnalysisFromStep2.
  apply stable_bind; [apply stable_keeps, keeps_read|intros input].
  destruct input; [|apply stable_keeps, keeps_ret].
  do 6 (apply stable_bind; [apply stable_keeps, keeps_read|intros ?]).
  destruct (JsString.is_empty _); [apply stable_keeps, keeps_ret|].
  apply stable_bind; [apply stable_keeps; keeps_tac Blind_timers|intros _].
  apply stable_bind;
    [apply stable_keeps, keeps_updateAnalysisProgress, Blind_timers|intros _].
  apply stable_bind; [apply stable_modify, one_timer_started|intros _].
  apply stable_keeps. keeps_tac Blind_timers.
Qed.

Lemma stable_runBrandAnalysisFromStep2_resume brandName topicsText settled :
  stable one_timer (runBrandAnalysisFromStep2_resume brandName topicsText settled).
Proof.
  unfold runBrandAnalysisFromStep2_resume.
  apply stable_try_catch; [|apply stable_modify, one_timer_stopped].
  destruct settled as [|status [data|]];
    [apply stable_throw| |apply stable_modify, one_timer_stopped].
  cbn zeta.
  apply stable_bind; [apply stable_modify, one_timer_stopped|intros _].
  apply stable_bind;
    [apply stable_keeps, keeps_updateAnalysisProgress, Blind_timers|intros _].
  apply stable_bind;
    [apply stable_keeps, keeps_updateMetricCardsFromAnalysis, Blind_timers|intros _].
  apply stable_keeps, keeps_updateChartsFromAnalysis_timers.
Qed.

Lemma stable_listener id : stable one_timer (listener id).
Proof.
  unfold listener.
  repeat match goal with
         | |- stable _ (if ?b then _ else _) => destruct b
         end;
    try (apply stable_keeps; apply keeps_goToStep2_timers);
    try (apply stable_keeps; apply keeps_ret);
    try (apply stable_keeps; apply keeps_modify; intros w;
         first [ apply (view_createOrUpdateTrendChart _ Blind_timers)
               | unfold openModal, resetModal, closeModal;
                 rewrite !(view_update _ Blind_timers); reflexivity ]).
  unfold createBtn_click.
  apply stable_bind; [|intros _; apply stable_runBrandAnalysisFromStep2].
  apply stable_keeps. keeps_tac Blind_timers.
Qed.

Lemma keeps_progressTick_timers : keeps timers progressTick.
Proof.
  unfold progressTick.
  apply keeps_bind; [apply keeps_read|intros v].
  destruct (bool_decide (v < 90)); [|apply keeps_ret].
  apply keeps_bind; [keeps_tac Blind_timers|intros _].
  apply keeps_updateAnalysisProgress, Blind_timers.
Qed.

(** The invariant of the event loop. *)
Lemma one_timer_step ev w : one_timer w -> one_timer (step ev w).
Proof.
  intros Hw. destruct ev as [id|id text|id|k settled]; cbn [step].
  - destruct (elem id w) as [e|]; [|exact Hw].
    destruct (disabled e); [exact Hw|]. apply stable_listener. exact Hw.
  - apply (one_timer_view w); [apply (view_update _ Blind_timers)|exact Hw].
  - destruct (bool_decide (id ∈ intervals w)); [|exact Hw].
    apply (stable_keeps _ keeps_progressTick_timers). exact Hw.
  - destruct (pending w !! k) as [p|]; [|exact Hw].
    assert (one_timer (W.set_network (requests w) (delete k (pending w)) w)) as Hw'
      by exact Hw.
    destruct p as [brandName brandDesc|brandName topicsText]; cbn [resume].
    + apply (stable_keeps _ (keeps_goToStep2_resume _ _ _ _ Blind_timers)). exact Hw'.
    + apply stable_runBrandAnalysisFromStep2_resume. exact Hw'.
Qed.

Lemma Reachable_one_timer w : Reachable w -> one_timer w.
Proof.
  induction 1 as [document chartLibrary|ev w _ IH].
  - apply one_timer_initial.
  - apply one_timer_step. exact IH.
Qed.

Lemma visualProgress_progressTick w :
  visualProgress (Stmt.run progressTick w) <= visualProgress w + 1.
Proof.
  unfold Stmt.run, progressTick. unfold Stmt.bind at 1. unfold Stmt.read at 1.
  destruct (bool_decide (visualProgress w < 90)); [|cbn; lia].
  rewrite world_of_bind_modify.
  rewrite (keeps_updateAnalysisProgress visualProgress _ _ _ Blind_visualProgress).
  cbn. lia.
Qed.

Lemma visualProgress_tickAll w :
  one_timer w -> visualProgress (tickAll w) <= visualProgress w + 1.
Proof.
  intros [_ Hw]. unfold tickAll.
  destruct (progressInterval w) as [id|].
  - destruct Hw as [_ Hint]. rewrite Hint. cbn [foldl step].
    rewrite bool_decide_eq_true_2 by (rewrite Hint; left).
    apply visualProgress_progressTick.
  - rewrite Hw. cbn. lia.
Qed.

(** C6. At most one progress timer is active at any time. In every world
    the event loop reaches, the active intervals are the one the script holds
    the handle of, or none. [startProgressAnimation] cancels that one before
    it creates the next, so after it, and after it twice in a row, exactly
    one interval is active, and no interval that was active before is; and
    when every active interval fires once, the progress goes up by one at
    most. *)
Theorem at_most_one_progress_timer (w : World) :
  Reachable w ->
  length (intervals w) <= 1
  /\ intervals w = match progressInterval w with Some id => [id] | None => [] end
  /\ intervals (startProgressAnimation w) = [nextTimerId w]
  /\ progressInterval (startProgressAnimation w) = Some (nextTimerId w)
  /\ (forall id, id ∈ intervals w -> id ∉ intervals (startProgressAnimation w))
  /\ (let w2 := startProgressAnimation (startProgressAnimation w) in
      exists id, intervals w2 = [id] /\ progressInterval w2 = Some id)
  /\ visualProgress (tickAll w) <= visualProgress w + 1
  /\ visualProgress (tickAll (startProgressAnimation (startProgressAnimation w))) <= 1.
Proof.
  intros Hreach. pose proof (Reachable_one_timer w Hreach) as Hw.
  pose proof (one_timer_started w Hw) as Hw1.
  pose proof (one_timer_started _ Hw1) as Hw2.
  destruct (one_timer_start w Hw) as (Hh & Hi & Hn & Hv).
  destruct (one_timer_start _ Hw1) as (Hh2 & Hi2 & Hn2 & Hv2).
  assert (intervals w = match progressInterval w with Some id => [id] | None => [] end)
    as Hactive.
  { destruct Hw as [_ Hw]. destruct (progressInterval w); [apply Hw|exact Hw]. }
  split; [rewrite Hactive; destruct (progressInterval w); cbn; lia|].
  split; [exact Hactive|].
  split; [exact Hi|]. split; [exact Hh|].
  split.
  { intros id Hid. rewrite Hi. intros Hnew. apply list_elem_of_singleton in Hnew.
    destruct Hw as [_ Hw]. destruct (progressInterval w) as [t|].
    - destruct Hw as [[_ Hlt] Hint]. rewrite Hint in Hid.
      apply list_elem_of_singleton in Hid. lia.
    - rewrite Hw in Hid. apply elem_of_nil in Hid. exact Hid. }
  split; [eexists; split; [exact Hi2|exact Hh2]|].
  split; [apply visualProgress_tickAll; exact Hw|].
  pose proof (visualProgress_tickAll _ Hw2) as Hbound. rewrite Hv2 in Hbound. exact Hbound.
Qed.

(** ** Which elements a statement writes *)

Lemma same_but_refl ids w : same_but ids w w.
Proof. intros id. split; [reflexivity|reflexivity]. Qed.

Lemma same_but_trans ids w1 w2 w3 :
  same_but ids w1 w2 -> same_but ids w2 w3 -> same_but ids w1 w3.
Proof.
  intros H12 H23 id. destruct (H12 id) as [Ha Hb], (H23 id) as [Hc Hd]. split.
  - intros Hid. rewrite (Hc Hid). exact (Ha Hid).
  - rewrite Hd. exact Hb.
Qed.

(** A change of the state that is no change of the document. *)
Lemma same_but_dom ids w w' : dom w' = dom w -> same_but ids w w'.
Proof. intros H id. unfold elem. rewrite H. split; reflexivity. Qed.

Lemma same_but_update ids id f w : id ∈ ids -> same_but ids w (update id f w).
Proof.
  intros Hin id'. split; [|apply elem_update_is_Some].
  intros Hout. apply elem_update_ne. intros ->. exact (Hout Hin).
Qed.

Lemma same_but_mono ids ids' w w' :
  (forall id, id ∈ ids -> id ∈ ids') -> same_but ids w w' -> same_but ids' w w'.
Proof.
  intros Hsub H id. destruct (H id) as [Ha Hb]. split; [|exact Hb].
  intros Hout. apply Ha. intros Hin. exact (Hout (Hsub _ Hin)).
Qed.

Section Writes.

Context (ids : list string).

Lemma writes_ret {A} (a : A) : writes ids (Stmt.ret a).
Proof. intros w. apply same_but_refl. Qed.

Lemma writes_throw {A} : writes ids (@Stmt.throw A).
Proof. intros w. apply same_but_refl. Qed.

Lemma writes_eval {A} (e : Exc A) : writes ids (Stmt.eval e).
Proof. intros w. destruct e; apply same_but_refl. Qed.

Lemma writes_read {A} (f : World -> A) : writes ids (Stmt.read f).
Proof. intros w. apply same_but_refl. Qed.

Lemma writes_modify (f : World -> World) :
  (forall w, same_but ids w (f w)) -> writes ids (Stmt.modify f).
Proof. intros H w. apply H. Qed.

Lemma writes_bind {A B} (m : M A) (k : A -> M B) :
  writes ids m -> (forall a, writes ids (k a)) -> writes ids (Stmt.bind m k).
Proof.
  intros Hm Hk w. unfold Stmt.bind. specialize (Hm w).
  destruct (m w) as [a w'|w']; cbn in *; [|exact Hm].
  exact (same_but_trans _ _ _ _ Hm (Hk a w')).
Qed.

Lemma writes_try_catch {A} (body handler : M A) :
  writes ids body -> writes ids handler -> writes ids (Stmt.try_catch body handler).
Proof.
  intros Hb Hh w. unfold Stmt.try_catch. specialize (Hb w).
  destruct (body w) as [a w'|w']; cbn in *; [exact Hb|].
  exact (same_but_trans _ _ _ _ Hb (Hh w')).
Qed.

Lemma writes_try_finally {A} (body : M A) (final : World -> World) :
  writes ids body -> (forall w, same_but ids w (final w)) ->
  writes ids (Stmt.try_finally body final).
Proof.
  intros Hb Hf w. unfold Stmt.try_finally. specialize (Hb w).
  destruct (body w) as [a w'|w']; cbn in *;
    exact (same_but_trans _ _ _ _ Hb (Hf w')).
Qed.

Lemma writes_assign id convert set v :
  id ∈ ids -> writes ids (assign id convert set v).
Proof.
  intros Hin w. unfold assign. destruct (elem id w); [|apply same_but_refl].
  destruct (convert v); [|apply same_but_refl]. cbn.
  apply same_but_update. exact Hin.
Qed.

Lemma same_but_populateTopicDropdown topics w :
  "trendTopicSelect" ∈ ids -> same_but ids w (populateTopicDropdown topics w).
Proof.
  intros Hin. unfold populateTopicDropdown.
  destruct (elem "trendTopicSelect" w); [|apply same_but_refl].
  assert (forall w0 w1,
             same_but ids w0 w1 ->
             same_but ids w0
               (foldl (fun w t => update "trendTopicSelect" (El.append_option t t) w)
                  w1 topics)) as Hfold.
  { induction topics as [|t r IH]; intros w0 w1 H01; [exact H01|].
    cbn [foldl]. apply IH.
    exact (same_but_trans _ _ _ _ H01 (same_but_update _ _ _ _ Hin)). }
  apply Hfold.
  exact (same_but_trans _ _ _ _
           (same_but_update _ _ _ _ Hin) (same_but_update _ _ _ _ Hin)).
Qed.

Lemma same_but_setTrendTabs metric w :
  "trendTabVisibility" ∈ ids -> "trendTabRank" ∈ ids ->
  same_but ids w (setTrendTabs metric w).
Proof.
  intros Hv Hr. unfold setTrendTabs.
  destruct (elem "trendTabVisibility" w), (elem "trendTabRank" w);
    try apply same_but_refl.
  destruct (String.eqb metric "visibility");
    exact (same_but_trans _ _ _ _
             (same_but_update _ _ _ _ Hv) (same_but_update _ _ _ _ Hr)).
Qed.

Lemma same_but_createOrUpdateTrendChart metric w :
  "trendTabVisibility" ∈ ids -> "trendTabRank" ∈ ids ->
  same_but ids w (createOrUpdateTrendChart metric w).
Proof.
  intros Hv Hr. unfold createOrUpdateTrendChart.
  destruct (elem "visibilityTrendChart" w); [|apply same_but_refl].
  destruct (negb (hasChart w)); [apply same_but_refl|].
  eapply same_but_trans; [|apply same_but_setTrendTabs; assumption].
  apply same_but_dom. destruct (visibilityTrendChart w); reflexivity.
Qed.

Lemma writes_createOrUpdateDonutChart donut : writes ids (createOrUpdateDonutChart donut).
Proof.
  intros w. unfold createOrUpdateDonutChart, Stmt.bind, Stmt.read, Stmt.ret.
  destruct (elem "mentionsDonutChart" w); [|apply same_but_refl].
  destruct (negb (hasChart w)); [apply same_but_refl|].
  destruct (pluck "label" _); [|apply same_but_refl]. cbn.
  destruct (pluck "value" _); [|apply same_but_refl]. cbn.
  destruct (mentionsDonutChart w); apply same_but_dom; reflexivity.
Qed.

Lemma same_but_stopProgressAnimation w : same_but ids w (stopProgressAnimation w).
Proof.
  apply same_but_dom. unfold stopProgressAnimation.
  destruct (progressInterval w) as [t|]; [destruct (bool_decide (t = 0))|]; reflexivity.
Qed.

Lemma same_but_startProgressAnimation w : same_but ids w (startProgressAnimation w).
Proof.
  intros id. rewrite elem_startProgressAnimation. split; reflexivity.
Qed.

End Writes.

(** Proves that an id is in a list of ids that is written out. *)
Ltac in_ids := solve [assumption | repeat constructor].

(** Proves a goal [writes ids m] for a statement made of the constructs
    above, where [ids] is written out. *)
Ltac writes_step :=
  lazymatch goal with
  | |- writes _ (Stmt.bind _ _) => apply writes_bind; [|intros ?]
  | |- writes _ (Stmt.ret _) => apply writes_ret
  | |- writes _ Stmt.throw => apply writes_throw
  | |- writes _ (Stmt.eval _) => apply writes_eval
  | |- writes _ (Stmt.read _) => apply writes_read
  | |- writes _ (assign _ _ _ _) => apply writes_assign; in_ids
  | |- writes _ (assign_textContent _ _) => apply writes_assign; in_ids
  | |- writes _ (assign_value _ _) => apply writes_assign; in_ids
  | |- writes _ (createOrUpdateDonutChart _) => apply writes_createOrUpdateDonutChart
  | |- writes _ (Stmt.try_catch _ _) => apply writes_try_catch
  | |- writes _ (Stmt.try_finally _ _) =>
      apply writes_try_finally; [|intros ?; apply same_but_update; in_ids]
  | |- writes _ (Stmt.modify (populateTopicDropdown _)) =>
      apply writes_modify; intros ?; apply same_but_populateTopicDropdown; in_ids
  | |- writes _ (Stmt.modify (createOrUpdateTrendChart _)) =>
      apply writes_modify; intros ?; apply same_but_createOrUpdateTrendChart; in_ids
  | |- writes _ (Stmt.modify stopProgressAnimation) =>
      apply writes_modify; intros ?; apply same_but_stopProgressAnimation
  | |- writes _ (Stmt.modify startProgressAnimation) =>
      apply writes_modify; intros ?; apply same_but_startProgressAnimation
  | |- writes _ (Stmt.modify (update _ _)) =>
      apply writes_modify; intros ?; apply same_but_update; in_ids
  | |- writes _ (Stmt.modify _) =>
      apply writes_modify; intros ?; apply same_but_dom; reflexivity
  | |- writes _ (match ?x with _ => _ end) => destruct x
  end.

Ltac writes_tac := repeat writes_step.

Lemma writes_showError ids msg : "brandModalError" ∈ ids -> writes ids (showError msg).
Proof. intros Hin. unfold showError. writes_tac. Qed.

Lemma writes_updateAnalysisProgress percent used total :
  writes progress_ids (updateAnalysisProgress percent used total).
Proof. unfold updateAnalysisProgress. cbn zeta. writes_tac. Qed.

Lemma writes_updateMetricCardsFromAnalysis data fallback :
  writes card_ids (updateMetricCardsFromAnalysis data fallback).
Proof. unfold updateMetricCardsFromAnalysis. cbn zeta. writes_tac. Qed.

Lemma writes_updateChartsFromAnalysis data brandName topicsText :
  writes chart_ids (updateChartsFromAnalysis data brandName topicsText).
Proof. unfold updateChartsFromAnalysis. cbn zeta. writes_tac. Qed.

Lemma writes_mono {A} ids ids' (m : M A) :
  (forall id, id ∈ ids -> id ∈ ids') -> writes ids m -> writes ids' m.
Proof. intros Hsub Hm w. exact (same_but_mono _ _ _ _ Hsub (Hm w)). Qed.

Lemma writes_populate ids id key data fallback :
  id ∈ ids -> writes ids (populate id key data fallback).
Proof. intros Hin. unfold populate. writes_tac. Qed.

Lemma writes_goToStep2 useRegenerate : writes wizard_ids (goToStep2 useRegenerate).
Proof.
  unfold goToStep2.
  apply writes_bind; [apply writes_read|intros nextBtn].
  destruct nextBtn; [|apply writes_ret].
  apply writes_bind; [apply writes_read|intros rawName].
  apply writes_bind; [apply writes_read|intros rawDesc]. cbn zeta.
  destruct (JsString.is_empty _); [apply writes_showError; in_ids|].
  apply writes_bind; [writes_tac|intros _].
  apply writes_bind; [apply writes_showError; in_ids|intros _].
  writes_tac.
Qed.

Lemma writes_goToStep2_resume brandName brandDesc settled :
  writes wizard_ids (goToStep2_resume brandName brandDesc settled).
Proof.
  unfold goToStep2_resume.
  apply writes_try_finally; [|intros ?; apply same_but_update; in_ids].
  apply writes_try_catch; [|apply writes_showError; in_ids].
  destruct settled as [|status [data|]];
    [apply writes_throw| |apply writes_showError; in_ids].
  apply writes_bind.
  { destruct (negb (ok status)); writes_tac. }
  intros failed. destruct failed.
  - apply writes_bind; [apply writes_eval|intros e; apply writes_showError; in_ids].
  - repeat (apply writes_bind; [apply writes_populate; in_ids|intros _]).
    writes_tac.
Qed.

Lemma writes_runBrandAnalysisFromStep2 : writes dashboard_ids runBrandAnalysisFromStep2.
Proof.
  unfold runBrandAnalysisFromStep2.
  apply writes_bind; [apply writes_read|intros input].
  destruct input; [|apply writes_ret].
  do 6 (apply writes_bind; [apply writes_read|intros ?]).
  destruct (JsString.is_empty _); [apply writes_ret|].
  apply writes_bind.
  { apply writes_modify. intros w. apply same_but_update. in_ids. }
  intros _. apply writes_bind.
  { apply (writes_mono progress_ids); [|apply writes_updateAnalysisProgress].
    intros id Hid. right. apply elem_of_app. left. exact Hid. }
  intros _. writes_tac.
Qed.

Lemma writes_runBrandAnalysisFromStep2_resume brandName topicsText settled :
  writes render_ids (runBrandAnalysisFromStep2_resume brandName topicsText settled).
Proof.
  unfold runBrandAnalysisFromStep2_resume.
  apply writes_try_catch; [|writes_tac].
  destruct settled as [|status [data|]]; [apply writes_throw| |writes_tac].
  cbn zeta.
  apply writes_bind; [writes_tac|intros _].
  apply writes_bind.
  { apply (writes_mono progress_ids); [|apply writes_updateAnalysisProgress].
    intros id Hid. apply elem_of_app. left. exact Hid. }
  intros _. apply writes_bind.
  { apply (writes_mono card_ids); [|apply writes_updateMetricCardsFromAnalysis].
    intros id Hid. apply elem_of_app. right. apply elem_of_app. left. exact Hid. }
  intros _.
  apply (writes_mono chart_ids); [|apply writes_updateChartsFromAnalysis].
  intros id Hid. apply elem_of_app. right. apply elem_of_app. right. exact Hid.
Qed.

(** ** What a statement that writes to elements only leaves unchanged *)

Section DocumentOnly.

Context {T : Type} (view : World -> T).

Hypothesis document_only : forall f w, view (W.set_dom f w) = view w.

Lemma doc_update id f w : view (update id f w) = view w.
Proof using document_only. apply document_only. Qed.

Lemma doc_assign id convert set v : keeps view (assign id convert set v).
Proof using document_only.
  intros w. unfold assign. destruct (elem id w); [|reflexivity].
  destruct (convert v); [|reflexivity]. cbn. apply doc_update.
Qed.

End DocumentOnly.

Ltac doc_step H :=
  lazymatch goal with
  | |- keeps _ (Stmt.bind _ _) => apply keeps_bind; [|intros ?]
  | |- keeps _ (Stmt.ret _) => apply keeps_ret
  | |- keeps _ Stmt.throw => apply keeps_throw
  | |- keeps _ (Stmt.eval _) => apply keeps_eval
  | |- keeps _ (Stmt.read _) => apply keeps_read
  | |- keeps _ (assign _ _ _ _) => apply (doc_assign _ H)
  | |- keeps _ (assign_textContent _ _) => apply (doc_assign _ H)
  | |- keeps _ (assign_value _ _) => apply (doc_assign _ H)
  | |- keeps _ (Stmt.try_catch _ _) => apply keeps_try_catch
  | |- keeps _ (Stmt.try_finally _ _) =>
      apply keeps_try_finally; [|intros ?; apply (doc_update _ H)]
  | |- keeps _ (Stmt.modify (update _ _)) =>
      apply keeps_modify; intros ?; apply (doc_update _ H)
  | |- keeps _ (match ?x with _ => _ end) => destruct x
  end.

Ltac doc_tac H := repeat doc_step H.

Section DocumentOnlyStatements.

Context {T : Type} (view : World -> T).

Hypothesis document_only : forall f w, view (W.set_dom f w) = view w.

Lemma doc_showError msg : keeps view (showError msg).
Proof using document_only. unfold showError. doc_tac document_only. Qed.

Lemma doc_updateAnalysisProgress percent used total :
  keeps view (updateAnalysisProgress percent used total).
Proof using document_only.
  unfold updateAnalysisProgress. cbn zeta. doc_tac document_only.
Qed.

Lemma doc_updateMetricCardsFromAnalysis data fallback :
  keeps view (updateMetricCardsFromAnalysis data fallback).
Proof using document_only.
  unfold updateMetricCardsFromAnalysis. cbn zeta. doc_tac document_only.
Qed.

Lemma doc_populate id key data fallback : keeps view (populate id key data fallback).
Proof using document_only. unfold populate. doc_tac document_only. Qed.

Lemma doc_goToStep2_resume brandName brandDesc settled :
  keeps view (goToStep2_resume brandName brandDesc settled).
Proof using document_only.
  unfold goToStep2_resume.
  apply keeps_try_finally; [|intros ?; apply (doc_update _ document_only)].
  apply keeps_try_catch; [|apply doc_showError].
  destruct settled as [|status [data|]]; [apply keeps_throw| |apply doc_showError].
  apply keeps_bind.
  { destruct (negb (ok status)); doc_tac document_only. }
  intros failed. destruct failed.
  - apply keeps_bind; [apply keeps_eval|intros e; apply doc_showError].
  - repeat (apply keeps_bind; [apply doc_populate|intros _]).
    doc_tac document_only.
Qed.

Lemma doc_setTrendTabs metric w : view (setTrendTabs metric w) = view w.
Proof using document_only.
  unfold setTrendTabs.
  destruct (elem "trendTabVisibility" w), (elem "trendTabRank" w); try reflexivity.
  destruct (String.eqb metric "visibility");
    rewrite !(doc_update _ document_only); reflexivity.
Qed.

Lemma doc_populateTopicDropdown topics w : view (populateTopicDropdown topics w) = view w.
Proof using document_only.
  unfold populateTopicDropdown. destruct (elem "trendTopicSelect" w); [|reflexivity].
  assert (forall w0,
             view (foldl (fun w t => update "trendTopicSelect" (El.append_option t t) w)
                     w0 topics) = view w0) as Hfold.
  { induction topics as [|t r IH]; intros w0; [reflexivity|].
    cbn [foldl]. rewrite IH. apply (doc_update _ document_only). }
  rewrite Hfold, !(doc_update _ document_only). reflexivity.
Qed.

Hypothesis network_blind : forall rs ps w, view (W.set_network rs ps w) = view w.

Lemma doc_goToStep2 useRegenerate : keeps view (goToStep2 useRegenerate).
Proof using document_only network_blind.
  unfold goToStep2.
  apply keeps_bind; [apply keeps_read|intros nextBtn].
  destruct nextBtn; [|apply keeps_ret].
  apply keeps_bind; [apply keeps_read|intros rawName].
  apply keeps_bind; [apply keeps_read|intros rawDesc]. cbn zeta.
  destruct (JsString.is_empty _); [apply doc_showError|].
  apply keeps_bind; [doc_tac document_only|intros _].
  apply keeps_bind; [apply doc_showError|intros _].
  apply keeps_modify. intros w. apply network_blind.
Qed.

End DocumentOnlyStatements.

(** X1. The lookup writes to the wizard and to nothing else: every element that
    is not one of the wizard's eleven is as it was, no element is added or
    removed, and the charts, the trend state, the timers and the progress
    are as they were, both after [goToStep2] has sent its request and after
    it has dealt with the response, whatever the response is. In particular
    the lookup neither opens nor closes the modal and touches nothing of the
    dashboard. *)
Theorem lookup_writes_wizard_only
    (useRegenerate : bool) (brandName brandDesc : string) (settled : FetchOutcome)
    (id : string) (w : World) :
  id ∉ wizard_ids ->
  let sent := Stmt.run (goToStep2 useRegenerate) w in
  let back := Stmt.run (goToStep2_resume brandName brandDesc settled) w in
  elem id sent = elem id w
  /\ elem id back = elem id w
  /\ (forall id', is_Some (elem id' sent) <-> is_Some (elem id' w))
  /\ (forall id', is_Some (elem id' back) <-> is_Some (elem id' w))
  /\ script_state sent = script_state w
  /\ script_state back = script_state w
  /\ network back = network w.
Proof.
  intros Hid sent back.
  pose proof (writes_goToStep2 useRegenerate w) as Hsent.
  pose proof (writes_goToStep2_resume brandName brandDesc settled w) as Hback.
  split; [exact (proj1 (Hsent id) Hid)|].
  split; [exact (proj1 (Hback id) Hid)|].
  split; [intros id'; exact (proj2 (Hsent id'))|].
  split; [intros id'; exact (proj2 (Hback id'))|].
  split; [apply (doc_goToStep2 script_state); reflexivity|].
  split; [apply (doc_goToStep2_resume script_state); reflexivity|].
  apply (doc_goToStep2_resume network). reflexivity.
Qed.

Lemma network_stopProgressAnimation w : network (stopProgressAnimation w) = network w.
Proof.
  unfold stopProgressAnimation.
  destruct (progressInterval w) as [t|]; [destruct (bool_decide (t = 0))|]; reflexivity.
Qed.

Lemma keeps_updateChartsFromAnalysis_network data brandName topicsText :
  keeps network (updateChartsFromAnalysis data brandName topicsText).
Proof. unfold updateChartsFromAnalysis. cbn zeta. keeps_tac Blind_network. Qed.

Lemma keeps_runBrandAnalysisFromStep2_resume_network brandName topicsText settled :
  keeps network (runBrandAnalysisFromStep2_resume brandName topicsText settled).
Proof.
  unfold runBrandAnalysisFromStep2_resume.
  apply keeps_try_catch;
    [|apply keeps_modify; apply network_stopProgressAnimation].
  destruct settled as [|status [data|]];
    [apply keeps_throw| |apply keeps_modify; apply network_stopProgressAnimation].
  cbn zeta.
  apply keeps_bind; [apply keeps_modify; apply network_stopProgressAnimation|intros _].
  apply keeps_bind; [apply keeps_updateAnalysisProgress, Blind_network|intros _].
  apply keeps_bind; [apply keeps_updateMetricCardsFromAnalysis, Blind_network|intros _].
  apply keeps_updateChartsFromAnalysis_network.
Qed.

(** X2. The analysis writes to the dashboard and to nothing else: every
    element that is not the status bar, one of the three of the progress
    display, one of the eight of the scorecards, a tab of the trend chart,
    the topic dropdown or the canvas of a chart is as it was, and no element
    is added or removed, both after
    [runBrandAnalysisFromStep2] has sent its request and after it has dealt
    with the response, whatever the response is. In particular the analysis
    writes no message to the error box of the wizard, also when it fails;
    and when the response is there it sends no further request and leaves
    the status bar as it is. *)
Theorem analysis_writes_dashboard_only
    (brandName topicsText : string) (settled : FetchOutcome) (id : string) (w : World) :
  id ∉ dashboard_ids ->
  let sent := Stmt.run runBrandAnalysisFromStep2 w in
  let back :=
    Stmt.run (runBrandAnalysisFromStep2_resume brandName topicsText settled) w in
  elem id sent = elem id w
  /\ elem id back = elem id w
  /\ (forall id', is_Some (elem id' sent) <-> is_Some (elem id' w))
  /\ (forall id', is_Some (elem id' back) <-> is_Some (elem id' w))
  /\ elem "analysisStatus" back = elem "analysisStatus" w
  /\ network back = network w.
Proof.
  intros Hid sent back.
  pose proof (writes_runBrandAnalysisFromStep2 w) as Hsent.
  pose proof (writes_runBrandAnalysisFromStep2_resume brandName topicsText settled w)
    as Hback.
  split; [exact (proj1 (Hsent id) Hid)|].
  split.
  { apply (proj1 (Hback id)). intros Hin. apply Hid. right. exact Hin. }
  split; [intros id'; exact (proj2 (Hsent id'))|].
  split; [intros id'; exact (proj2 (Hback id'))|].
  split.
  { apply (proj1 (Hback "analysisStatus")).
    unfold render_ids, progress_ids, card_ids, chart_ids. cbn [app].
    intros Hin. repeat (apply elem_of_cons in Hin as [Hin|Hin]; [discriminate|]).
    exact (proj1 (elem_of_nil _) Hin). }
  apply keeps_runBrandAnalysisFromStep2_resume_network.
Qed.

(** ** The analysis bar *)

(** Proves that an id is not in a list of ids that is written out. *)
Ltac not_in_ids := apply (bool_decide_unpack _); vm_compute; exact I.

(** Proves [same_but ids w w'] where [w'] is [w] after updates of elements
    whose ids are in [ids]. *)
Ltac same_but_updates :=
  repeat (eapply same_but_trans; [|apply same_but_update; in_ids]);
  apply same_but_refl.

Lemma same_but_openModal w : same_but modal_ids w (openModal w).
Proof. unfold openModal, resetModal. same_but_updates. Qed.

Lemma same_but_closeModal w : same_but modal_ids w (closeModal w).
Proof. unfold closeModal. same_but_updates. Qed.

Lemma has_class_add_class c e : El.has_class c (El.add_class c e) = true.
Proof.
  unfold El.add_class. destruct (El.has_class c e) eqn:Hc; [exact Hc|].
  unfold El.has_class. cbn. apply bool_decide_eq_true_2.
  apply elem_of_app. right. left.
Qed.

Lemma has_class_remove_class c e : El.has_class c (El.remove_class c e) = false.
Proof.
  unfold El.has_class, El.remove_class. cbn. apply bool_decide_eq_false_2.
  rewrite list_elem_of_filter. intros [Hne _]. apply Hne. reflexivity.
Qed.

Lemma bar_shown_same_but ids w w' :
  "analysisStatus" ∉ ids -> same_but ids w w' -> bar_shown w -> bar_shown w'.
Proof.
  intros Hout Hsame (e & He & Hshown). exists e. split; [|exact Hshown].
  rewrite (proj1 (Hsame "analysisStatus") Hout). exact He.
Qed.

Lemma stable_writes_bar_shown {A} ids (m : M A) :
  "analysisStatus" ∉ ids -> writes ids m -> stable bar_shown m.
Proof. intros Hout Hm w Hw. exact (bar_shown_same_but _ _ _ Hout (Hm w) Hw). Qed.

Lemma bar_shown_showAnalysisBar w :
  is_Some (elem "analysisStatus" w) -> bar_shown (showAnalysisBar w).
Proof.
  intros [e He]. unfold showAnalysisBar, bar_shown. rewrite elem_update, He.
  eexists. split; [reflexivity|]. split; [reflexivity|].
  apply has_class_remove_class.
Qed.

Lemma stable_bar_shown_runBrandAnalysisFromStep2 :
  stable bar_shown runBrandAnalysisFromStep2.
Proof.
  unfold runBrandAnalysisFromStep2.
  apply stable_bind; [intros w Hw; exact Hw|intros input].
  destruct input; [|intros w Hw; exact Hw].
  do 6 (apply stable_bind; [intros w Hw; exact Hw|intros ?]).
  destruct (JsString.is_empty _); [intros w Hw; exact Hw|].
  apply stable_bind.
  { apply stable_modify. intros w (bar & Hbar & _).
    apply bar_shown_showAnalysisBar. eauto. }
  intros _. apply stable_bind.
  { apply (stable_writes_bar_shown progress_ids);
      [not_in_ids|apply writes_updateAnalysisProgress]. }
  intros _. apply (stable_writes_bar_shown []); [not_in_ids|]. writes_tac.
Qed.

Lemma stable_bar_shown_listener id : stable bar_shown (listener id).
Proof.
  unfold listener.
  repeat match goal with
         | |- stable _ (if ?b then _ else _) => destruct b
         end;
    try solve [apply (stable_writes_bar_shown modal_ids); [not_in_ids|];
               apply writes_modify; intros w;
               first [apply same_but_openModal|apply same_but_closeModal]];
    try solve [apply (stable_writes_bar_shown wizard_ids); [not_in_ids|];
               apply writes_goToStep2];
    try solve [apply (stable_writes_bar_shown chart_ids); [not_in_ids|]; writes_tac].
  unfold createBtn_click.
  apply stable_bind; [|intros _; apply stable_bar_shown_runBrandAnalysisFromStep2].
  apply (stable_writes_bar_shown modal_ids); [not_in_ids|].
  apply writes_modify. intros w. apply same_but_closeModal.
Qed.

Lemma writes_progressTick : writes progress_ids progressTick.
Proof.
  unfold progressTick.
  apply writes_bind; [apply writes_read|intros v].
  destruct (bool_decide (v < 90)); [|apply writes_ret].
  apply writes_bind; [writes_tac|intros _].
  apply writes_updateAnalysisProgress.
Qed.

(** X3. Once the analysis bar is on display it stays on display: no click, no
    edit of a field, no tick of the timer and no response, of whatever kind,
    hides it again (the script has [hideAnalysisBar] and never calls it). *)
Theorem analysis_bar_stays_shown (ev : Event) (w : World) :
  bar_shown w -> bar_shown (step ev w).
Proof.
  intros Hw. destruct ev as [id|id text|id|k settled]; cbn [step].
  - destruct (elem id w) as [e|]; [|exact Hw].
    destruct (disabled e); [exact Hw|]. apply stable_bar_shown_listener. exact Hw.
  - destruct Hw as (e & He & Hd & Hc).
    destruct (decide (id = "analysisStatus")) as [->|Hne].
    + exists (El.set_value text e). rewrite elem_update, He.
      split; [reflexivity|]. split; [exact Hd|exact Hc].
    + exists e. rewrite elem_update_ne by exact Hne. auto.
  - destruct (bool_decide (id ∈ intervals w)); [|exact Hw].
    apply (stable_writes_bar_shown progress_ids);
      [not_in_ids|apply writes_progressTick|exact Hw].
  - destruct (pending w !! k) as [p|]; [|exact Hw].
    assert (bar_shown (W.set_network (requests w) (delete k (pending w)) w)) as Hw'
      by exact Hw.
    destruct p as [brandName brandDesc|brandName topicsText]; cbn [resume].
    + apply (stable_writes_bar_shown wizard_ids);
        [not_in_ids|apply writes_goToStep2_resume|exact Hw'].
    + apply (stable_writes_bar_shown render_ids);
        [not_in_ids|apply writes_runBrandAnalysisFromStep2_resume|exact Hw'].
Qed.

(** ** The progress timer when the analysis settles *)

Lemma stopped_stop w : one_timer w -> stopped (stopProgressAnimation w).
Proof. intros Hw. destruct (one_timer_stop w Hw) as (Hh & Hi & _). split; assumption. Qed.

Lemma stopped_stop_again w : stopped w -> stopped (stopProgressAnimation w).
Proof. intros [Hh Hi]. unfold stopProgressAnimation. rewrite Hh. split; assumption. Qed.

Lemma stable_keeps_stopped {A} (m : M A) : keeps timers m -> stable stopped m.
Proof.
  intros Hk w [Hh Hi]. specialize (Hk w). unfold timers in Hk.
  injection Hk as Hh' Hi' _. split; congruence.
Qed.

Lemma runBrandAnalysisFromStep2_resume_stops brandName topicsText settled w :
  one_timer w ->
  stopped (Stmt.run (runBrandAnalysisFromStep2_resume brandName topicsText settled) w).
Proof.
  intros Hw. pose proof (stopped_stop w Hw) as Hst.
  unfold Stmt.run, runBrandAnalysisFromStep2_resume, Stmt.try_catch.
  destruct settled as [|status [data|]]; [exact Hst| |exact Hst].
  cbn zeta. unfold Stmt.bind at 1. unfold Stmt.modify at 1.
  match goal with
  | |- context [Stmt.bind ?m ?k (stopProgressAnimation w)] =>
      assert (stable stopped (Stmt.bind m k)) as Hrest
  end.
  { apply stable_keeps_stopped.
    apply keeps_bind; [apply keeps_updateAnalysisProgress, Blind_timers|intros _].
    apply keeps_bind;
      [apply keeps_updateMetricCardsFromAnalysis, Blind_timers|intros _].
    apply keeps_updateChartsFromAnalysis_timers. }
  specialize (Hrest _ Hst).
  match goal with
  | |- context [match ?o with Completed _ _ => _ | Threw _ => _ end] =>
      destruct o as [[] w2|w2]
  end; cbn in *; [exact Hrest|].
  apply stopped_stop_again. exact Hrest.
Qed.

(** X4. When the response of an analysis is dealt with, the progress timer is
    stopped, on every path: a response that renders, a response whose body
    is no JSON, a request that failed, a response whose rendering throws.
    After it no interval is active, the script holds no handle, and a tick
    that is still due changes nothing; the response is taken off the pending
    ones and no request is sent. This holds for the response of every
    analysis, also of one that a later click on Create has overtaken. *)
Theorem analysis_settled_stops_timer
    (w : World) (k : nat) (brandName topicsText : string) (settled : FetchOutcome) :
  Reachable w ->
  pending w !! k = Some (PendingAnalysis brandName topicsText) ->
  let w' := step (Settles k settled) w in
  progressInterval w' = None
  /\ intervals w' = []
  /\ (forall id, step (TimerFires id) w' = w')
  /\ requests w' = requests w
  /\ pending w' = delete k (pending w).
Proof.
  intros Hreach Hk w'. pose proof (Reachable_one_timer w Hreach) as Hw.
  assert (w' = Stmt.run (runBrandAnalysisFromStep2_resume brandName topicsText settled)
                 (W.set_network (requests w) (delete k (pending w)) w)) as Hw'.
  { subst w'. cbn [step]. rewrite Hk. reflexivity. }
  assert (one_timer (W.set_network (requests w) (delete k (pending w)) w)) as Hone
    by exact Hw.
  destruct (runBrandAnalysisFromStep2_resume_stops brandName topicsText settled _ Hone)
    as [Hh Hi].
  rewrite <- Hw' in Hh, Hi.
  split; [exact Hh|]. split; [exact Hi|]. split.
  { intros id. cbn [step]. rewrite Hi.
    rewrite bool_decide_eq_false_2 by apply not_elem_of_nil. reflexivity. }
  pose proof (keeps_runBrandAnalysisFromStep2_resume_network brandName topicsText settled
                (W.set_network (requests w) (delete k (pending w)) w)) as Hnet.
  unfold Stmt.run in Hw'. rewrite <- Hw' in Hnet.
  unfold network in Hnet. injection Hnet as Hreq Hpend. split; assumption.
Qed.

(** ** The bound of the simulated progress *)

Lemma visualProgress_stopProgressAnimation w :
  visualProgress (stopProgressAnimation w) = visualProgress w.
Proof.
  unfold stopProgressAnimation.
  destruct (progressInterval w) as [t|]; [destruct (bool_decide (t = 0))|]; reflexivity.
Qed.

Lemma keeps_updateChartsFromAnalysis_visualProgress data brandName topicsText :
  keeps visualProgress (updateChartsFromAnalysis data brandName topicsText).
Proof. unfold updateChartsFromAnalysis. cbn zeta. keeps_tac Blind_visualProgress. Qed.

Lemma stable_keeps_visualProgress {A} (P : nat -> Prop) (m : M A) :
  keeps visualProgress m -> stable (fun w => P (visualProgress w)) m.
Proof. intros Hk w Hw. rewrite (Hk w). exact Hw. Qed.

Lemma stable_bound_runBrandAnalysisFromStep2 :
  stable (fun w => visualProgress w <= 90) runBrandAnalysisFromStep2.
Proof.
  unfold runBrandAnalysisFromStep2.
  apply stable_bind; [intros w Hw; exact Hw|intros input].
  destruct input; [|intros w Hw; exact Hw].
  do 6 (apply stable_bind; [intros w Hw; exact Hw|intros ?]).
  destruct (JsString.is_empty _); [intros w Hw; exact Hw|].
  apply stable_bind.
  { apply (stable_keeps_visualProgress (fun v => v <= 90)).
    apply keeps_modify. intros w. reflexivity. }
  intros _. apply stable_bind.
  { apply (stable_keeps_visualProgress (fun v => v <= 90)).
    apply keeps_updateAnalysisProgress, Blind_visualProgress. }
  intros _. apply stable_bind.
  { apply stable_modify. intros w _. unfold startProgressAnimation. cbn. lia. }
  intros _. apply (stable_keeps_visualProgress (fun v => v <= 90)).
  apply keeps_modify. intros w. reflexivity.
Qed.

Lemma keeps_runBrandAnalysisFromStep2_resume_visualProgress brandName topicsText settled :
  keeps visualProgress (runBrandAnalysisFromStep2_resume brandName topicsText settled).
Proof.
  unfold runBrandAnalysisFromStep2_resume.
  apply keeps_try_catch;
    [|apply keeps_modify; apply visualProgress_stopProgressAnimation].
  destruct settled as [|status [data|]];
    [apply keeps_throw| |apply keeps_modify; apply visualProgress_stopProgressAnimation].
  cbn zeta.
  apply keeps_bind;
    [apply keeps_modify; apply visualProgress_stopProgressAnimation|intros _].
  apply keeps_bind; [apply keeps_updateAnalysisProgress, Blind_visualProgress|intros _].
  apply keeps_bind;
    [apply keeps_updateMetricCardsFromAnalysis, Blind_visualProgress|intros _].
  apply keeps_updateChartsFromAnalysis_visualProgress.
Qed.

Lemma stable_bound_listener id : stable (fun w => visualProgress w <= 90) (listener id).
Proof.
  unfold listener.
  repeat match goal with
         | |- stable _ (if ?b then _ else _) => destruct b
         end;
    try solve [apply (stable_keeps_visualProgress (fun v => v <= 90));
               first [ apply (doc_goToStep2 visualProgress); reflexivity
                     | apply keeps_ret
                     | apply keeps_modify; intros w;
                       first [ apply (view_createOrUpdateTrendChart _ Blind_visualProgress)
                             | reflexivity ] ]].
  unfold createBtn_click.
  apply stable_bind; [|intros _; apply stable_bound_runBrandAnalysisFromStep2].
  apply (stable_keeps_visualProgress (fun v => v <= 90)).
  apply keeps_modify. intros w. reflexivity.
Qed.

Lemma bound_step ev w : visualProgress w <= 90 -> visualProgress (step ev w) <= 90.
Proof.
  intros Hw. destruct ev as [id|id text|id|k settled]; cbn [step].
  - destruct (elem id w) as [e|]; [|exact Hw].
    destruct (disabled e); [exact Hw|]. apply stable_bound_listener. exact Hw.
  - exact Hw.
  - destruct (bool_decide (id ∈ intervals w)); [|exact Hw].
    unfold Stmt.run, progressTick. unfold Stmt.bind at 1. unfold Stmt.read at 1.
    destruct (bool_decide (visualProgress w < 90)) eqn:Hlt; [|exact Hw].
    apply bool_decide_eq_true in Hlt.
    rewrite world_of_bind_modify.
    rewrite (keeps_updateAnalysisProgress visualProgress _ _ _ Blind_visualProgress).
    cbn. lia.
  - destruct (pending w !! k) as [p|]; [|exact Hw].
    destruct p as [brandName brandDesc|brandName topicsText]; cbn [resume].
    + unfold Stmt.run. rewrite (doc_goToStep2_resume visualProgress) by reflexivity.
      exact Hw.
    + unfold Stmt.run.
      rewrite keeps_runBrandAnalysisFromStep2_resume_visualProgress. exact Hw.
Qed.

(** X5. The simulated progress never goes above 90: in every world the event
    loop reaches the counter of the simulator is at most 90, and at 90 a
    tick of the timer changes nothing, so the simulator does not reach 100 on
    its own however long the response takes. *)
Theorem progress_never_exceeds_90 (w : World) :
  Reachable w ->
  visualProgress w <= 90
  /\ (visualProgress w = 90 -> forall id, step (TimerFires id) w = w).
Proof.
  intros Hreach. split.
  - induction Hreach as [document chartLibrary|ev w _ IH]; [cbn; lia|].
    apply bound_step. exact IH.
  - intros H90 id. cbn [step].
    destruct (bool_decide (id ∈ intervals w)); [|reflexivity].
    unfold Stmt.run, progressTick. unfold Stmt.bind at 1. unfold Stmt.read at 1.
    rewrite H90. reflexivity.
Qed.

(** ** The progress display when the analysis settles *)

Lemma keeps_elem_writes {A} ids id (m : M A) :
  id ∉ ids -> writes ids m -> keeps (elem id) m.
Proof. intros Hout Hm w. exact (proj1 (Hm w id) Hout). Qed.

Lemma view_try_catch {A T} (view : World -> T) (body handler : M A) w :
  keeps view handler ->
  view (Stmt.world_of (Stmt.try_catch body handler w)) = view (Stmt.world_of (body w)).
Proof.
  intros Hh. unfold Stmt.try_catch. destruct (body w) as [a w'|w']; [reflexivity|].
  apply Hh.
Qed.

Lemma view_bind {A B T} (view : World -> T) (m : M A) (k : A -> M B) w :
  (forall a, keeps view (k a)) ->
  view (Stmt.world_of (Stmt.bind m k w)) = view (Stmt.world_of (m w)).
Proof.
  intros Hk. unfold Stmt.bind. destruct (m w) as [a w'|w']; [|reflexivity].
  apply Hk.
Qed.

Lemma updateAnalysisProgress_converts percent used total u t w :
  ToString used = Value u -> ToString total = Value t ->
  updateAnalysisProgress percent used total w
  = Completed tt
      (update "analysisPromptsLabel"
         (El.set_textContent ("Prompts " +:+ u +:+ " / " +:+ t))
      (update "analysisPercentLabel"
         (El.set_textContent (number_toString (Num.round (safePercent percent)) +:+ "%"))
      (update "analysisProgressFill"
         (El.set_width (number_toString (safePercent percent) +:+ "%")) w))).
Proof.
  intros Hu Ht.
  unfold updateAnalysisProgress, Stmt.bind, Stmt.modify, Stmt.read, Stmt.eval, Stmt.ret.
  cbv beta zeta. rewrite Hu, Ht.
  match goal with |- context [elem "analysisPromptsLabel" ?w0] =>
    destruct (elem "analysisPromptsLabel" w0) eqn:He
  end; [reflexivity|].
  rewrite (update_absent "analysisPromptsLabel") by exact He. reflexivity.
Qed.

Lemma keeps_elem_render id data brandName topicsText :
  id ∈ progress_ids ->
  keeps (elem id)
    (Stmt.bind (updateMetricCardsFromAnalysis data brandName)
       (fun _ => updateChartsFromAnalysis data brandName topicsText)).
Proof.
  intros Hid.
  assert ((id ∉ card_ids) /\ (id ∉ chart_ids)) as [Hcard Hchart].
  { unfold progress_ids in Hid.
    repeat (apply elem_of_cons in Hid as [->|Hid]; [split; not_in_ids|]).
    destruct (proj1 (elem_of_nil _) Hid). }
  apply keeps_bind.
  - exact (keeps_elem_writes _ _ _ Hcard (writes_updateMetricCardsFromAnalysis _ _)).
  - intros _.
    exact (keeps_elem_writes _ _ _ Hchart (writes_updateChartsFromAnalysis _ _ _)).
Qed.

(** The progress display after [runBrandAnalysisFromStep2] has dealt with a
    response of [id], for an [id] of the progress display: what
    [updateAnalysisProgress] left there. *)
Lemma elem_progress_resume id brandName topicsText status data w :
  id ∈ progress_ids ->
  let promptStats :=
    Js.or (Js.get_opt "prompt_stats" (Js.get_opt "metrics" data)) (JObject []) in
  let used := Js.or (Js.prop "used" promptStats) (JNumber (Num.of_Z 0)) in
  let total := Js.or (Js.prop "total" promptStats) (JNumber (Num.of_Z 0)) in
  elem id
    (Stmt.run
       (runBrandAnalysisFromStep2_resume brandName topicsText
          (Responded status (Some data))) w)
  = elem id (Stmt.world_of (updateAnalysisProgress (Num.of_Z 100) used total w)).
Proof.
  intros Hid promptStats used total.
  unfold Stmt.run, runBrandAnalysisFromStep2_resume.
  rewrite view_try_catch
    by (apply keeps_modify; intros w0; apply elem_stopProgressAnimation).
  cbn zeta. fold promptStats. fold used. fold total.
  rewrite world_of_bind_modify.
  rewrite view_bind by (intros _; apply keeps_elem_render; exact Hid).
  assert (forall id' w1 w2,
             dom w1 = dom w2 ->
             elem id' (Stmt.world_of (updateAnalysisProgress (Num.of_Z 100) used total w1))
             = elem id' (Stmt.world_of (updateAnalysisProgress (Num.of_Z 100) used total w2)))
    as Hdom.
  { intros id' w1 w2 Heq.
    unfold updateAnalysisProgress, Stmt.bind, Stmt.modify, Stmt.read, Stmt.eval,
      Stmt.ret, Stmt.throw.
    cbv beta zeta. unfold elem, update, W.set_dom. cbn [dom]. rewrite Heq.
    destruct (alter _ _ (alter _ _ (dom w2)) !! "analysisPromptsLabel");
      [|reflexivity].
    destruct (ToString used); [|reflexivity].
    destruct (ToString total); reflexivity. }
  apply Hdom. unfold stopProgressAnimation.
  destruct (progressInterval w) as [t|]; [destruct (bool_decide (t = 0))|]; reflexivity.
Qed.

(** X6. A response of the analysis drives the progress display to 100 per cent,
    whatever its status is and whatever its body holds: the script does not
    look at the status of the response, so the body of an error counts as a
    result, and the bar and the label are set before the result is rendered,
    so they stay at 100 per cent when the rendering throws. The prompts label
    shows the counts of the response, 0 where they are missing. *)
Theorem analysis_response_completes_progress
    (brandName topicsText : string) (status : nat) (data : JsVal) (w : World) :
  let w' :=
    Stmt.run
      (runBrandAnalysisFromStep2_resume brandName topicsText
         (Responded status (Some data))) w in
  let promptStats :=
    Js.or (Js.get_opt "prompt_stats" (Js.get_opt "metrics" data)) (JObject []) in
  width <$> elem "analysisProgressFill" w'
  = (fun _ => "100%") <$> elem "analysisProgressFill" w
  /\ textContent <$> elem "analysisPercentLabel" w'
     = (fun _ => "100%") <$> elem "analysisPercentLabel" w
  /\ (forall u t,
        ToString (Js.or (Js.prop "used" promptStats) (JNumber (Num.of_Z 0))) = Value u ->
        ToString (Js.or (Js.prop "total" promptStats) (JNumber (Num.of_Z 0))) = Value t ->
        textContent <$> elem "analysisPromptsLabel" w'
        = (fun _ => "Prompts " +:+ u +:+ " / " +:+ t) <$> elem "analysisPromptsLabel" w)
  /\ (Js.truthy (Js.get_opt "metrics" data) = false ->
      textContent <$> elem "analysisPromptsLabel" w'
      = (fun _ => "Prompts 0 / 0") <$> elem "analysisPromptsLabel" w).
Proof.
  intros w' promptStats. subst w'.
  rewrite !elem_progress_resume by in_ids. fold promptStats.
  match goal with
  | |- context [updateAnalysisProgress ?p ?a ?b w] =>
      destruct (updateAnalysisProgress_elems p a b w) as [Hfill Hlabel]
  end.
  cbn zeta in Hfill, Hlabel. rewrite Hfill, Hlabel.
  assert (forall u t,
             ToString (Js.or (Js.prop "used" promptStats) (JNumber (Num.of_Z 0))) = Value u ->
             ToString (Js.or (Js.prop "total" promptStats) (JNumber (Num.of_Z 0))) = Value t ->
             textContent
               <$> elem "analysisPromptsLabel"
                     (Stmt.world_of
                        (updateAnalysisProgress (Num.of_Z 100)
                           (Js.or (Js.prop "used" promptStats) (JNumber (Num.of_Z 0)))
                           (Js.or (Js.prop "total" promptStats) (JNumber (Num.of_Z 0))) w))
             = (fun _ => "Prompts " +:+ u +:+ " / " +:+ t)
                 <$> elem "analysisPromptsLabel" w) as Hprompts.
  { intros u t Hu Ht. rewrite (updateAnalysisProgress_converts _ _ _ u t) by assumption.
    cbn [Stmt.world_of]. elem_simpl.
    destruct (elem "analysisPromptsLabel" w); reflexivity. }
  split; [destruct (elem "analysisProgressFill" w); reflexivity|].
  split; [destruct (elem "analysisPercentLabel" w); reflexivity|].
  split; [exact Hprompts|].
  intros Hmetrics.
  assert (promptStats = JObject []) as Hstats.
  { unfold promptStats.
    destruct (Js.get_opt "metrics" data); try discriminate; reflexivity. }
  rewrite (Hprompts "0" "0"); [reflexivity| |]; rewrite Hstats; reflexivity.
Qed.

(** ** The progress display while the analysis runs *)

Lemma Qle_bool_inject_Z a b : Qle_bool (inject_Z a) (inject_Z b) = (a <=? b)%Z.
Proof. unfold Qle_bool. cbn. rewrite !Z.mul_1_r. reflexivity. Qed.

Lemma safePercent_of_nat n : n <= 100 -> safePercent (Num.of_nat n) = Num.of_nat n.
Proof.
  intros Hn. unfold safePercent, Num.of_nat, Num.of_Z, Num.max, Num.min, Num.leb.
  rewrite Qle_bool_inject_Z.
  destruct (Z.of_nat n <=? 0)%Z eqn:H0.
  - apply Z.leb_le in H0. assert (n = 0) as -> by lia. reflexivity.
  - rewrite Qle_bool_inject_Z. rewrite (proj2 (Z.leb_le _ _)) by lia. reflexivity.
Qed.

Lemma round_of_Z z : Num.round (Num.of_Z z) = Num.of_Z z.
Proof.
  unfold Num.round, Num.of_Z. do 2 f_equal.
  unfold Qfloor, Qplus, inject_Z. cbn [Qnum Qden].
  symmetry. apply (Z.div_unique _ _ z 1); lia.
Qed.

Lemma number_toString_of_nat n :
  (Z.of_nat n <= Num.max_safe)%Z ->
  number_toString (Num.of_nat n) = Num.digits (N.of_nat n).
Proof.
  intros Hn. unfold number_toString, Num.of_nat, Num.of_Z, Num.is_integer, inject_Z.
  cbn [Qnum Qden]. rewrite Z.mod_1_r, Z.div_1_r. cbn [Z.eqb andb].
  rewrite Z.abs_eq by lia.
  rewrite (proj2 (Z.leb_le _ _)) by exact Hn.
  rewrite (proj2 (Z.ltb_ge _ _)) by lia.
  cbn [Num.sign]. rewrite <- nat_N_Z, Zabs2N.id. reflexivity.
Qed.

(** X7. A tick of the timer below 90 moves the simulated progress up by one and
    shows it: the bar is as wide as the counter says, the label reads the
    same number, and the prompts label reads 0 of 0. Nothing else of the
    state changes. *)
Theorem progressTick_advances_display (w : World) :
  visualProgress w < 90 ->
  let w' := Stmt.run progressTick w in
  let shown := Num.digits (N.of_nat (visualProgress w + 1)) +:+ "%" in
  visualProgress w' = visualProgress w + 1
  /\ width <$> elem "analysisProgressFill" w'
     = (fun _ => shown) <$> elem "analysisProgressFill" w
  /\ textContent <$> elem "analysisPercentLabel" w'
     = (fun _ => shown) <$> elem "analysisPercentLabel" w
  /\ textContent <$> elem "analysisPromptsLabel" w'
     = (fun _ => "Prompts 0 / 0") <$> elem "analysisPromptsLabel" w
  /\ timers w' = timers w
  /\ network w' = network w.
Proof.
  intros Hlt w' shown.
  assert (w' = Stmt.world_of
                 (updateAnalysisProgress (Num.of_nat (visualProgress w + 1))
                    (JNumber (Num.of_Z 0)) (JNumber (Num.of_Z 0))
                    (W.set_visualProgress (visualProgress w + 1) w))) as Hw'.
  { subst w'. unfold Stmt.run, progressTick.
    unfold Stmt.bind at 1. unfold Stmt.read at 1.
    rewrite bool_decide_eq_true_2 by exact Hlt. reflexivity. }
  rewrite updateAnalysisProgress_numbers in Hw'. cbn [Stmt.world_of] in Hw'.
  rewrite safePercent_of_nat in Hw' by lia.
  change (Num.of_nat (visualProgress w + 1))
    with (Num.of_Z (Z.of_nat (visualProgress w + 1))) in Hw'.
  rewrite round_of_Z in Hw'.
  change (Num.of_Z (Z.of_nat (visualProgress w + 1)))
    with (Num.of_nat (visualProgress w + 1)) in Hw'.
  rewrite number_toString_of_nat in Hw' by (unfold Num.max_safe; lia).
  fold shown in Hw'. rewrite Hw'.
  split; [reflexivity|].
  split; [elem_simpl; destruct (elem "analysisProgressFill" _); reflexivity|].
  split; [elem_simpl; destruct (elem "analysisPercentLabel" _); reflexivity|].
  split; [elem_simpl; destruct (elem "analysisPromptsLabel" _); reflexivity|].
  split; reflexivity.
Qed.

(** X8. A click on Create with a name in step 2 puts the analysis bar on
    display and the progress at zero: the bar is shown with [display: flex]
    and without the class that hides it, its fill is 0 per cent wide, the
    label reads 0 per cent and the prompts label 0 of 0; and the analysis
    waits for its response with the trimmed name and topics. *)
Theorem create_shows_progress_at_zero (w : World) :
  is_Some (elem "brandNameStep2" w) ->
  JsString.trim (field "brandNameStep2" w) <> "" ->
  let w' := Stmt.run createBtn_click w in
  (fun e => (display e, El.has_class "analysis-status--hidden" e))
    <$> elem "analysisStatus" w'
  = (fun _ => ("flex", false)) <$> elem "analysisStatus" w
  /\ width <$> elem "analysisProgressFill" w'
     = (fun _ => "0%") <$> elem "analysisProgressFill" w
  /\ textContent <$> elem "analysisPercentLabel" w'
     = (fun _ => "0%") <$> elem "analysisPercentLabel" w
  /\ textContent <$> elem "analysisPromptsLabel" w'
     = (fun _ => "Prompts 0 / 0") <$> elem "analysisPromptsLabel" w
  /\ pending w'
     = pending w
         ++ [PendingAnalysis (JsString.trim (field "brandNameStep2" w))
               (JsString.trim (field "brandTopicsStep2" w))].
Proof.
  intros Hinput Hname w'.
  assert (is_Some (elem "brandNameStep2" (closeModal w))) as Hinput'
    by (unfold closeModal; rewrite elem_update_ne by discriminate; exact Hinput).
  assert (w' = Stmt.world_of (runBrandAnalysisFromStep2 (closeModal w))) as Hw'
    by reflexivity.
  rewrite (runBrandAnalysisFromStep2_unfold _ Hinput') in Hw'.
  rewrite !field_closeModal in Hw' by discriminate.
  rewrite (is_empty_false _ Hname) in Hw'. cbn [Stmt.world_of] in Hw'.
  rewrite Hw'. clear Hw' w'.
  split; [|split; [|split; [|split]]].
  - rewrite elem_fetch, elem_startProgressAnimation. unfold showAnalysisBar, closeModal.
    elem_simpl. destruct (elem "analysisStatus" w) as [e|]; [|reflexivity].
    cbn [fmap option_fmap option_map]. do 2 f_equal. apply has_class_remove_class.
  - rewrite elem_fetch, elem_startProgressAnimation. unfold showAnalysisBar, closeModal.
    elem_simpl. destruct (elem "analysisProgressFill" w); reflexivity.
  - rewrite elem_fetch, elem_startProgressAnimation. unfold showAnalysisBar, closeModal.
    elem_simpl. destruct (elem "analysisPercentLabel" w); reflexivity.
  - rewrite elem_fetch, elem_startProgressAnimation. unfold showAnalysisBar, closeModal.
    elem_simpl. destruct (elem "analysisPromptsLabel" w); reflexivity.
  - unfold fetch. cbn [W.set_network pending]. f_equal.
    match goal with |- pending (startProgressAnimation ?x) = _ =>
      destruct (startProgressAnimation_handle x) as (_ & _ & _ & _ & Hp); rewrite Hp
    end.
    reflexivity.
Qed.

(** ** The error box *)

Lemma showError_string s w :
  showError (JString s) w = Completed tt (update "brandModalError" (error_box s) w).
Proof.
  unfold error_box. destruct (JsString.is_empty s) eqn:Hs.
  - apply is_empty_true in Hs as ->.
    unfold showError, Stmt.bind, Stmt.read, Stmt.modify, Stmt.ret.
    destruct (elem "brandModalError" w) eqn:He; [reflexivity|].
    rewrite update_absent by exact He. reflexivity.
  - assert (s <> "") as Hne by (intros ->; discriminate).
    rewrite (showError_message _ _ Hne). f_equal.
    destruct w as [d ? ? ? ? ? ? ? ? ? ?]. unfold update, W.set_dom. cbn. f_equal.
    rewrite alter_alter_eq. reflexivity.
Qed.

Lemma error_box_twice a b e : error_box b (error_box a e) = error_box b e.
Proof.
  unfold error_box. destruct (JsString.is_empty a), (JsString.is_empty b); reflexivity.
Qed.

(** X9. Of two messages shown one after the other the error box keeps the
    second only: it is as if the first had never been shown. A message that
    is not empty is on display; the empty message hides the box and empties
    it. *)
Theorem showError_last_message_wins (a b : string) (w : World) :
  let w2 := Stmt.run (showError (JString b)) (Stmt.run (showError (JString a)) w) in
  elem "brandModalError" w2
  = elem "brandModalError" (Stmt.run (showError (JString b)) w)
  /\ (fun e => (display e, textContent e)) <$> elem "brandModalError" w2
     = (fun _ => if JsString.is_empty b then ("none", "") else ("block", b))
         <$> elem "brandModalError" w.
Proof.
  cbn zeta. unfold Stmt.run. rewrite !showError_string. cbn [Stmt.world_of].
  rewrite !elem_update.
  destruct (elem "brandModalError" w) as [e|]; [|split; reflexivity].
  cbn [fmap option_fmap option_map]. rewrite error_box_twice.
  split; [reflexivity|].
  unfold error_box. destruct (JsString.is_empty b); reflexivity.
Qed.

(** ** The wizard when the lookup settles *)

Lemma goToStep2_resume_finally brandName brandDesc settled w :
  exists w2,
    Stmt.run (goToStep2_resume brandName brandDesc settled) w
    = update "brandStepNext"
        (fun e => El.set_textContent "Next" (El.set_disabled false e)) w2.
Proof.
  unfold Stmt.run, goToStep2_resume, Stmt.try_finally.
  match goal with
  | |- context [match ?o with Completed _ _ => _ | Threw _ => _ end] =>
      destruct o as [a w2|w2]
  end; exists w2; reflexivity.
Qed.

(** X10. However the lookup settles, [goToStep2] leaves the Next button enabled
    and labelled "Next": with a response that fills step 2, with a response
    that reports an error, with a body that is no JSON, with a request that
    failed, and when the handling of the response throws. *)
Theorem lookup_always_reenables_next
    (brandName brandDesc : string) (settled : FetchOutcome) (w : World) :
  let w' := Stmt.run (goToStep2_resume brandName brandDesc settled) w in
  (fun e => (disabled e, textContent e)) <$> elem "brandStepNext" w'
  = (fun _ => (false, "Next")) <$> elem "brandStepNext" w.
Proof.
  cbn zeta.
  pose proof (writes_goToStep2_resume brandName brandDesc settled w "brandStepNext")
    as [_ Hsome].
  fold (Stmt.run (goToStep2_resume brandName brandDesc settled) w) in Hsome.
  destruct (goToStep2_resume_finally brandName brandDesc settled w) as [w2 Hw2].
  rewrite Hw2 in *. rewrite elem_update in *.
  destruct (elem "brandStepNext" w2) as [e2|], (elem "brandStepNext" w) as [e|];
    cbn in *; try reflexivity.
  - destruct (proj1 Hsome (ltac:(eexists; reflexivity))) as [x Hx]. discriminate.
  - destruct (proj2 Hsome (ltac:(eexists; reflexivity))) as [x Hx]. discriminate.
Qed.

Lemma or_field_or v fallback :
  optional_string v = true -> Js.or v (JString fallback) = JString (field_or v fallback).
Proof.
  destruct v as [| | | |s| | |]; try discriminate; intros _; try reflexivity.
  unfold Js.or, field_or. cbn [Js.truthy].
  destruct (JsString.is_empty s) eqn:Hs; reflexivity.
Qed.

Lemma goToStep2_resume_failure brandName brandDesc settled msg w :
  (forall status data,
      settled = Responded status (Some data) ->
      optional_string (Js.prop "error" data) = true) ->
  lookup_failure settled = Some msg ->
  Stmt.run (goToStep2_resume brandName brandDesc settled) w
  = update "brandStepNext" (fun e => El.set_textContent "Next" (El.set_disabled false e))
      (update "brandModalError" (error_box msg) w).
Proof.
  intros Hopt Hmsg.
  unfold Stmt.run, goToStep2_resume, Stmt.try_finally, Stmt.try_catch.
  destruct settled as [|status [data|]]; cbn [lookup_failure] in Hmsg.
  - injection Hmsg as <-. unfold Stmt.throw.
    rewrite showError_string. reflexivity.
  - specialize (Hopt status data eq_refl).
    destruct (Js.nullish data) eqn:Hnull.
    + injection Hmsg as <-.
      unfold Stmt.bind, Stmt.eval, Stmt.ret, Js.get. rewrite Hnull.
      destruct (negb (ok status)); cbv beta iota delta [Stmt.throw];
        rewrite showError_string; reflexivity.
    + destruct (negb (ok status) || Js.truthy (Js.prop "error" data)) eqn:Hfail;
        [|discriminate].
      injection Hmsg as <-.
      assert (Js.or (Js.prop "error" data)
                (JString ("Backend error: " +:+ status_text status))
              = JString (field_or (Js.prop "error" data)
                           ("Backend error: " +:+ status_text status))) as Hor.
      { apply or_field_or. exact Hopt. }
      unfold Stmt.bind, Stmt.eval, Stmt.ret, Js.get. rewrite Hnull.
      destruct (negb (ok status)); cbn [orb] in Hfail; cbv beta iota.
      * rewrite Hor, showError_string. reflexivity.
      * rewrite Hfail. cbv beta iota. rewrite Hor, showError_string. reflexivity.
  - injection Hmsg as <-. rewrite showError_string. reflexivity.
Qed.

Lemma lookup_failure_nonempty settled msg :
  lookup_failure settled = Some msg -> msg <> "".
Proof.
  destruct settled as [|status [data|]]; cbn [lookup_failure].
  - intros [= <-]. discriminate.
  - destruct (Js.nullish data); [intros [= <-]; discriminate|].
    destruct (negb (ok status) || _); [|discriminate]. intros [= <-].
    unfold field_or. destruct (Js.prop "error" data) as [| | | |s| | |];
      try discriminate.
    destruct (JsString.is_empty s) eqn:Hs; [discriminate|].
    intros ->. discriminate.
  - intros [= <-]. discriminate.
Qed.

(** X11. A lookup that failed shows its message and changes nothing else. The
    message is the one of [lookup_failure]: the error that the body reports,
    whatever the status is; the status for a status that is not one of
    success; a note for a body that is no JSON; one and the same note for a
    request that failed and for a body that is null. The error box is on
    display with that message, the Next button is enabled again, and every
    other element is as it was: the wizard stays on the step it was on and
    the fields of step 2 keep their values. The error of the body is a
    string where it is present. *)
Theorem lookup_failure_shows_message
    (brandName brandDesc : string) (settled : FetchOutcome) (msg : string) (w : World) :
  (forall status data,
      settled = Responded status (Some data) ->
      optional_string (Js.prop "error" data) = true) ->
  lookup_failure settled = Some msg ->
  let w' := Stmt.run (goToStep2_resume brandName brandDesc settled) w in
  msg <> ""
  /\ (fun e => (display e, textContent e)) <$> elem "brandModalError" w'
     = (fun _ => ("block", msg)) <$> elem "brandModalError" w
  /\ (fun e => (disabled e, textContent e)) <$> elem "brandStepNext" w'
     = (fun _ => (false, "Next")) <$> elem "brandStepNext" w
  /\ (forall id, id <> "brandModalError" -> id <> "brandStepNext" ->
        elem id w' = elem id w)
  /\ script_state w' = script_state w
  /\ network w' = network w.
Proof.
  intros Hopt Hmsg w'. pose proof (lookup_failure_nonempty _ _ Hmsg) as Hne.
  subst w'. rewrite (goToStep2_resume_failure _ _ _ _ _ Hopt Hmsg).
  split; [exact Hne|].
  split.
  { elem_simpl. unfold error_box. rewrite (is_empty_false _ Hne).
    destruct (elem "brandModalError" w); reflexivity. }
  split; [elem_simpl; destruct (elem "brandStepNext" w); reflexivity|].
  split; [|split; reflexivity].
  intros id Herr Hbtn. rewrite !elem_update_ne by congruence. reflexivity.
Qed.

(** X12. A lookup that succeeded moves the wizard to step 2: step 1 loses the
    class that marks the active step, step 2 gains it and the title reads
    "Configure Brand"; the error box, the inputs of step 1 and the backdrop
    are as they were. The fields of the response are strings where they are
    present. *)
Theorem lookup_success_switches_to_step2
    (brandName brandDesc : string) (status : nat) (data : JsVal) (w : World) :
  lookup_succeeded status data ->
  optional_string (Js.prop "brand_name" data) = true ->
  optional_string (Js.prop "brand_description" data) = true ->
  optional_string (Js.prop "brand_url" data) = true ->
  optional_string (Js.prop "region" data) = true ->
  optional_string (Js.prop "language" data) = true ->
  optional_string (Js.prop "initial_topics" data) = true ->
  let w' :=
    Stmt.run (goToStep2_resume brandName brandDesc (Responded status (Some data))) w in
  lookup_failure (Responded status (Some data)) = None
  /\ El.has_class "is-active" <$> elem "brandStep1" w'
     = (fun _ => false) <$> elem "brandStep1" w
  /\ El.has_class "is-active" <$> elem "brandStep2" w'
     = (fun _ => true) <$> elem "brandStep2" w
  /\ textContent <$> elem "brandModalTitle" w'
     = (fun _ => "Configure Brand") <$> elem "brandModalTitle" w
  /\ elem "brandModalError" w' = elem "brandModalError" w
  /\ elem "brandNameStep1" w' = elem "brandNameStep1" w
  /\ elem "brandDescStep1" w' = elem "brandDescStep1" w
  /\ elem "brandModalBackdrop" w' = elem "brandModalBackdrop" w.
Proof.
  intros Hsucc H1 H2 H3 H4 H5 H6 w'. subst w'. unfold Stmt.run.
  rewrite goToStep2_resume_success by assumption. cbn [Stmt.world_of].
  destruct Hsucc as (Hok & Hdata & Herror).
  split; [cbn [lookup_failure]; rewrite Hdata, Hok, Herror; reflexivity|].
  split.
  { elem_simpl. destruct (elem "brandStep1" w) as [e|]; [|reflexivity].
    cbn [fmap option_fmap option_map]. f_equal. apply has_class_remove_class. }
  split.
  { elem_simpl. destruct (elem "brandStep2" w) as [e|]; [|reflexivity].
    cbn [fmap option_fmap option_map]. f_equal. apply has_class_add_class. }
  split; [elem_simpl; destruct (elem "brandModalTitle" w); reflexivity|].
  repeat split; elem_simpl; reflexivity.
Qed.

(** ** The Next button while the lookup is in flight *)

Lemma listener_brandStepNext : listener "brandStepNext" = goToStep2 false.
Proof. reflexivity. Qed.

(** X13. A click on Next with a name in step 1 sends the lookup, disables the
    button, labels it "Generating..." and hides the error box; a second
    click on Next before the response is there does nothing at all, so one
    lookup is sent, not two. *)
Theorem second_click_on_next_ignored (w : World) (btn : Elem) :
  elem "brandStepNext" w = Some btn ->
  disabled btn = false ->
  JsString.trim (field "brandNameStep1" w) <> "" ->
  let w1 := step (Click "brandStepNext") w in
  requests w1
  = requests w
      ++ [LookupRequest (JsString.trim (field "brandNameStep1" w))
            (field "brandDescStep1" w)]
  /\ (fun e => (disabled e, textContent e)) <$> elem "brandStepNext" w1
     = Some (true, "Generating...")
  /\ (fun e => (display e, textContent e)) <$> elem "brandModalError" w1
     = (fun _ => ("none", "")) <$> elem "brandModalError" w
  /\ step (Click "brandStepNext") w1 = w1.
Proof.
  intros Hbtn Henabled Hname w1.
  assert (w1
          = fetch
              (LookupRequest (JsString.trim (field "brandNameStep1" w))
                 (field "brandDescStep1" w))
              (PendingLookup (JsString.trim (field "brandNameStep1" w))
                 (field "brandDescStep1" w))
              (update "brandModalError" (error_box "")
                 (update "brandStepNext"
                    (fun e => El.set_textContent "Generating..." (El.set_disabled true e))
                    w))) as Hw1.
  { subst w1. cbn [step]. rewrite Hbtn, Henabled, listener_brandStepNext.
    unfold Stmt.run.
    rewrite (goToStep2_unfold false w) by (rewrite Hbtn; eexists; reflexivity).
    rewrite (is_empty_false _ Hname).
    unfold Stmt.bind at 1. unfold Stmt.modify at 1. unfold Stmt.bind at 1.
    rewrite showError_string. reflexivity. }
  rewrite Hw1. clear Hw1 w1.
  split; [reflexivity|].
  split; [rewrite elem_fetch; elem_simpl; rewrite Hbtn; reflexivity|].
  split; [rewrite elem_fetch; elem_simpl; destruct (elem "brandModalError" w); reflexivity|].
  cbn [step]. rewrite elem_fetch. elem_simpl. rewrite Hbtn. reflexivity.
Qed.

(** ** Where requests come from *)

Lemma is_empty_nonempty s : JsString.is_empty s = false -> s <> "".
Proof. intros H ->. discriminate. Qed.

Lemma goToStep2_sends_at_most_one useRegenerate w :
  exists sent,
    requests (Stmt.run (goToStep2 useRegenerate) w) = requests w ++ sent
    /\ length sent <= 1.
Proof.
  destruct (elem "brandStepNext" w) as [btn|] eqn:Hbtn.
  - assert (is_Some (elem "brandStepNext" w)) as Hsome by (rewrite Hbtn; eexists; reflexivity).
    destruct (JsString.is_empty
                (JsString.trim
                   (field (if useRegenerate then "brandNameStep2" else "brandNameStep1") w)))
      eqn:Hname.
    + exists []. unfold Stmt.run. rewrite (goToStep2_unfold _ _ Hsome), Hname.
      rewrite showError_string. cbn. rewrite app_nil_r. split; [reflexivity|lia].
    + destruct (goToStep2_sends useRegenerate w Hsome (is_empty_nonempty _ Hname))
        as [w2 [Hrun Hnet]].
      eexists [_]. unfold Stmt.run. rewrite Hrun. cbn.
      unfold network in Hnet. injection Hnet as -> _. split; [reflexivity|lia].
  - exists []. unfold Stmt.run, goToStep2, Stmt.bind, Stmt.read. rewrite Hbtn.
    cbn. rewrite app_nil_r. split; [reflexivity|lia].
Qed.

Lemma runBrandAnalysisFromStep2_sends_at_most_one w :
  exists sent,
    requests (Stmt.run runBrandAnalysisFromStep2 w) = requests w ++ sent
    /\ length sent <= 1.
Proof.
  destruct (elem "brandNameStep2" w) as [input|] eqn:Hinput.
  - assert (is_Some (elem "brandNameStep2" w)) as Hsome
      by (rewrite Hinput; eexists; reflexivity).
    unfold Stmt.run. rewrite (runBrandAnalysisFromStep2_unfold _ Hsome).
    destruct (JsString.is_empty _).
    + exists []. cbn. rewrite app_nil_r. split; [reflexivity|lia].
    + eexists [_]. cbn [Stmt.world_of fetch W.set_network requests].
      match goal with |- context [requests (startProgressAnimation ?x)] =>
        destruct (startProgressAnimation_handle x) as (_ & _ & _ & Hreq & _);
        rewrite Hreq
      end.
      split; [reflexivity|cbn; lia].
  - exists []. unfold Stmt.run, runBrandAnalysisFromStep2, Stmt.bind, Stmt.read.
    rewrite Hinput. cbn. rewrite app_nil_r. split; [reflexivity|lia].
Qed.

Lemma listener_sends_at_most_one id w :
  exists sent,
    requests (Stmt.run (listener id) w) = requests w ++ sent /\ length sent <= 1.
Proof.
  unfold listener.
  repeat match goal with
         | |- context [if ?b then _ else _] => destruct b
         end;
    try apply goToStep2_sends_at_most_one;
    try (exists []; rewrite app_nil_r; split; [|cbn; lia];
         first [ reflexivity
               | exact (f_equal fst
                          (view_createOrUpdateTrendChart network Blind_network _ w)) ]).
  unfold createBtn_click.
  destruct (runBrandAnalysisFromStep2_sends_at_most_one (closeModal w))
    as [sent [Hsent Hlen]].
  exists sent. split; [exact Hsent|exact Hlen].
Qed.

Lemma keeps_progressTick_network : keeps network progressTick.
Proof.
  unfold progressTick.
  apply keeps_bind; [apply keeps_read|intros v].
  destruct (bool_decide (v < 90)); [|apply keeps_ret].
  apply keeps_bind; [keeps_tac Blind_network|intros _].
  apply keeps_updateAnalysisProgress, Blind_network.
Qed.

(** X14. Requests are sent by clicks and by nothing else, one a click at most:
    an edit of a field, a tick of the timer and a response, whatever it is,
    send no request, so a lookup or an analysis that failed is not tried
    again until the user clicks again; and a click sends one request or
    none. *)
Theorem requests_only_from_clicks (ev : Event) (w : World) :
  (exists sent, requests (step ev w) = requests w ++ sent /\ length sent <= 1)
  /\ ((forall id, ev <> Click id) -> requests (step ev w) = requests w).
Proof.
  assert ((forall id, ev <> Click id) -> requests (step ev w) = requests w) as Hother.
  { intros Hev. destruct ev as [id|id text|id|k settled]; cbn [step].
    - destruct (Hev id eq_refl).
    - reflexivity.
    - destruct (bool_decide (id ∈ intervals w)); [|reflexivity].
      exact (f_equal fst (keeps_progressTick_network w)).
    - destruct (pending w !! k) as [p|]; [|reflexivity].
      destruct p as [brandName brandDesc|brandName topicsText]; cbn [resume].
      + exact (f_equal fst (keeps_goToStep2_resume network _ _ _ Blind_network _)).
      + exact (f_equal fst (keeps_runBrandAnalysisFromStep2_resume_network _ _ _ _)). }
  split; [|exact Hother].
  destruct ev as [id|id text|id|k settled];
    try (exists []; rewrite app_nil_r; split; [apply Hother; discriminate|cbn; lia]).
  cbn [step]. destruct (elem id w) as [e|];
    [|exists []; rewrite app_nil_r; split; [reflexivity|cbn; lia]].
  destruct (disabled e);
    [exists []; rewrite app_nil_r; split; [reflexivity|cbn; lia]|].
  apply listener_sends_at_most_one.
Qed.

(** ** Opening the modal *)

Lemma field_openModal id w : id ∈ form_fields -> field id (openModal w) = "".
Proof.
  intros Hid. unfold form_fields in Hid. unfold field, openModal, resetModal.
  repeat (apply elem_of_cons in Hid as [->|Hid];
          [elem_simpl; match goal with |- context [elem ?i w] => destruct (elem i w) end;
           reflexivity|]).
  destruct (proj1 (elem_of_nil _) Hid).
Qed.

(** X15. Opening the modal discards the draft and starts at step 1: the eight
    inputs of the wizard read as empty, step 1 is the active step and step 2
    is not, the error box is hidden and empty, the title reads "Add New
    Brand", the Next button is enabled and the backdrop is visible; no
    request is sent and none is cancelled. From a modal just opened neither
    Next nor Create sends a request, as there is no name yet. *)
Theorem openModal_resets_form (w : World) :
  let w' := openModal w in
  (forall id, id ∈ form_fields -> field id w' = "")
  /\ El.has_class "is-active" <$> elem "brandStep1" w'
     = (fun _ => true) <$> elem "brandStep1" w
  /\ El.has_class "is-active" <$> elem "brandStep2" w'
     = (fun _ => false) <$> elem "brandStep2" w
  /\ (fun e => (display e, textContent e)) <$> elem "brandModalError" w'
     = (fun _ => ("none", "")) <$> elem "brandModalError" w
  /\ textContent <$> elem "brandModalTitle" w'
     = (fun _ => "Add New Brand") <$> elem "brandModalTitle" w
  /\ (fun e => (disabled e, textContent e)) <$> elem "brandStepNext" w'
     = (fun _ => (false, "Next")) <$> elem "brandStepNext" w
  /\ El.has_class "is-visible" <$> elem "brandModalBackdrop" w'
     = (fun _ => true) <$> elem "brandModalBackdrop" w
  /\ network w' = network w
  /\ script_state w' = script_state w
  /\ (forall useRegenerate,
        requests (Stmt.run (goToStep2 useRegenerate) w') = requests w)
  /\ requests (Stmt.run createBtn_click w') = requests w.
Proof.
  cbn zeta.
  split; [intros id Hid; apply field_openModal; exact Hid|].
  split.
  { unfold openModal, resetModal. elem_simpl.
    destruct (elem "brandStep1" w) as [e|]; [|reflexivity].
    cbn [fmap option_fmap option_map]. f_equal. apply has_class_add_class. }
  split.
  { unfold openModal, resetModal. elem_simpl.
    destruct (elem "brandStep2" w) as [e|]; [|reflexivity].
    cbn [fmap option_fmap option_map]. f_equal. apply has_class_remove_class. }
  split; [unfold openModal, resetModal; elem_simpl;
          destruct (elem "brandModalError" w); reflexivity|].
  split; [unfold openModal, resetModal; elem_simpl;
          destruct (elem "brandModalTitle" w); reflexivity|].
  split; [unfold openModal, resetModal; elem_simpl;
          destruct (elem "brandStepNext" w); reflexivity|].
  split.
  { unfold openModal. elem_simpl.
    destruct (elem "brandModalBackdrop" (resetModal w)) as [e|] eqn:He.
    - assert (is_Some (elem "brandModalBackdrop" w)) as [e0 He0].
      { unfold resetModal in He. revert He. elem_simpl. intros ->. eexists; reflexivity. }
      rewrite He0. cbn [fmap option_fmap option_map]. f_equal. apply has_class_add_class.
    - unfold resetModal in He. revert He. elem_simpl. intros ->. reflexivity. }
  split; [reflexivity|]. split; [reflexivity|].
  split.
  - intros useRegenerate.
    destruct (elem "brandStepNext" (openModal w)) as [btn|] eqn:Hbtn.
    + unfold Stmt.run. rewrite goToStep2_unfold by (rewrite Hbtn; eexists; reflexivity).
      rewrite field_openModal by (destruct useRegenerate; in_ids).
      cbn [JsString.trim JsString.trimStart JsString.trimEnd JsString.is_empty].
      rewrite showError_string. reflexivity.
    + unfold Stmt.run, goToStep2, Stmt.bind, Stmt.read. rewrite Hbtn. reflexivity.
  - unfold Stmt.run, createBtn_click. rewrite world_of_bind_modify.
    destruct (elem "brandNameStep2" (closeModal (openModal w))) as [input|] eqn:Hinput.
    + rewrite runBrandAnalysisFromStep2_unfold by (rewrite Hinput; eexists; reflexivity).
      rewrite (field_closeModal "brandNameStep2") by discriminate.
      rewrite field_openModal by in_ids. reflexivity.
    + unfold runBrandAnalysisFromStep2, Stmt.bind, Stmt.read. rewrite Hinput. reflexivity.
Qed.

(** ** The topic dropdown *)

Lemma elem_append_options topics w :
  elem "trendTopicSelect"
    (foldl (fun w t => update "trendTopicSelect" (El.append_option t t) w) w topics)
  = (fun e => El.set_options (options e ++ ((fun t => (t, t)) <$> topics)) e)
      <$> elem "trendTopicSelect" w.
Proof.
  revert w. induction topics as [|t r IH]; intros w; cbn [foldl].
  - destruct (elem "trendTopicSelect" w) as [e|]; [|reflexivity].
    cbn. rewrite app_nil_r. destruct e; reflexivity.
  - rewrite IH, elem_update.
    destruct (elem "trendTopicSelect" w) as [e|]; [|reflexivity].
    cbn. unfold El.set_options. cbn. rewrite <- app_assoc. reflexivity.
Qed.

Lemma elem_populateTopicDropdown topics w :
  elem "trendTopicSelect" (populateTopicDropdown topics w)
  = El.set_options (topic_options topics) <$> elem "trendTopicSelect" w.
Proof.
  unfold populateTopicDropdown.
  destruct (elem "trendTopicSelect" w) as [e|] eqn:He; [|rewrite He; reflexivity].
  rewrite elem_append_options, !elem_update, He. reflexivity.
Qed.

(** X16. [populateTopicDropdown] builds the options from scratch: whatever the
    dropdown held, it holds afterwards the option "All Topics" with the empty
    value, then one option a topic, in the order of the topics, with the
    topic for value and for text; populating twice leaves what the second
    call alone leaves, and no other element is written to. *)
Theorem populateTopicDropdown_options (topics : list string) (w : World) :
  elem "trendTopicSelect" (populateTopicDropdown topics w)
  = El.set_options (topic_options topics) <$> elem "trendTopicSelect" w
  /\ (forall before,
        elem "trendTopicSelect"
          (populateTopicDropdown topics (populateTopicDropdown before w))
        = elem "trendTopicSelect" (populateTopicDropdown topics w))
  /\ (forall id, id <> "trendTopicSelect" ->
        elem id (populateTopicDropdown topics w) = elem id w).
Proof.
  split; [apply elem_populateTopicDropdown|]. split.
  - intros before. rewrite !elem_populateTopicDropdown.
    destruct (elem "trendTopicSelect" w); reflexivity.
  - intros id Hid.
    apply (proj1 (same_but_populateTopicDropdown ["trendTopicSelect"] topics w
                    ltac:(left) id)).
    intros Hin. apply list_elem_of_singleton in Hin. exact (Hid Hin).
Qed.

(** ** Topics written one a line *)

Lemma trimStart_trimmed s c r :
  s = String c r -> JsString.is_space c = false -> JsString.trimStart s = s.
Proof. intros -> Hc. cbn. rewrite Hc. reflexivity. Qed.

Lemma trimEnd_trimmed s :
  (forall c, JsString.last_char s = Some c -> JsString.is_space c = false) ->
  JsString.trimEnd s = s.
Proof.
  induction s as [|a r IH]; intros Hlast; [reflexivity|].
  cbn [JsString.trimEnd]. destruct r as [|b r'].
  - cbn. rewrite (Hlast a eq_refl). reflexivity.
  - rewrite IH by exact Hlast. reflexivity.
Qed.

Lemma trim_trimmed_id t : JsString.trimmed t -> JsString.trim t = t.
Proof.
  intros [Hfirst Hlast]. unfold JsString.trim. destruct t as [|c r]; [reflexivity|].
  rewrite (trimStart_trimmed _ c r eq_refl (Hfirst c eq_refl)).
  apply trimEnd_trimmed. exact Hlast.
Qed.

Lemma is_topic_not_CR t : is_topic t -> JsString.last_char t <> Some JsString.CR.
Proof. intros (_ & _ & _ & Hlast) Hcr. specialize (Hlast _ Hcr). discriminate. Qed.

(** X17. Topics written one a line read back as they are: a list of topics (each
    not empty, on one line and without white space at either end) joined with
    line feeds, or with carriage return and line feed, parses to that very
    list, in that order. *)
Theorem parseTopics_join_round_trip (sep : string) (topics : list string) :
  sep = newline \/ sep = CRLF ->
  Forall is_topic topics ->
  parseTopics (JString (join sep topics)) = topics.
Proof.
  intros Hsep Htopics. induction Htopics as [|t rest Ht Hrest IH]; [reflexivity|].
  pose proof Ht as (Hne & Hlf & Htrim).
  destruct rest as [|t' r].
  - cbn [join]. rewrite parseTopics_string, (split_lines_no_LF _ Hlf). cbn [map].
    rewrite (trim_trimmed_id _ Htrim).
    rewrite filter_cons_True by exact Hne. reflexivity.
  - change (join sep (t :: t' :: r)) with (t +:+ sep +:+ join sep (t' :: r)).
    rewrite parseTopics_string.
    assert (JsString.split_lines (t +:+ sep +:+ join sep (t' :: r))
            = t :: JsString.split_lines (join sep (t' :: r))) as ->.
    { destruct Hsep as [-> | ->].
      - apply split_lines_LF; [exact Hlf|apply is_topic_not_CR; exact Ht].
      - apply split_lines_CRLF. exact Hlf. }
    cbn [map]. rewrite (trim_trimmed_id _ Htrim).
    rewrite filter_cons_True by exact Hne.
    rewrite <- parseTopics_string, IH. reflexivity.
Qed.

(** ** The legacy form of the series *)

Lemma push_missing_names_NoDup ordered names :
  NoDup names ->
  push_missing_names ordered names = ordered ++ filter (fun k => k ∉ ordered) names.
Proof.
  unfold push_missing_names. intros Hnd. revert ordered.
  induction Hnd as [|k r Hk Hr IH]; intros ordered.
  - cbn. rewrite app_nil_r. reflexivity.
  - cbn [foldl]. rewrite filter_cons. destruct (decide (k ∈ ordered)) as [Hin|Hout].
    + rewrite bool_decide_eq_true_2 by exact Hin.
      rewrite decide_False by (intros H; exact (H Hin)). apply IH.
    + rewrite bool_decide_eq_false_2 by exact Hout.
      rewrite decide_True by exact Hout.
      rewrite IH, <- app_assoc. cbn [app]. do 2 f_equal.
      apply filter_ext_in. intros x Hx. rewrite elem_of_app, list_elem_of_singleton.
      split; [intros H Hin; apply H; left; exact Hin|].
      intros Hnot [Hin | ->]; [exact (Hnot Hin)|exact (Hk Hx)].
Qed.

Lemma push_missing_names_focal b keys :
  NoDup keys -> push_missing_names [b] keys = b :: filter (fun k => k <> b) keys.
Proof.
  intros Hnd. rewrite (push_missing_names_NoDup _ _ Hnd). cbn [app]. f_equal.
  apply filter_ext_in. intros x _. rewrite list_elem_of_singleton. reflexivity.
Qed.

Lemma push_missing_names_all keys : NoDup keys -> push_missing_names [] keys = keys.
Proof.
  intros Hnd. rewrite (push_missing_names_NoDup _ _ Hnd). cbn [app].
  apply filter_all. intros x _. apply not_elem_of_nil.
Qed.

(** X18. The legacy form, a mapping from a name to its values: the datasets are
    those of the first ten names, the focal brand's first when the mapping
    has a truthy value under that name, then the other names in the order of
    the mapping, each once. The data of a dataset is the value under its
    name, or the empty array when that value is falsy; nothing here can
    throw. A name that every object inherits ([constructor], [toString])
    has a truthy value in every mapping, so a focal brand of such a name
    comes first also when the mapping holds no series of that name. *)
Theorem buildDatasets_mapping_form (props : list (string * JsVal)) (brandName : string) :
  NoDup (Js.keys props) ->
  let series := JObject props in
  let ordered := focal_first_keys brandName series (Js.keys props) in
  buildDatasetsFromSeries series brandName
  = Value (imap (mapping_dataset series) (take 10 ordered))
  /\ length (imap (mapping_dataset series) (take 10 ordered)) <= 10
  /\ (forall name, name ∈ ordered <-> name ∈ Js.keys props
                   \/ (name = brandName /\ brandName <> ""
                       /\ Js.truthy (Js.prop brandName series) = true))
  /\ NoDup ordered
  /\ (brandName <> "" -> Js.truthy (Js.prop brandName series) = true ->
      head ordered = Some brandName)
  /\ (forall d, d ∈ imap (mapping_dataset series) (take 10 ordered) ->
      Js.truthy (data d) = true)
  /\ Js.truthy (Js.prop "constructor" (JObject [])) = true.
Proof.
  intros Hnd series ordered.
  assert (push_missing_names
            (if negb (JsString.is_empty brandName) && Js.truthy (Js.prop brandName series)
             then [brandName] else [])
            (Js.keys props) = ordered) as Hordered.
  { unfold ordered, focal_first_keys.
    destruct (negb (JsString.is_empty brandName) && Js.truthy (Js.prop brandName series)).
    - apply push_missing_names_focal. exact Hnd.
    - apply push_missing_names_all. exact Hnd. }
  split.
  { unfold buildDatasetsFromSeries. cbn [Js.truthy negb series].
    fold series. rewrite Hordered, map_indexed_object. reflexivity. }
  split; [rewrite length_imap, length_take; lia|].
  split.
  { intros name. unfold ordered, focal_first_keys.
    destruct (JsString.is_empty brandName) eqn:Hb; cbn [negb andb].
    - apply is_empty_true in Hb. split; [intros H; left; exact H|].
      intros [H|(_ & H & _)]; [exact H|].
      destruct (H Hb).
    - apply is_empty_nonempty in Hb.
      destruct (Js.truthy (Js.prop brandName series)) eqn:Ht.
      + rewrite elem_of_cons, list_elem_of_filter. split.
        * intros [->|[_ H]]; [right; auto|left; exact H].
        * intros [H|(-> & _)]; [|left; reflexivity].
          destruct (decide (name = brandName)) as [->|Hne]; [left; reflexivity|].
          right. split; assumption.
      + split; [intros H; left; exact H|].
        intros [H|(_ & _ & H)]; [exact H|discriminate]. }
  split.
  { unfold ordered, focal_first_keys.
    destruct (negb (JsString.is_empty brandName) && Js.truthy (Js.prop brandName series));
      [|exact Hnd].
    apply NoDup_cons. split; [|apply NoDup_filter; exact Hnd].
    rewrite list_elem_of_filter. intros [Hne _]. apply Hne. reflexivity. }
  split.
  { intros Hb Ht. unfold ordered, focal_first_keys.
    rewrite (is_empty_false _ Hb), Ht. reflexivity. }
  split; [|reflexivity].
  intros d Hd. apply elem_of_lookup_imap in Hd as (i & name & -> & _).
  unfold mapping_dataset, dataset. cbn [data]. unfold Js.or.
  destruct (Js.truthy (Js.prop name series)) eqn:Ht; [exact Ht|reflexivity].
Qed.

(** ** The colours of the trend chart *)

Lemma map_indexed_colors {A} (f : A -> nat -> Exc Dataset) k l ds :
  (forall x i d, f x i = Value d -> borderColor d = color i /\ backgroundColor d = color i) ->
  map_indexed f k l = Value ds ->
  length ds = length l
  /\ forall i d, ds !! i = Some d ->
       borderColor d = color (k + i) /\ backgroundColor d = color (k + i).
Proof.
  intros Hf. revert k ds. induction l as [|x r IH]; intros k ds; cbn [map_indexed].
  - intros [= <-]. split; [reflexivity|]. intros i d Hd. destruct i; discriminate.
  - destruct (f x k) as [y|] eqn:Hy; [|discriminate]. cbn [Js.exc_bind].
    destruct (map_indexed f (S k) r) as [ys|] eqn:Hys; [|discriminate].
    cbn [Js.exc_bind]. intros [= <-].
    destruct (IH _ _ Hys) as [Hlen Hcol]. split; [cbn; rewrite Hlen; reflexivity|].
    intros [|i] d Hd; cbn in Hd.
    + injection Hd as <-. rewrite Nat.add_0_r. exact (Hf _ _ _ Hy).
    + rewrite Nat.add_succ_r. exact (Hcol _ _ Hd).
Qed.

Lemma array_dataset_colors x i d :
  array_dataset x i = Value d -> borderColor d = color i /\ backgroundColor d = color i.
Proof.
  unfold array_dataset. destruct (Js.get "name" x.2); [|discriminate].
  destruct (Js.get "values" x.2); [|discriminate]. cbn. intros [= <-]. split; reflexivity.
Qed.

Lemma object_dataset_colors props x i d :
  object_dataset props x i = Value d ->
  borderColor d = color i /\ backgroundColor d = color i.
Proof. unfold object_dataset. intros [= <-]. split; reflexivity. Qed.

Lemma buildDatasets_indexed series b ds :
  buildDatasetsFromSeries series b = Value ds ->
  length ds <= 10
  /\ forall i d, ds !! i = Some d -> borderColor d = color i /\ backgroundColor d = color i.
Proof.
  assert (length (@nil Dataset) <= 10
          /\ forall i d, @nil Dataset !! i = Some d ->
               borderColor d = color i /\ backgroundColor d = color i) as Hnil.
  { split; [cbn; lia|]. intros i d Hd. destruct i; discriminate. }
  unfold buildDatasetsFromSeries.
  destruct (negb (Js.truthy series)); [intros [= <-]; exact Hnil|].
  destruct series as [| | | | |elems|props|]; try (intros [= <-]; exact Hnil).
  - match goal with
    | |- Js.exc_bind ?e _ = _ -> _ => destruct e as [ordered|]; [|discriminate]
    end.
    cbn [Js.exc_bind]. intros Hmap.
    destruct (map_indexed_colors _ _ _ _ array_dataset_colors Hmap) as [Hlen Hcol].
    split; [rewrite Hlen, length_take; lia|exact Hcol].
  - intros Hmap.
    destruct (map_indexed_colors _ _ _ _ (object_dataset_colors props) Hmap)
      as [Hlen Hcol].
    split; [rewrite Hlen, length_take; lia|exact Hcol].
Qed.

Lemma palette_prefix n : n <= 10 -> color <$> seq 0 n = JString <$> take n chartColors.
Proof.
  intros Hn. do 11 (destruct n as [|n]; [reflexivity|]). lia.
Qed.

Lemma NoDup_chartColors : NoDup chartColors.
Proof. apply (bool_decide_unpack _). vm_compute. exact I. Qed.

(** X19. The lines of the trend chart have colours of their own: the datasets
    that [buildDatasetsFromSeries] returns, from whatever input, are ten at
    most, the dataset at a position has the colour of the palette at that
    position for its line and for its fill, and as the palette holds ten
    colours that differ, no two datasets have the same colour. *)
Theorem trend_colors_distinct (series : JsVal) (brandName : string) (ds : list Dataset) :
  buildDatasetsFromSeries series brandName = Value ds ->
  length ds <= 10
  /\ borderColor <$> ds = JString <$> take (length ds) chartColors
  /\ backgroundColor <$> ds = borderColor <$> ds
  /\ NoDup (borderColor <$> ds).
Proof.
  intros Hbuilt. destruct (buildDatasets_indexed _ _ _ Hbuilt) as [Hlen Hcol].
  assert (borderColor <$> ds = color <$> seq 0 (length ds)) as Hborder.
  { apply list_eq. intros i. rewrite !list_lookup_fmap.
    destruct (ds !! i) as [d|] eqn:Hd; cbn.
    - rewrite lookup_seq_lt by (apply lookup_lt_Some in Hd; exact Hd).
      cbn. f_equal. exact (proj1 (Hcol _ _ Hd)).
    - rewrite lookup_seq_ge by (apply lookup_ge_None in Hd; exact Hd). reflexivity. }
  assert (backgroundColor <$> ds = borderColor <$> ds) as Hfill.
  { apply list_eq. intros i. rewrite !list_lookup_fmap.
    destruct (ds !! i) as [d|] eqn:Hd; cbn; [|reflexivity].
    f_equal. destruct (Hcol _ _ Hd) as [-> ->]. reflexivity. }
  rewrite Hborder, (palette_prefix _ Hlen) in *.
  split; [exact Hlen|]. split; [reflexivity|]. split; [exact Hfill|].
  apply NoDup_fmap_2; [intros x y [= ->]; reflexivity|].
  pose proof NoDup_chartColors as Hnd.
  rewrite <- (take_drop (length ds) chartColors) in Hnd.
  apply NoDup_app in Hnd as [Hnd _]. exact Hnd.
Qed.

(** ** Series that are not series objects *)

Lemma entries_from_not_nullish k l :
  Forall (fun v => Js.nullish v = false) l ->
  Forall (fun e : Entry => Js.nullish e.2 = false) (entries_from k l).
Proof.
  intros H. revert k. induction H as [|v r Hv _ IH]; intros k; simpl; constructor; auto.
Qed.

Lemma find_named_total b (l : list Entry) :
  Forall (fun e : Entry => Js.nullish e.2 = false) l ->
  exists r, find_named b l = Value r /\ forall s, r = Some s -> s ∈ l.
Proof.
  induction 1 as [|e r He _ [found [IH Hin]]]; cbn [find_named].
  - exists None. split; [reflexivity|discriminate].
  - unfold Js.get. rewrite He. cbn [Js.exc_bind].
    destruct (Js.strict_eq_string _ b).
    + exists (Some e). split; [reflexivity|]. intros s [= <-]. left.
    + exists found. split; [exact IH|]. intros s Hs. right. exact (Hin s Hs).
Qed.

Lemma push_missing_subset ordered series s :
  s ∈ push_missing ordered series -> s ∈ ordered \/ s ∈ series.
Proof.
  unfold push_missing. revert ordered.
  induction series as [|x r IH]; intros ordered; cbn [foldl]; [auto|].
  intros Hs. destruct (IH _ Hs) as [Hin|Hin]; [|right; right; exact Hin].
  destruct (includes ordered x); [left; exact Hin|].
  apply elem_of_app in Hin as [Hin|Hin]; [left; exact Hin|].
  apply list_elem_of_singleton in Hin as ->. right. left.
Qed.

Lemma map_indexed_array_total k (l : list Entry) :
  Forall (fun e : Entry => Js.nullish e.2 = false) l ->
  exists ds,
    map_indexed array_dataset k l = Value ds
    /\ Forall (fun d => Js.isArray (data d) = true) ds.
Proof.
  intros H. revert k. induction H as [|e r He _ IH]; intros k; cbn [map_indexed].
  - exists []. split; [reflexivity|constructor].
  - destruct (IH (S k)) as [ds [Hds Harr]]. rewrite Hds.
    unfold array_dataset, Js.get. rewrite He. cbn [Js.exc_bind].
    eexists. split; [reflexivity|]. constructor; [|exact Harr].
    cbn [data dataset]. destruct (Js.isArray (Js.prop "values" e.2)) eqn:Hv;
      [exact Hv|reflexivity].
Qed.

(** X20. An array in which no element is null or undefined never makes
    [buildDatasetsFromSeries] throw, whatever its elements are otherwise
    (objects without a name, numbers, strings, arrays): it returns ten
    datasets at most, and the data of every one of them is an array, the
    empty one where the element has no array of values. *)
Theorem buildDatasets_array_total (elems : list JsVal) (brandName : string) :
  Forall (fun v => Js.nullish v = false) elems ->
  exists ds,
    buildDatasetsFromSeries (JArray elems) brandName = Value ds
    /\ length ds <= 10
    /\ Forall (fun d => Js.isArray (data d) = true) ds.
Proof.
  intros Helems. pose proof (entries_from_not_nullish 0 _ Helems) as Hent.
  fold (entries elems) in Hent.
  assert (exists ordered,
             (if JsString.is_empty brandName then Value []
              else
                let? main := find_named brandName (entries elems) in
                match main with
                | Some s => Value (if Js.truthy s.2 then [s] else [])
                | None => Value []
                end) = Value ordered
             /\ forall s, s ∈ ordered -> s ∈ entries elems) as (ordered & Hordered & Hsub).
  { destruct (JsString.is_empty brandName).
    - exists []. split; [reflexivity|]. intros s Hs. destruct (proj1 (elem_of_nil _) Hs).
    - destruct (find_named_total brandName _ Hent) as [found [Hfound Hin]].
      rewrite Hfound. cbn [Js.exc_bind]. destruct found as [s|].
      + destruct (Js.truthy s.2).
        * exists [s]. split; [reflexivity|]. intros x Hx.
          apply list_elem_of_singleton in Hx as ->. exact (Hin s eq_refl).
        * exists []. split; [reflexivity|].
          intros x Hx. destruct (proj1 (elem_of_nil _) Hx).
      + exists []. split; [reflexivity|].
        intros x Hx. destruct (proj1 (elem_of_nil _) Hx). }
  assert (Forall (fun e : Entry => Js.nullish e.2 = false)
            (take 10 (push_missing ordered (entries elems)))) as Hlimited.
  { apply Forall_take. apply Forall_forall. intros s Hs.
    apply push_missing_subset in Hs as [Hs|Hs];
      [apply Hsub in Hs|]; exact (proj1 (Forall_forall _ _) Hent s Hs). }
  destruct (map_indexed_array_total 0 _ Hlimited) as [ds [Hds Harr]].
  exists ds.
  assert (buildDatasetsFromSeries (JArray elems) brandName = Value ds) as Hbuilt.
  { unfold buildDatasetsFromSeries. cbn [Js.truthy negb].
    rewrite Hordered. cbn [Js.exc_bind]. exact Hds. }
  split; [exact Hbuilt|]. split; [|exact Harr].
  exact (proj1 (buildDatasets_indexed _ _ _ Hbuilt)).
Qed.

Lemma push_missing_prefix ordered series :
  exists tail, push_missing ordered series = ordered ++ tail.
Proof.
  unfold push_missing. revert ordered.
  induction series as [|x r IH]; intros ordered; cbn [foldl].
  - exists []. rewrite app_nil_r. reflexivity.
  - destruct (includes ordered x); [apply IH|].
    destruct (IH (ordered ++ [x])) as [tail Htail]. exists (x :: tail).
    rewrite Htail, <- app_assoc. reflexivity.
Qed.

Lemma buildDatasets_null_first v rest b :
  Js.nullish v = true -> buildDatasetsFromSeries (JArray (v :: rest)) b = TypeError.
Proof.
  intros Hv. unfold buildDatasetsFromSeries. cbn [Js.truthy negb].
  change (entries (v :: rest)) with ((0, v) :: entries_from 1 rest).
  destruct (JsString.is_empty b).
  - cbn [Js.exc_bind].
    assert (exists tail,
               push_missing [] ((0, v) :: entries_from 1 rest) = (0, v) :: tail)
      as [tail ->].
    { destruct (push_missing_prefix [(0, v)] (entries_from 1 rest)) as [tail Htail].
      exists tail. exact Htail. }
    cbn [take map_indexed]. unfold array_dataset at 1. unfold Js.get at 1.
    cbn [snd]. rewrite Hv. reflexivity.
  - cbn [find_named]. unfold Js.get at 1. cbn [snd]. rewrite Hv. reflexivity.
Qed.

(** X21. A series array whose first element is null or undefined makes
    [buildDatasetsFromSeries] throw, and with it [updateChartsFromAnalysis]:
    when the visibility series of a response is such an array, the labels of
    the trend state are those of the response already, and nothing else was
    done: the datasets of both metrics, the two charts and the topic
    dropdown are as they were. *)
Theorem malformed_series_stops_rendering
    (data : JsVal) (brandName topicsText : string) (v : JsVal) (rest : list JsVal)
    (w : World) :
  let metrics := Js.or (Js.get_opt "metrics" data) (JObject []) in
  let trend := Js.or (Js.prop "trend" metrics) (JObject []) in
  Js.or (Js.prop "visibility" trend) (JArray []) = JArray (v :: rest) ->
  Js.nullish v = true ->
  buildDatasetsFromSeries (JArray (v :: rest)) brandName = TypeError
  /\ updateChartsFromAnalysis data brandName topicsText w
     = Threw (W.set_trendState
                (W.set_labels (Js.or (Js.prop "labels" trend) (JArray []))) w)
  /\ (let w' := Stmt.world_of (updateChartsFromAnalysis data brandName topicsText w) in
      datasets w' = datasets w
      /\ visibilityTrendChart w' = visibilityTrendChart w
      /\ mentionsDonutChart w' = mentionsDonutChart w
      /\ dom w' = dom w).
Proof.
  intros metrics trend Hvis Hv.
  pose proof (buildDatasets_null_first v rest brandName Hv) as Hthrow.
  assert (updateChartsFromAnalysis data brandName topicsText w
          = Threw (W.set_trendState
                     (W.set_labels (Js.or (Js.prop "labels" trend) (JArray []))) w))
    as Hrun.
  { unfold updateChartsFromAnalysis. fold metrics. fold trend. cbn zeta.
    rewrite Hvis, Hthrow. reflexivity. }
  split; [exact Hthrow|]. split; [exact Hrun|].
  cbn zeta. rewrite Hrun. repeat split; reflexivity.
Qed.

(** ** The charts *)

Lemma can_draw_true canvas w :
  is_Some (elem canvas w) -> hasChart w = true -> can_draw canvas w = true.
Proof.
  intros Hc Hl. unfold can_draw. rewrite Hl, bool_decide_eq_true_2 by exact Hc.
  reflexivity.
Qed.

Lemma can_draw_same canvas w w' :
  elem canvas w' = elem canvas w -> hasChart w' = hasChart w ->
  can_draw canvas w' = can_draw canvas w.
Proof. intros He Hl. unfold can_draw. rewrite He, Hl. reflexivity. Qed.

Lemma createOrUpdateTrendChart_eq metric w :
  createOrUpdateTrendChart metric w
  = if can_draw "visibilityTrendChart" w then
      setTrendTabs metric
        (W.set_trendState (W.set_currentMetric metric)
           (W.set_visibilityTrendChart (Some (trend_chart_of metric w)) w))
    else w.
Proof.
  unfold createOrUpdateTrendChart, can_draw.
  destruct (elem "visibilityTrendChart" w) as [canvas|].
  - rewrite bool_decide_eq_true_2 by (eexists; reflexivity).
    destruct (hasChart w); [|reflexivity]. cbn [negb andb].
    destruct (visibilityTrendChart w); reflexivity.
  - rewrite bool_decide_eq_false_2 by (intros [x Hx]; discriminate). reflexivity.
Qed.

Lemma Blind_trend_labels : Blind trend_labels.
Proof. split; reflexivity. Qed.

Lemma Blind_hasChart : Blind hasChart.
Proof. split; reflexivity. Qed.

Lemma elem_createOrUpdateTrendChart id metric w :
  id <> "trendTabVisibility" -> id <> "trendTabRank" ->
  elem id (createOrUpdateTrendChart metric w) = elem id w.
Proof.
  intros Hv Hr.
  apply (proj1 (same_but_createOrUpdateTrendChart ["trendTabVisibility"; "trendTabRank"]
                  metric w ltac:(in_ids) ltac:(in_ids) id)).
  intros Hin. apply elem_of_cons in Hin as [->|Hin]; [exact (Hv eq_refl)|].
  apply list_elem_of_singleton in Hin as ->. exact (Hr eq_refl).
Qed.

Lemma map_indexed_length {A B} (f : A -> nat -> Exc B) k l r :
  map_indexed f k l = Value r -> length r = length l.
Proof.
  revert k r. induction l as [|x l IH]; intros k r; cbn [map_indexed].
  - intros [= <-]. reflexivity.
  - destruct (f x k); [|discriminate]. cbn [Js.exc_bind].
    destruct (map_indexed f (S k) l) eqn:Hl; [|discriminate].
    cbn [Js.exc_bind]. intros [= <-]. cbn. rewrite (IH _ _ Hl). reflexivity.
Qed.

Lemma pluck_segments p segments :
  Forall (fun d => Js.nullish d = false) segments ->
  pluck p (JArray segments) = Value (Js.prop p <$> segments).
Proof.
  intros Hseg. unfold pluck. generalize 0.
  induction Hseg as [|d r Hd _ IH]; intros k; cbn [map_indexed]; [reflexivity|].
  unfold Js.get at 1. rewrite Hd. cbn [Js.exc_bind]. rewrite IH. reflexivity.
Qed.

Lemma imap_color {A} (l : list A) : imap (fun idx _ => color idx) l = color <$> seq 0 (length l).
Proof.
  apply list_eq. intros i. rewrite list_lookup_imap, list_lookup_fmap.
  destruct (l !! i) as [x|] eqn:Hx; cbn.
  - rewrite lookup_seq_lt by (apply lookup_lt_Some in Hx; exact Hx). reflexivity.
  - rewrite lookup_seq_ge by (apply lookup_ge_None in Hx; exact Hx). reflexivity.
Qed.

Lemma createOrUpdateDonutChart_eq donutData segments w :
  Js.or donutData (JArray []) = JArray segments ->
  Forall (fun d => Js.nullish d = false) segments ->
  createOrUpdateDonutChart donutData w
  = Completed tt
      (if can_draw "mentionsDonutChart" w
       then W.set_mentionsDonutChart (Some (donut_chart_of segments)) w
       else w).
Proof.
  intros Hdata Hseg.
  unfold createOrUpdateDonutChart, can_draw, Stmt.bind, Stmt.read, Stmt.ret, Stmt.eval,
    Stmt.modify.
  destruct (elem "mentionsDonutChart" w) as [canvas|].
  - rewrite bool_decide_eq_true_2 by (eexists; reflexivity).
    destruct (hasChart w); [|reflexivity]. cbn [negb andb].
    rewrite Hdata, !(pluck_segments _ _ Hseg). cbv beta iota zeta delta [Stmt.ret].
    rewrite imap_color, length_fmap.
    destruct (mentionsDonutChart w); reflexivity.
  - rewrite bool_decide_eq_false_2 by (intros [x Hx]; discriminate). reflexivity.
Qed.

Lemma color_period i : color (i + 10) = color i.
Proof.
  unfold color. change (length chartColors) with 10.
  rewrite <- (Nat.mul_1_l 10) at 1. rewrite Nat.Div0.mod_add. reflexivity.
Qed.

(** X22. The doughnut chart holds the segments of the response as they come: a
    label and a value a segment, in the order of the response, none left out
    and none merged, each with the colour of the palette at its position,
    the palette starting over after ten. The chart is replaced as a whole,
    whatever it held before; nothing is drawn, and nothing else is changed,
    without a canvas or without the chart library. No segment is null. *)
Theorem donut_chart_segments (donutData : JsVal) (segments : list JsVal) (w : World) :
  Js.or donutData (JArray []) = JArray segments ->
  Forall (fun d => Js.nullish d = false) segments ->
  createOrUpdateDonutChart donutData w
  = Completed tt
      (if can_draw "mentionsDonutChart" w
       then W.set_mentionsDonutChart (Some (donut_chart_of segments)) w
       else w)
  /\ length (donut_labels (donut_chart_of segments)) = length segments
  /\ length (donut_values (donut_chart_of segments)) = length segments
  /\ length (donut_colors (donut_chart_of segments)) = length segments
  /\ (forall i, i < length segments ->
        donut_colors (donut_chart_of segments) !! i = Some (color i))
  /\ (forall i, color (i + 10) = color i)
  /\ color <$> seq 0 10 = JString <$> chartColors.
Proof.
  intros Hdata Hseg.
  split; [exact (createOrUpdateDonutChart_eq _ _ _ Hdata Hseg)|].
  cbn [donut_chart_of donut_labels donut_values donut_colors].
  rewrite !length_fmap, length_seq.
  split; [reflexivity|]. split; [reflexivity|]. split; [reflexivity|].
  split; [|split; [exact color_period|reflexivity]].
  intros i Hi. rewrite list_lookup_fmap, lookup_seq_lt by exact Hi. reflexivity.
Qed.

Lemma eqb_visibility_rank metric :
  metric = "visibility" \/ metric = "rank" ->
  String.eqb metric "visibility" = negb (String.eqb metric "rank").
Proof. intros [-> | ->]; reflexivity. Qed.

(** X23. A tab of the trend chart shows the metric it stands for from what the
    trend state holds: the chart has the labels of the state and the
    datasets of that metric, the axis starts at zero for the visibility only
    and is titled after the metric; the tab of the metric is the active one
    and the other is not. Nothing is fetched: no request is sent, and the
    datasets and the labels of the state are as they were, so going to the
    other metric and back shows the same chart. Without a canvas or without
    the chart library a click on a tab changes nothing, not even which tab
    is active. *)
Theorem trend_tab_switch (metric : string) (w : World) :
  metric = "visibility" \/ metric = "rank" ->
  let w' := createOrUpdateTrendChart metric w in
  (can_draw "visibilityTrendChart" w = false -> w' = w)
  /\ (can_draw "visibilityTrendChart" w = true ->
      visibilityTrendChart w' = Some (trend_chart_of metric w)
      /\ currentMetric (trendState w') = metric
      /\ (is_Some (elem "trendTabVisibility" w) -> is_Some (elem "trendTabRank" w) ->
          El.has_class "active" <$> elem "trendTabVisibility" w'
          = Some (String.eqb metric "visibility")
          /\ El.has_class "active" <$> elem "trendTabRank" w'
             = Some (String.eqb metric "rank")))
  /\ datasets w' = datasets w
  /\ trend_labels w' = trend_labels w
  /\ network w' = network w
  /\ timers w' = timers w
  /\ (forall other,
        visibilityTrendChart
          (createOrUpdateTrendChart metric (createOrUpdateTrendChart other w))
        = visibilityTrendChart w').
Proof.
  intros Hmetric w'.
  assert (forall m w0,
             datasets (createOrUpdateTrendChart m w0) = datasets w0
             /\ trend_labels (createOrUpdateTrendChart m w0) = trend_labels w0) as Hstate.
  { intros m w0.
    split; [apply (view_createOrUpdateTrendChart _ Blind_datasets)
           |apply (view_createOrUpdateTrendChart _ Blind_trend_labels)]. }
  assert (forall m w0,
             trend_chart_of metric (createOrUpdateTrendChart m w0)
             = trend_chart_of metric w0) as Hchart.
  { intros m w0. destruct (Hstate m w0) as [Hd Hl].
    unfold datasets in Hd. injection Hd as Hv Hr. unfold trend_labels in Hl.
    unfold trend_chart_of. rewrite Hv, Hr, Hl. reflexivity. }
  subst w'. split; [|split; [|split; [|split; [|split; [|split]]]]].
  - intros Hno. rewrite createOrUpdateTrendChart_eq, Hno. reflexivity.
  - intros Hyes. rewrite createOrUpdateTrendChart_eq, Hyes.
    split; [rewrite (doc_setTrendTabs visibilityTrendChart) by reflexivity; reflexivity|].
    split; [rewrite (doc_setTrendTabs (fun w0 => currentMetric (trendState w0)))
              by reflexivity; reflexivity|].
    intros [tv Htv] [tr Htr]. unfold setTrendTabs.
    change (elem ?id (W.set_trendState _ (W.set_visibilityTrendChart _ w)))
      with (elem id w).
    rewrite Htv, Htr. rewrite (eqb_visibility_rank _ Hmetric).
    destruct (String.eqb metric "rank"); cbn [negb]; elem_simpl;
      change (elem ?id (W.set_trendState _ (W.set_visibilityTrendChart _ w)))
        with (elem id w);
      rewrite Htv, Htr; cbn [fmap option_fmap option_map];
      rewrite ?has_class_add_class, ?has_class_remove_class; split; reflexivity.
  - exact (proj1 (Hstate metric w)).
  - exact (proj2 (Hstate metric w)).
  - apply (view_createOrUpdateTrendChart _ Blind_network).
  - apply (view_createOrUpdateTrendChart _ Blind_timers).
  - intros other.
    assert (can_draw "visibilityTrendChart" (createOrUpdateTrendChart other w)
            = can_draw "visibilityTrendChart" w) as Hcan.
    { apply can_draw_same; [apply elem_createOrUpdateTrendChart; discriminate|].
      apply (view_createOrUpdateTrendChart _ Blind_hasChart). }
    rewrite (createOrUpdateTrendChart_eq metric (createOrUpdateTrendChart other w)).
    rewrite (createOrUpdateTrendChart_eq metric w), Hcan.
    destruct (can_draw "visibilityTrendChart" w) eqn:Hdraw.
    + rewrite !(doc_setTrendTabs visibilityTrendChart) by reflexivity.
      cbn [visibilityTrendChart W.set_trendState W.set_visibilityTrendChart].
      rewrite Hchart. reflexivity.
    + rewrite (createOrUpdateTrendChart_eq other w), Hdraw. reflexivity.
Qed.

(** ** A response without metrics *)

Lemma buildDatasets_empty_array b : buildDatasetsFromSeries (JArray []) b = Value [].
Proof.
  unfold buildDatasetsFromSeries. cbn [Js.truthy negb].
  destruct (JsString.is_empty b); reflexivity.
Qed.

(** X24. A response without metrics empties the charts. The analysis does not
    tell the body of an error from a result, so a body that has no metrics
    (or that is null) is rendered like a result that holds nothing:
    [updateChartsFromAnalysis] completes, the trend state has no labels and
    no datasets, the trend chart, when there is one to draw, is the empty
    one for the visibility metric, so is the doughnut chart, and the topic
    dropdown holds the topics of step 2. *)
Theorem charts_emptied_without_metrics
    (data : JsVal) (brandName topicsText : string) (w : World) :
  Js.truthy (Js.get_opt "metrics" data) = false ->
  exists w',
    updateChartsFromAnalysis data brandName topicsText w = Completed tt w'
    /\ trend_labels w' = JArray []
    /\ datasets w' = ([], [])
    /\ (can_draw "visibilityTrendChart" w = true ->
        visibilityTrendChart w'
        = Some {| chart_labels := JArray []; chart_datasets := [];
                  beginAtZero := true; yTitle := "Share of Voice (%)" |})
    /\ (can_draw "mentionsDonutChart" w = true ->
        mentionsDonutChart w'
        = Some {| donut_labels := []; donut_values := []; donut_colors := [] |})
    /\ elem "trendTopicSelect" w'
       = El.set_options (topic_options (parseTopics (JString topicsText)))
           <$> elem "trendTopicSelect" w.
Proof.
  intros Hmetrics.
  assert (Js.or (Js.get_opt "metrics" data) (JObject []) = JObject []) as Hm
    by (unfold Js.or; rewrite Hmetrics; reflexivity).
  set (w1 := W.set_trendState (W.set_rankDatasets [])
               (W.set_trendState (W.set_visibilityDatasets [])
                  (W.set_trendState (W.set_labels (JArray [])) w))).
  set (w2 := createOrUpdateTrendChart "visibility" w1).
  set (w3 := if can_draw "mentionsDonutChart" w2
             then W.set_mentionsDonutChart (Some (donut_chart_of [])) w2 else w2).
  assert (updateChartsFromAnalysis data brandName topicsText w
          = Completed tt (populateTopicDropdown (parseTopics (JString topicsText)) w3))
    as Hrun.
  { unfold updateChartsFromAnalysis. rewrite Hm.
    change (Js.or (Js.prop "trend" (JObject [])) (JObject [])) with (JObject []).
    change (Js.or (Js.prop "donut" (JObject [])) (JArray [])) with (JArray []).
    change (Js.or (Js.prop "labels" (JObject [])) (JArray [])) with (JArray []).
    change (Js.or (Js.prop "visibility" (JObject [])) (JArray [])) with (JArray []).
    change (Js.or (Js.prop "avg_rank" (JObject [])) (JArray [])) with (JArray []).
    cbn zeta. rewrite !buildDatasets_empty_array.
    unfold Stmt.bind at 1. unfold Stmt.modify at 1.
    unfold Stmt.bind at 1. unfold Stmt.eval at 1. unfold Stmt.ret at 1.
    unfold Stmt.bind at 1. unfold Stmt.modify at 1.
    unfold Stmt.bind at 1. unfold Stmt.eval at 1. unfold Stmt.ret at 1.
    unfold Stmt.bind at 1. unfold Stmt.modify at 1.
    unfold Stmt.bind at 1. unfold Stmt.modify at 1.
    fold w1. fold w2. unfold Stmt.bind at 1.
    rewrite (createOrUpdateDonutChart_eq (JArray []) [] w2 eq_refl) by constructor.
    reflexivity. }
  assert (elem "mentionsDonutChart" w2 = elem "mentionsDonutChart" w
          /\ elem "trendTopicSelect" w2 = elem "trendTopicSelect" w
          /\ hasChart w2 = hasChart w) as (Hcanvas2 & Hselect2 & Hlib2).
  { unfold w2. rewrite !elem_createOrUpdateTrendChart by discriminate.
    rewrite (view_createOrUpdateTrendChart _ Blind_hasChart). repeat split; reflexivity. }
  exists (populateTopicDropdown (parseTopics (JString topicsText)) w3).
  split; [exact Hrun|].
  split.
  { rewrite (doc_populateTopicDropdown trend_labels) by reflexivity.
    unfold w3. destruct (can_draw "mentionsDonutChart" w2);
      apply (view_createOrUpdateTrendChart _ Blind_trend_labels). }
  split.
  { rewrite (doc_populateTopicDropdown datasets) by reflexivity.
    unfold w3. destruct (can_draw "mentionsDonutChart" w2);
      apply (view_createOrUpdateTrendChart _ Blind_datasets). }
  split.
  { intros Hdraw. rewrite (doc_populateTopicDropdown visibilityTrendChart) by reflexivity.
    assert (visibilityTrendChart w3 = visibilityTrendChart w2) as ->
      by (unfold w3; destruct (can_draw "mentionsDonutChart" w2); reflexivity).
    unfold w2. rewrite createOrUpdateTrendChart_eq.
    rewrite (can_draw_same "visibilityTrendChart" w w1 eq_refl eq_refl), Hdraw.
    rewrite (doc_setTrendTabs visibilityTrendChart) by reflexivity. reflexivity. }
  split.
  { intros Hdraw. rewrite (doc_populateTopicDropdown mentionsDonutChart) by reflexivity.
    unfold w3. rewrite (can_draw_same _ _ _ Hcanvas2 Hlib2), Hdraw. reflexivity. }
  rewrite elem_populateTopicDropdown.
  assert (elem "trendTopicSelect" w3 = elem "trendTopicSelect" w2) as ->
    by (unfold w3; destruct (can_draw "mentionsDonutChart" w2); reflexivity).
  rewrite Hselect2. reflexivity.
Qed.

(** ** The names and the numbers of the scorecards *)

Lemma number_or_zero_not_NaN raw n : number_or_zero raw = Value n -> n <> NaN.
Proof.
  unfold number_or_zero. destruct (ToNumber raw) as [m|]; [|discriminate].
  cbn [Js.exc_bind]. intros [= <-].
  destruct m; cbn; try discriminate. destruct (Qeq_bool q 0); discriminate.
Qed.

Lemma or_default shown default :
  default <> "" ->
  Js.or (Js.or (JString shown) (JString "")) (JString default)
  = JString (if JsString.is_empty shown then default else shown).
Proof.
  intros Hd. unfold Js.or. cbn [Js.truthy].
  destruct (JsString.is_empty shown) eqn:Hs; cbn [negb].
  - cbn [Js.truthy JsString.is_empty negb]. reflexivity.
  - cbn [Js.truthy]. rewrite Hs. reflexivity.
Qed.

(** [Number(x ?? 0) || 0] for a metric [x] that is no object: [x] converts
    to a number, and that number is taken unless it is NaN or zero. *)
Lemma number_or_zero_coalesce v :
  primitive v = true ->
  exists n,
    ToNumber v = Value n
    /\ number_or_zero (Js.coalesce v (JNumber (Num.of_Z 0)))
       = Value (if Num.truthy n then n else Num.of_Z 0).
Proof. destruct v; try discriminate; intros _; eexists; split; reflexivity. Qed.

(** X25. The scorecards name the brand of the response, or the brand of step 2
    when the response names none, or "Brand" (in the labels) and "brand" (in
    the subtitles) when both are empty; and each of the three values shows
    the metric of the response: [brand_share_pct], [avg_rank] and
    [citations] each convert to a number as [Number(...)] does, zero stands
    in for a number that is NaN (as for a metric that is absent), the share
    and the rank are printed by [toFixed(1)] and the citations by
    [toString()], so that no card shows NaN. The name of the response is a
    string where it is present, and the metrics are no objects. *)
Theorem scorecards_show_brand_and_numbers
    (data : JsVal) (fallbackBrandName : string) (w : World) :
  let metrics := Js.or (Js.get_opt "metrics" data) (JObject []) in
  let name := Js.get_opt "name" (Js.get_opt "brand" data) in
  let shown := field_or name fallbackBrandName in
  let or_zero := fun n : JsNum => if Num.truthy n then n else Num.of_Z 0 in
  optional_string name = true ->
  primitive (Js.prop "brand_share_pct" metrics) = true ->
  primitive (Js.prop "avg_rank" metrics) = true ->
  primitive (Js.prop "citations" metrics) = true ->
  exists w' share rank cites,
    updateMetricCardsFromAnalysis data fallbackBrandName w = Completed tt w'
    /\ (forall id, id ∈ ["cardBrandMentionsLabel"; "cardBrandAvgRankLabel"] ->
        textContent <$> elem id w'
        = (fun _ => if JsString.is_empty shown then "Brand" else shown) <$> elem id w)
    /\ (forall id,
          id ∈ ["cardBrandMentionsSubtitle"; "cardBrandAvgRankSubtitle";
                "cardBrandCitationsSubtitle"] ->
          textContent <$> elem id w'
          = (fun _ => if JsString.is_empty shown then "brand" else shown) <$> elem id w)
    /\ ToNumber (Js.prop "brand_share_pct" metrics) = Value share
    /\ ToNumber (Js.prop "avg_rank" metrics) = Value rank
    /\ ToNumber (Js.prop "citations" metrics) = Value cites
    /\ or_zero share <> NaN /\ or_zero rank <> NaN /\ or_zero cites <> NaN
    /\ textContent <$> elem "cardMentionsValue" w'
       = (fun _ => toFixed1 (or_zero share)) <$> elem "cardMentionsValue" w
    /\ textContent <$> elem "cardAvgRankValue" w'
       = (fun _ => toFixed1 (or_zero rank)) <$> elem "cardAvgRankValue" w
    /\ textContent <$> elem "cardCitationsValue" w'
       = (fun _ => number_toString (or_zero cites)) <$> elem "cardCitationsValue" w.
Proof.
  intros metrics name shown or_zero Hname Hshare Hrank Hcit.
  unfold updateMetricCardsFromAnalysis. fold metrics. fold name.
  rewrite (or_field_or _ fallbackBrandName Hname). fold shown.
  rewrite !or_default by discriminate.
  destruct (number_or_zero_coalesce _ Hshare) as [share [Hshare_n Hmentions]].
  destruct (number_or_zero_coalesce _ Hrank) as [rank [Hrank_n HavgRank]].
  destruct (number_or_zero_coalesce _ Hcit) as [cites [Hcites_n Hcitations]].
  fold (or_zero share) in Hmentions. fold (or_zero rank) in HavgRank.
  fold (or_zero cites) in Hcitations.
  cbn zeta. unfold Stmt.bind, Stmt.eval, Stmt.modify, Stmt.ret.
  rewrite Hmentions, HavgRank, Hcitations.
  repeat first
    [ progress unfold assign_textContent
    | rewrite (assign_converts _ text_of _ (JString _) _ _ eq_refl)
    | progress cbv beta iota ].
  eexists _, share, rank, cites. split; [reflexivity|].
  split.
  { intros id Hid.
    repeat (apply elem_of_cons in Hid as [->|Hid];
            [elem_simpl; match goal with |- context [elem ?i w] => destruct (elem i w) end;
             reflexivity|]).
    destruct (proj1 (elem_of_nil _) Hid). }
  split.
  { intros id Hid.
    repeat (apply elem_of_cons in Hid as [->|Hid];
            [elem_simpl; match goal with |- context [elem ?i w] => destruct (elem i w) end;
             reflexivity|]).
    destruct (proj1 (elem_of_nil _) Hid). }
  split; [exact Hshare_n|]. split; [exact Hrank_n|]. split; [exact Hcites_n|].
  split; [exact (number_or_zero_not_NaN _ _ Hmentions)|].
  split; [exact (number_or_zero_not_NaN _ _ HavgRank)|].
  split; [exact (number_or_zero_not_NaN _ _ Hcitations)|].
  split; [elem_simpl; destruct (elem "cardMentionsValue" w); reflexivity|].
  split; [elem_simpl; destruct (elem "cardAvgRankValue" w); reflexivity|].
  elem_simpl. destruct (elem "cardCitationsValue" w); reflexivity.
Qed.

(** ** Closing the modal *)

Lemma remove_class_twice c e :
  El.remove_class c (El.remove_class c e) = El.remove_class c e.
Proof.
  unfold El.remove_class, El.set_classList. cbn. f_equal.
  apply filter_all. intros x Hx. apply list_elem_of_filter in Hx as [Hne _]. exact Hne.
Qed.

(** X26. Closing the modal hides it and does nothing else: the backdrop loses
    the class that makes it visible and every other element is as it was, so
    the draft in the fields survives the closing (it is the opening that
    discards it); no request is cancelled, the continuations that wait for a
    response keep waiting, and the timer keeps running. Closing a closed
    modal changes nothing. The close button, the two cancel buttons and a
    click on the backdrop all do just this. *)
Theorem closeModal_keeps_draft (w : World) :
  El.has_class "is-visible" <$> elem "brandModalBackdrop" (closeModal w)
  = (fun _ => false) <$> elem "brandModalBackdrop" w
  /\ (forall id, id <> "brandModalBackdrop" -> elem id (closeModal w) = elem id w)
  /\ (forall id, id <> "brandModalBackdrop" -> field id (closeModal w) = field id w)
  /\ network (closeModal w) = network w
  /\ script_state (closeModal w) = script_state w
  /\ closeModal (closeModal w) = closeModal w
  /\ (forall id,
        id ∈ ["closeBrandModal"; "cancelBrandModal"; "cancelBrandModalStep2";
              "brandModalBackdrop"] ->
        Stmt.run (listener id) w = closeModal w).
Proof.
  split.
  { unfold closeModal. rewrite elem_update.
    destruct (elem "brandModalBackdrop" w) as [e|]; [|reflexivity].
    cbn [fmap option_fmap option_map]. f_equal. apply has_class_remove_class. }
  split; [intros id Hid; unfold closeModal; apply elem_update_ne; congruence|].
  split; [intros id Hid; apply field_closeModal; exact Hid|].
  split; [reflexivity|]. split; [reflexivity|].
  split.
  { unfold closeModal, update. destruct w as [d ? ? ? ? ? ? ? ? ? ?].
    unfold W.set_dom. cbn. f_equal. rewrite alter_alter_eq.
    apply alter_ext. intros e _. apply remove_class_twice. }
  intros id Hid.
  repeat (apply elem_of_cons in Hid as [->|Hid]; [reflexivity|]).
  destruct (proj1 (elem_of_nil _) Hid).
Qed.

(** ** Names of white space *)

Lemma trimStart_all_space s : all_space s = true -> JsString.trimStart s = "".
Proof.
  induction s as [|c r IH]; [reflexivity|]. cbn. intros H.
  apply andb_true_iff in H as [Hc Hr]. rewrite Hc. exact (IH Hr).
Qed.

Lemma all_space_app a b : all_space (a +:+ b) = all_space a && all_space b.
Proof.
  induction a as [|c r IH]; [reflexivity|].
  change (String c r +:+ b) with (String c (r +:+ b)). cbn [all_space].
  rewrite IH, andb_assoc. reflexivity.
Qed.

Lemma trim_empty_iff s : JsString.trim s = "" <-> all_space s = true.
Proof.
  split.
  - intros Hempty. destruct (trim_decompose s) as (pre & post & Hs & Hpre & Hpost).
    rewrite Hempty in Hs. rewrite Hs, !all_space_app, Hpre, Hpost. reflexivity.
  - intros Hs. unfold JsString.trim. rewrite (trimStart_all_space _ Hs). reflexivity.
Qed.

Lemma app_singleton_ne {A} (l : list A) x : l ++ [x] <> l.
Proof.
  intros H. apply (f_equal length) in H. rewrite length_app in H. cbn in H. lia.
Qed.

(** X27. The names that the wizard turns down are those of white space only: a
    click on Next, or on Regenerate, sends its lookup exactly when the name
    it reads holds a character that is no white space, and a click on Create
    sends its analysis exactly when the name of step 2 does; tabs, line
    breaks and no-break spaces count as white space. The page has the Next
    button and the name field of step 2. *)
Theorem blank_names_send_nothing (useRegenerate : bool) (w : World) :
  is_Some (elem "brandStepNext" w) ->
  is_Some (elem "brandNameStep2" w) ->
  let lookupName :=
    field (if useRegenerate then "brandNameStep2" else "brandNameStep1") w in
  (requests (Stmt.run (goToStep2 useRegenerate) w) = requests w
   <-> all_space lookupName = true)
  /\ (requests (Stmt.run createBtn_click w) = requests w
      <-> all_space (field "brandNameStep2" w) = true)
  /\ all_space (String "009" (String "160" (String "010" " "))) = true.
Proof.
  intros Hbtn Hinput lookupName. split; [|split; [|reflexivity]].
  - rewrite <- trim_empty_iff. unfold Stmt.run.
    rewrite (goToStep2_unfold _ _ Hbtn). fold lookupName.
    destruct (JsString.is_empty (JsString.trim lookupName)) eqn:Hname.
    + apply is_empty_true in Hname. rewrite showError_string.
      split; [intros _; exact Hname|reflexivity].
    + pose proof (is_empty_nonempty _ Hname) as Hne.
      destruct (goToStep2_sends useRegenerate w Hbtn Hne) as [w2 [Hrun Hnet]].
      rewrite (goToStep2_unfold _ _ Hbtn) in Hrun. fold lookupName in Hrun.
      rewrite Hname in Hrun. rewrite Hrun. cbn [Stmt.world_of fetch W.set_network requests].
      unfold network in Hnet. injection Hnet as -> _.
      split; [intros H; destruct (app_singleton_ne _ _ H)|intros H; destruct (Hne H)].
  - rewrite <- trim_empty_iff. unfold Stmt.run, createBtn_click.
    rewrite world_of_bind_modify.
    assert (is_Some (elem "brandNameStep2" (closeModal w))) as Hinput'
      by (unfold closeModal; rewrite elem_update_ne by discriminate; exact Hinput).
    rewrite (runBrandAnalysisFromStep2_unfold _ Hinput').
    rewrite !field_closeModal by discriminate.
    destruct (JsString.is_empty (JsString.trim (field "brandNameStep2" w))) eqn:Hname.
    + apply is_empty_true in Hname. split; [intros _; exact Hname|reflexivity].
    + pose proof (is_empty_nonempty _ Hname) as Hne.
      cbn [Stmt.world_of fetch W.set_network requests].
      match goal with |- context [requests (startProgressAnimation ?x)] =>
        destruct (startProgressAnimation_handle x) as (_ & _ & _ & Hreq & _);
        rewrite Hreq
      end.
      change (requests (update ?a ?b ?c)) with (requests c).
      change (requests (update ?a ?b ?c)) with (requests c).
      change (requests (update ?a ?b ?c)) with (requests c).
      change (requests (showAnalysisBar (closeModal w))) with (requests w).
      split; [intros H; destruct (app_singleton_ne _ _ H)|intros H; destruct (Hne H)].
Qed.

End Script.

(** ** Instances

    The theorems at the pages and responses above. *)

Lemma buildDatasets_focal_first_capped_witness :
  Forall (fun v => is_object v = true)
    [series_object "A" [1; 2]%Z; series_object "B" [3; 4]%Z]
  /\ "B" <> ""
  /\ exists datasets,
       buildDatasetsFromSeries
         (JArray [series_object "A" [1; 2]%Z; series_object "B" [3; 4]%Z]) "B"
       = Value datasets
       /\ label <$> datasets = [JString "B"; JString "A"]
       /\ length datasets <= 10.
Proof.
  assert (Forall (fun v => is_object v = true)
            [series_object "A" [1; 2]%Z; series_object "B" [3; 4]%Z]) as Hobj
    by (repeat constructor).
  assert ("B" <> "") as Hb by discriminate.
  split; [exact Hobj|]. split; [exact Hb|].
  destruct (buildDatasets_focal_first_capped _ "B" Hobj Hb)
    as [datasets (Hbuilt & _ & Hlabels & _ & _ & Hlen & _)].
  exists datasets. split; [exact Hbuilt|]. split; [|exact Hlen].
  rewrite Hlabels. reflexivity.
Defined.

Lemma goToStep2_requests_iff_name_witness :
  is_Some (elem "brandStepNext" step1_filled)
  /\ requests (Stmt.run (goToStep2 no_shortest_repr false) step1_filled)
     = [LookupRequest "Acme" ""]
  /\ requests (Stmt.run (goToStep2 no_shortest_repr false) example_world) = [].
Proof.
  assert (is_Some (elem "brandStepNext" step1_filled)) as Hbtn
    by (eexists; vm_compute; reflexivity).
  assert (is_Some (elem "brandStepNext" example_world)) as Hbtn'
    by (eexists; vm_compute; reflexivity).
  split; [exact Hbtn|]. split.
  - pose proof (goToStep2_requests_iff_name no_shortest_repr false step1_filled Hbtn)
      as Hthm.
    cbv zeta in Hthm. destruct Hthm as [Hsend _].
    destruct Hsend as [Hreq _]; [vm_compute; discriminate|].
    rewrite Hreq. vm_compute. reflexivity.
  - pose proof (goToStep2_requests_iff_name no_shortest_repr false example_world Hbtn')
      as Hthm.
    cbv zeta in Hthm. destruct Hthm as (_ & Hnone & _).
    destruct Hnone as [Hreq _]; [vm_compute; reflexivity|].
    rewrite Hreq. reflexivity.
Defined.

(** The claim C3 fails where the name of step 2 is white space only: the
    modal is open before the click on Create and closed after it. *)
Lemma createBtn_click_closes_modal_on_blank_name :
  El.has_class "is-visible" <$> elem "brandModalBackdrop" step2_blank = Some true
  /\ JsString.trim (field "brandNameStep2" step2_blank) = ""
  /\ El.has_class "is-visible"
       <$> elem "brandModalBackdrop"
             (Stmt.run (createBtn_click no_shortest_repr) step2_blank)
     = Some false
  /\ El.has_class "is-visible"
       <$> elem "brandModalBackdrop"
             (step no_shortest_repr no_StringToNumber (Click "brandCreateBtn") step2_blank)
     = Some false.
Proof. vm_compute. repeat split; reflexivity. Qed.

Lemma createBtn_click_effects_witness :
  is_Some (elem "brandNameStep2" step2_filled)
  /\ requests (Stmt.run (createBtn_click no_shortest_repr) step2_filled)
     = [AnalyzeRequest "Acme" "" "" "" "" ("pricing" +:+ newline +:+ "support")]
  /\ progressInterval (Stmt.run (createBtn_click no_shortest_repr) step2_filled) = Some 1
  /\ Stmt.run (createBtn_click no_shortest_repr) step2_blank = closeModal step2_blank.
Proof.
  assert (is_Some (elem "brandNameStep2" step2_filled)) as Hfilled
    by (eexists; vm_compute; reflexivity).
  assert (is_Some (elem "brandNameStep2" step2_blank)) as Hblank
    by (eexists; vm_compute; reflexivity).
  pose proof (createBtn_click_effects no_shortest_repr step2_filled Hfilled) as Hthm.
  pose proof (createBtn_click_effects no_shortest_repr step2_blank Hblank) as Hthm'.
  cbv zeta in Hthm, Hthm'.
  destruct Hthm as (_ & _ & Hrun). destruct Hthm' as (_ & Hnop & _).
  destruct Hrun as (Hreq & Hhandle & _ & _); [vm_compute; discriminate|].
  split; [exact Hfilled|]. split; [rewrite Hreq; vm_compute; reflexivity|].
  split; [rewrite Hhandle; reflexivity|].
  apply Hnop. vm_compute. reflexivity.
Defined.

(** The claim C4 fails in two ways, each time on two inputs that present the
    same names in the same order. Where the forms differ: with the focal
    name constructor, for which every mapping inherits a value, the array
    [{name: A}] gives the label A alone and the mapping {A: [1]} gives
    constructor before A. Where the value under the focal name is falsy in
    one input: with the focal name B, the mapping {A: [1], B: [2]} gives B
    before A and the mapping {A: [1], B: null} gives A before B; a response
    that holds these two mappings leaves the two metrics of the trend state
    with these two orders. *)
Lemma series_order_differs_with_same_names :
  (series_names example_array_A = series_names example_mapping_A
   /\ dataset_labels (buildDatasetsFromSeries example_array_A "constructor")
      = Value [JString "A"]
   /\ dataset_labels (buildDatasetsFromSeries example_mapping_A "constructor")
      = Value [JString "constructor"; JString "A"])
  /\ (series_names example_mapping_AB = series_names (JObject example_mapping)
      /\ dataset_labels (buildDatasetsFromSeries example_mapping_AB "B")
         = Value [JString "B"; JString "A"]
      /\ dataset_labels (buildDatasetsFromSeries (JObject example_mapping) "B")
         = Value [JString "A"; JString "B"])
  /\ label
       <$> visibilityDatasets
             (trendState
                (Stmt.world_of (updateChartsFromAnalysis example_uneven "B" "" example_world)))
     = [JString "B"; JString "A"]
  /\ label
       <$> rankDatasets
             (trendState
                (Stmt.world_of (updateChartsFromAnalysis example_uneven "B" "" example_world)))
     = [JString "A"; JString "B"].
Proof. vm_compute. repeat split; reflexivity. Qed.

Lemma series_order_stable_witness :
  series_wf example_visibility /\ series_wf example_avg_rank
  /\ series_form example_visibility = series_form example_avg_rank
  /\ series_names example_visibility = series_names example_avg_rank
  /\ dataset_labels (buildDatasetsFromSeries example_visibility "B")
     = dataset_labels (buildDatasetsFromSeries example_avg_rank "B")
  /\ (let w' :=
        Stmt.world_of (updateChartsFromAnalysis example_analysis "B" "" example_world) in
      label <$> visibilityDatasets (trendState w')
      = label <$> rankDatasets (trendState w')).
Proof.
  assert (series_wf example_visibility) as Hv by (repeat constructor).
  assert (series_wf example_avg_rank) as Hr by (repeat constructor).
  destruct (series_order_stable example_visibility example_avg_rank "B" Hv Hr eq_refl eq_refl)
    as [lbls (Hvis & Hrank & Hworld)].
  split; [exact Hv|]. split; [exact Hr|].
  split; [reflexivity|]. split; [reflexivity|].
  split; [rewrite Hvis, Hrank; reflexivity|].
  destruct (Hworld example_analysis "" example_world eq_refl eq_refl) as [Hlv Hlr].
  cbv zeta. rewrite Hlv, Hlr. reflexivity.
Defined.

Lemma lookup_fields_fall_back_witness :
  is_Some (elem "brandStepNext" step1_filled)
  /\ JsString.trim (field "brandNameStep1" step1_filled) <> ""
  /\ lookup_succeeded 200 example_lookup
  /\ (let w' :=
        Stmt.run
          (resume no_shortest_repr no_StringToNumber (PendingLookup "Acme" "")
             (Responded 200 (Some example_lookup)))
          (Stmt.run (goToStep2 no_shortest_repr false) step1_filled) in
      value <$> elem "brandNameStep2" w' = Some "Acme"
      /\ value <$> elem "brandUrlStep2" w' = Some "https://acme.example"
      /\ value <$> elem "brandRegionStep2" w' = Some "").
Proof.
  assert (is_Some (elem "brandStepNext" step1_filled)) as Hbtn
    by (eexists; vm_compute; reflexivity).
  assert (JsString.trim (field "brandNameStep1" step1_filled) <> "") as Hname
    by (vm_compute; discriminate).
  assert (lookup_succeeded 200 example_lookup) as Hsucc
    by (repeat split; reflexivity).
  pose proof (lookup_fields_fall_back no_shortest_repr no_StringToNumber false
                step1_filled
                (Stmt.run (goToStep2 no_shortest_repr false) step1_filled)
                200 example_lookup Hbtn Hname Hsucc
                eq_refl eq_refl eq_refl eq_refl eq_refl eq_refl) as Hthm.
  cbv zeta in Hthm. destruct Hthm as (_ & _ & Hfields & _).
  destruct Hfields as (Hn & _ & Hu & Hr & _).
  split; [exact Hbtn|]. split; [exact Hname|]. split; [exact Hsucc|].
  cbv zeta. split; [|split].
  - etransitivity; [exact Hn|]. vm_compute. reflexivity.
  - etransitivity; [exact Hu|]. vm_compute. reflexivity.
  - etransitivity; [exact Hr|]. vm_compute. reflexivity.
Defined.

Lemma at_most_one_progress_timer_witness :
  Reachable no_shortest_repr no_StringToNumber
    (created_twice no_shortest_repr no_StringToNumber)
  /\ intervals (created_twice no_shortest_repr no_StringToNumber) = [2]
  /\ length (intervals (created_twice no_shortest_repr no_StringToNumber)) <= 1
  /\ visualProgress
       (tickAll no_shortest_repr no_StringToNumber
          (created_twice no_shortest_repr no_StringToNumber))
     <= visualProgress (created_twice no_shortest_repr no_StringToNumber) + 1.
Proof.
  assert (Reachable no_shortest_repr no_StringToNumber
            (created_twice no_shortest_repr no_StringToNumber)) as Hreach.
  { unfold created_twice, step2_filled, example_world.
    do 2 apply reach_step.
    change (update "brandTopicsStep2" ?f ?w)
      with (step no_shortest_repr no_StringToNumber
              (Input "brandTopicsStep2" (" pricing" +:+ newline +:+ "support ")) w).
    apply reach_step.
    change (update "brandNameStep2" ?f ?w)
      with (step no_shortest_repr no_StringToNumber (Input "brandNameStep2" " Acme ") w).
    apply reach_step.
    change (openModal ?w)
      with (step no_shortest_repr no_StringToNumber (Click "openBrandModal") w).
    apply reach_step. apply reach_initial. }
  destruct (at_most_one_progress_timer no_shortest_repr no_StringToNumber
              _ Hreach) as (Hlen & _ & _ & _ & _ & _ & Htick & _).
  split; [exact Hreach|]. split; [vm_compute; reflexivity|].
  split; [exact Hlen|exact Htick].
Defined.

Lemma updateAnalysisProgress_clamps_witness :
  Finite 150 <> NaN /\ Finite (-5) <> NaN
  /\ (let w' :=
        Stmt.world_of
          (updateAnalysisProgress no_shortest_repr (Finite 150) JUndefined JUndefined
             example_world) in
      width <$> elem "analysisProgressFill" w' = Some "100%"
      /\ textContent <$> elem "analysisPercentLabel" w' = Some "100%")
  /\ (let w' :=
        Stmt.world_of
          (updateAnalysisProgress no_shortest_repr (Finite (-5)) JUndefined JUndefined
             example_world) in
      width <$> elem "analysisProgressFill" w' = Some "0%"
      /\ textContent <$> elem "analysisPercentLabel" w' = Some "0%").
Proof.
  assert (Finite 150 <> NaN) as Hhigh by discriminate.
  assert (Finite (-5) <> NaN) as Hlow by discriminate.
  split; [exact Hhigh|]. split; [exact Hlow|]. split.
  - destruct (updateAnalysisProgress_clamps no_shortest_repr (Finite 150)
                JUndefined JUndefined example_world Hhigh)
      as (shown & rounded & _ & _ & Hsafe & Hround & Hfill & Hlabel).
    injection Hsafe as <-. injection Hround as <-.
    cbv zeta. split.
    + etransitivity; [exact Hfill|]. vm_compute. reflexivity.
    + etransitivity; [exact Hlabel|]. vm_compute. reflexivity.
  - destruct (updateAnalysisProgress_clamps no_shortest_repr (Finite (-5))
                JUndefined JUndefined example_world Hlow)
      as (shown & rounded & _ & _ & Hsafe & Hround & Hfill & Hlabel).
    injection Hsafe as <-. injection Hround as <-.
    cbv zeta. split.
    + etransitivity; [exact Hfill|]. vm_compute. reflexivity.
    + etransitivity; [exact Hlabel|]. vm_compute. reflexivity.
Defined.

Lemma parseTopics_splits_trims_drops_witness :
  "b" ∈ parseTopics (JString ("a" +:+ newline +:+ newline +:+ "b " +:+ newline))
  /\ "b" <> "" /\ JsString.trimmed "b"
  /\ has_LF "a" = false
  /\ JsString.split_lines ("a" +:+ String JsString.CR (String JsString.LF "b"))
     = ["a"; "b"].
Proof.
  destruct parseTopics_splits_trims_drops as (_ & Hone & _ & Hcrlf & Hexample & Hall).
  assert ("b" ∈ parseTopics (JString ("a" +:+ newline +:+ newline +:+ "b " +:+ newline)))
    as Hin by (rewrite Hexample; right; left).
  destruct (Hall _ _ Hin) as (Hne & Htrimmed & _).
  split; [exact Hin|]. split; [exact Hne|]. split; [exact Htrimmed|].
  split; [reflexivity|].
  rewrite (Hcrlf "a" "b" eq_refl), (Hone "b" eq_refl). reflexivity.
Defined.

(** An analysis response without a share and without an average rank. *)
Lemma updateMetricCards_defaults_witness :
  primitive (Js.get_opt "name" (Js.get_opt "brand" example_analysis)) = true
  /\ Js.nullish (Js.prop "brand_share_pct" (Js.get_opt "metrics" example_analysis)) = true
  /\ Js.nullish (Js.prop "avg_rank" (Js.get_opt "metrics" example_analysis)) = true
  /\ exists w',
       updateMetricCardsFromAnalysis no_shortest_repr no_StringToNumber
         example_analysis "Acme" example_world
       = Completed tt w'
       /\ textContent <$> elem "cardMentionsValue" w' = Some "0.0"
       /\ textContent <$> elem "cardAvgRankValue" w' = Some "0.0".
Proof.
  split; [reflexivity|]. split; [reflexivity|]. split; [reflexivity|].
  destruct (updateMetricCards_defaults no_shortest_repr no_StringToNumber
              example_analysis "Acme" example_world eq_refl eq_refl eq_refl eq_refl)
    as (w' & Hrun & Hshare & Hrank & _).
  exists w'. split; [exact Hrun|].
  split; [rewrite (Hshare eq_refl); vm_compute; reflexivity|].
  rewrite (Hrank eq_refl). vm_compute. reflexivity.
Defined.

Lemma parseTopics_total_on_malformed_witness :
  Js.typeof_string (JNumber (Num.of_Z 5)) = false
  /\ parseTopics (JNumber (Num.of_Z 5)) = []
  /\ parseTopics JNull = []
  /\ options
       <$> elem "trendTopicSelect"
             (populateTopicDropdown (parseTopics JNull) example_world)
     = Some [("", "All Topics")].
Proof.
  assert (is_Some (elem "trendTopicSelect" example_world)) as [e He]
    by (eexists; vm_compute; reflexivity).
  destruct (parseTopics_total_on_malformed (JNumber (Num.of_Z 5))
              (or_intror (or_intror (or_intror eq_refl)))) as [Hnum _].
  destruct (parseTopics_total_on_malformed JNull (or_introl eq_refl))
    as [Hnull Hdropdown].
  split; [reflexivity|]. split; [exact Hnum|]. split; [exact Hnull|].
  rewrite (Hdropdown example_world e He). reflexivity.
Defined.

(** ** The further properties at the pages and responses above *)

Lemma created_once_Reachable :
  Reachable no_shortest_repr no_StringToNumber
    (created_once no_shortest_repr no_StringToNumber).
Proof.
  unfold created_once, step2_filled, example_world.
  apply reach_step.
  change (update "brandTopicsStep2" ?f ?w)
    with (step no_shortest_repr no_StringToNumber
            (Input "brandTopicsStep2" (" pricing" +:+ newline +:+ "support ")) w).
  apply reach_step.
  change (update "brandNameStep2" ?f ?w)
    with (step no_shortest_repr no_StringToNumber (Input "brandNameStep2" " Acme ") w).
  apply reach_step.
  change (openModal ?w)
    with (step no_shortest_repr no_StringToNumber (Click "openBrandModal") w).
  apply reach_step. apply reach_initial.
Qed.

Lemma lookup_writes_wizard_only_witness :
  ("cardMentionsValue" ∉ wizard_ids)
  /\ elem "cardMentionsValue"
       (Stmt.run (goToStep2_resume no_shortest_repr "Acme" "" Rejected) example_world)
     = elem "cardMentionsValue" example_world
  /\ script_state (Stmt.run (goToStep2 no_shortest_repr false) step1_filled)
     = script_state step1_filled.
Proof.
  assert ("cardMentionsValue" ∉ wizard_ids) as Hid
    by (apply (bool_decide_unpack _); vm_compute; exact I).
  pose proof (lookup_writes_wizard_only no_shortest_repr false "Acme" "" Rejected
                _ example_world Hid) as Hthm.
  pose proof (lookup_writes_wizard_only no_shortest_repr false "Acme" "" Rejected
                _ step1_filled Hid) as Hthm'.
  cbv zeta in Hthm, Hthm'.
  destruct Hthm as (_ & Hback & _). destruct Hthm' as (_ & _ & _ & _ & Hstate & _).
  split; [exact Hid|]. split; [exact Hback|exact Hstate].
Defined.

Lemma analysis_writes_dashboard_only_witness :
  ("brandModalError" ∉ dashboard_ids)
  /\ elem "brandModalError"
       (Stmt.run
          (runBrandAnalysisFromStep2_resume no_shortest_repr no_StringToNumber
             "Acme" "" Rejected)
          example_world)
     = elem "brandModalError" example_world.
Proof.
  assert ("brandModalError" ∉ dashboard_ids) as Hid
    by (apply (bool_decide_unpack _); vm_compute; exact I).
  pose proof (analysis_writes_dashboard_only no_shortest_repr no_StringToNumber
                "Acme" "" Rejected _ example_world Hid) as Hthm.
  cbv zeta in Hthm. destruct Hthm as (_ & Hback & _).
  split; [exact Hid|exact Hback].
Defined.

Lemma analysis_bar_stays_shown_witness :
  bar_shown (created_once no_shortest_repr no_StringToNumber)
  /\ bar_shown
       (step no_shortest_repr no_StringToNumber (Settles 0 Rejected)
          (created_once no_shortest_repr no_StringToNumber)).
Proof.
  assert (bar_shown (created_once no_shortest_repr no_StringToNumber)) as Hshown.
  { exists (El.set_display "flex" El.blank). split; [vm_compute; reflexivity|].
    split; reflexivity. }
  split; [exact Hshown|].
  apply analysis_bar_stays_shown. exact Hshown.
Defined.

Lemma analysis_settled_stops_timer_witness :
  Reachable no_shortest_repr no_StringToNumber
    (created_once no_shortest_repr no_StringToNumber)
  /\ pending (created_once no_shortest_repr no_StringToNumber) !! 0
     = Some (PendingAnalysis "Acme" ("pricing" +:+ newline +:+ "support"))
  /\ intervals (created_once no_shortest_repr no_StringToNumber) = [1]
  /\ intervals
       (step no_shortest_repr no_StringToNumber (Settles 0 Rejected)
          (created_once no_shortest_repr no_StringToNumber))
     = [].
Proof.
  assert (pending (created_once no_shortest_repr no_StringToNumber) !! 0
          = Some (PendingAnalysis "Acme" ("pricing" +:+ newline +:+ "support")))
    as Hpending by (vm_compute; reflexivity).
  pose proof (analysis_settled_stops_timer no_shortest_repr no_StringToNumber
                _ 0 _ _ Rejected created_once_Reachable Hpending) as Hthm.
  cbv zeta in Hthm. destruct Hthm as (_ & Hnone & _).
  split; [exact created_once_Reachable|]. split; [exact Hpending|].
  split; [vm_compute; reflexivity|exact Hnone].
Defined.

Lemma progress_never_exceeds_90_witness :
  Reachable no_shortest_repr no_StringToNumber
    (created_once no_shortest_repr no_StringToNumber)
  /\ visualProgress
       (step no_shortest_repr no_StringToNumber (TimerFires 1)
          (created_once no_shortest_repr no_StringToNumber))
     <= 90.
Proof.
  split; [exact created_once_Reachable|].
  assert (Reachable no_shortest_repr no_StringToNumber
            (step no_shortest_repr no_StringToNumber (TimerFires 1)
               (created_once no_shortest_repr no_StringToNumber))) as Hreach
    by (apply reach_step; exact created_once_Reachable).
  destruct (progress_never_exceeds_90 no_shortest_repr no_StringToNumber _ Hreach)
    as [Hle _].
  exact Hle.
Defined.

Lemma progressTick_advances_display_witness :
  visualProgress (created_once no_shortest_repr no_StringToNumber) < 90
  /\ (let w' :=
        Stmt.run (progressTick no_shortest_repr)
          (created_once no_shortest_repr no_StringToNumber) in
      visualProgress w' = 1
      /\ textContent <$> elem "analysisPercentLabel" w' = Some "1%").
Proof.
  assert (visualProgress (created_once no_shortest_repr no_StringToNumber) < 90) as Hlt
    by (vm_compute; lia).
  pose proof (progressTick_advances_display no_shortest_repr _ Hlt) as Hthm.
  cbv zeta in Hthm. destruct Hthm as (Hv & _ & Hlabel & _).
  split; [exact Hlt|]. cbv zeta. split.
  - etransitivity; [exact Hv|]. vm_compute. reflexivity.
  - etransitivity; [exact Hlabel|]. vm_compute. reflexivity.
Defined.

Lemma create_shows_progress_at_zero_witness :
  is_Some (elem "brandNameStep2" step2_filled)
  /\ JsString.trim (field "brandNameStep2" step2_filled) <> ""
  /\ (let w' := Stmt.run (createBtn_click no_shortest_repr) step2_filled in
      display <$> elem "analysisStatus" w' = Some "flex"
      /\ textContent <$> elem "analysisPercentLabel" w' = Some "0%").
Proof.
  assert (is_Some (elem "brandNameStep2" step2_filled)) as Hinput
    by (eexists; vm_compute; reflexivity).
  assert (JsString.trim (field "brandNameStep2" step2_filled) <> "") as Hname
    by (vm_compute; discriminate).
  pose proof (create_shows_progress_at_zero no_shortest_repr _ Hinput Hname) as Hthm.
  cbv zeta in Hthm. destruct Hthm as (Hbar & _ & Hlabel & _).
  split; [exact Hinput|]. split; [exact Hname|]. cbv zeta. split.
  - apply (f_equal (fmap fst)) in Hbar. rewrite <- !option_fmap_compose in Hbar.
    etransitivity; [exact Hbar|]. vm_compute. reflexivity.
  - etransitivity; [exact Hlabel|]. vm_compute. reflexivity.
Defined.

Lemma lookup_failure_shows_message_witness :
  lookup_failure (Responded 500 (Some (JObject []))) = Some "Backend error: 500"
  /\ lookup_failure (Responded 200 (Some example_error)) = Some "quota exceeded"
  /\ (fun e => (display e, textContent e))
       <$> elem "brandModalError"
             (Stmt.run
                (goToStep2_resume no_shortest_repr "Acme" ""
                   (Responded 500 (Some (JObject []))))
                step1_filled)
     = Some ("block", "Backend error: 500").
Proof.
  assert (lookup_failure (Responded 500 (Some (JObject []))) = Some "Backend error: 500")
    as Hmsg by reflexivity.
  assert (forall status data,
             Responded 500 (Some (JObject [])) = Responded status (Some data) ->
             optional_string (Js.prop "error" data) = true) as Hopt
    by (intros status data [= <- <-]; reflexivity).
  pose proof (lookup_failure_shows_message no_shortest_repr "Acme" "" _ _ step1_filled
                Hopt Hmsg) as Hthm.
  cbv zeta in Hthm. destruct Hthm as (_ & Hbox & _).
  split; [exact Hmsg|]. split; [reflexivity|].
  etransitivity; [exact Hbox|]. vm_compute. reflexivity.
Defined.

Lemma lookup_success_switches_to_step2_witness :
  lookup_succeeded 200 example_lookup
  /\ (let w' :=
        Stmt.run
          (goToStep2_resume no_shortest_repr "Acme" ""
             (Responded 200 (Some example_lookup)))
          step1_filled in
      El.has_class "is-active" <$> elem "brandStep1" w' = Some false
      /\ El.has_class "is-active" <$> elem "brandStep2" w' = Some true
      /\ textContent <$> elem "brandModalTitle" w' = Some "Configure Brand").
Proof.
  assert (lookup_succeeded 200 example_lookup) as Hsucc by (repeat split; reflexivity).
  pose proof (lookup_success_switches_to_step2 no_shortest_repr "Acme" "" 200
                example_lookup step1_filled Hsucc
                eq_refl eq_refl eq_refl eq_refl eq_refl eq_refl) as Hthm.
  cbv zeta in Hthm. destruct Hthm as (_ & H1 & H2 & Htitle & _).
  split; [exact Hsucc|]. cbv zeta. split; [|split].
  - etransitivity; [exact H1|]. vm_compute. reflexivity.
  - etransitivity; [exact H2|]. vm_compute. reflexivity.
  - etransitivity; [exact Htitle|]. vm_compute. reflexivity.
Defined.

Lemma second_click_on_next_ignored_witness :
  elem "brandStepNext" step1_filled = Some (El.set_textContent "Next" El.blank)
  /\ JsString.trim (field "brandNameStep1" step1_filled) <> ""
  /\ requests
       (step no_shortest_repr no_StringToNumber (Click "brandStepNext")
          (step no_shortest_repr no_StringToNumber (Click "brandStepNext") step1_filled))
     = [LookupRequest "Acme" ""].
Proof.
  assert (elem "brandStepNext" step1_filled = Some (El.set_textContent "Next" El.blank))
    as Hbtn by (vm_compute; reflexivity).
  assert (JsString.trim (field "brandNameStep1" step1_filled) <> "") as Hname
    by (vm_compute; discriminate).
  pose proof (second_click_on_next_ignored no_shortest_repr no_StringToNumber
                step1_filled _ Hbtn eq_refl Hname) as Hthm.
  cbv zeta in Hthm. destruct Hthm as (Hreq & _ & _ & Hsame).
  split; [exact Hbtn|]. split; [exact Hname|].
  rewrite Hsame, Hreq. vm_compute. reflexivity.
Defined.

Lemma parseTopics_join_round_trip_witness :
  Forall is_topic ["pricing"; "support"]
  /\ parseTopics (JString (join CRLF ["pricing"; "support"])) = ["pricing"; "support"]
  /\ parseTopics (JString (join newline ["pricing"; "support"])) = ["pricing"; "support"].
Proof.
  assert (Forall is_topic ["pricing"; "support"]) as Htopics.
  { repeat constructor; try discriminate; intros c [= <-]; reflexivity. }
  split; [exact Htopics|]. split.
  - exact (parseTopics_join_round_trip CRLF _ (or_intror eq_refl) Htopics).
  - exact (parseTopics_join_round_trip newline _ (or_introl eq_refl) Htopics).
Defined.

Lemma buildDatasets_mapping_form_witness :
  NoDup (Js.keys example_mapping)
  /\ dataset_labels (buildDatasetsFromSeries (JObject example_mapping) "B")
     = Value [JString "A"; JString "B"]
  /\ data <$> head (imap (mapping_dataset (JObject example_mapping))
                      (take 10 (focal_first_keys "A" (JObject example_mapping)
                                  (Js.keys example_mapping))))
     = Some (JArray [JNumber (Num.of_Z 1)]).
Proof.
  assert (NoDup (Js.keys example_mapping)) as Hnd
    by (apply (bool_decide_unpack _); vm_compute; exact I).
  pose proof (buildDatasets_mapping_form example_mapping "B" Hnd) as Hthm.
  cbv zeta in Hthm. destruct Hthm as (Hbuilt & _).
  split; [exact Hnd|]. split; [rewrite Hbuilt; reflexivity|reflexivity].
Defined.

Lemma trend_colors_distinct_witness :
  exists ds,
    buildDatasetsFromSeries example_visibility "B" = Value ds
    /\ length ds = 2
    /\ borderColor <$> ds = [JString "#2563eb"; JString "#22c55e"]
    /\ NoDup (borderColor <$> ds).
Proof.
  destruct (buildDatasetsFromSeries example_visibility "B") as [ds|] eqn:Hbuilt;
    [|vm_compute in Hbuilt; discriminate].
  destruct (trend_colors_distinct _ _ _ Hbuilt) as (_ & Hcolors & _ & Hnd).
  assert (length ds = 2) as Hlen by (vm_compute in Hbuilt; injection Hbuilt as <-; reflexivity).
  exists ds. split; [reflexivity|]. split; [exact Hlen|].
  split; [rewrite Hcolors, Hlen; reflexivity|exact Hnd].
Defined.

Lemma buildDatasets_array_total_witness :
  Forall (fun v => Js.nullish v = false)
    [JNumber (Num.of_Z 1); JString "x"; series_object "A" [1]%Z]
  /\ exists ds,
       buildDatasetsFromSeries
         (JArray [JNumber (Num.of_Z 1); JString "x"; series_object "A" [1]%Z]) "A"
       = Value ds
       /\ length ds <= 10
       /\ Forall (fun d => Js.isArray (data d) = true) ds.
Proof.
  assert (Forall (fun v => Js.nullish v = false)
            [JNumber (Num.of_Z 1); JString "x"; series_object "A" [1]%Z]) as Helems
    by (repeat constructor).
  split; [exact Helems|].
  exact (buildDatasets_array_total _ "A" Helems).
Defined.

Lemma malformed_series_stops_rendering_witness :
  updateChartsFromAnalysis example_malformed "A" "" example_world
  = Threw (W.set_trendState (W.set_labels (JArray [JString "Mon"])) example_world)
  /\ buildDatasetsFromSeries (JArray [JNull; series_object "A" [1]%Z]) "A" = TypeError.
Proof.
  pose proof (malformed_series_stops_rendering example_malformed "A" "" JNull
                [series_object "A" [1]%Z] example_world eq_refl eq_refl) as Hthm.
  cbv zeta in Hthm. destruct Hthm as (Hthrow & Hrun & _).
  split; [exact Hrun|exact Hthrow].
Defined.

Lemma donut_chart_segments_witness :
  Forall (fun d => Js.nullish d = false) example_donut
  /\ can_draw "mentionsDonutChart" example_world = true
  /\ createOrUpdateDonutChart (JArray example_donut) example_world
     = Completed tt
         (W.set_mentionsDonutChart
            (Some {| donut_labels := [JString "Acme"; JString "Other"];
                     donut_values := [JNumber (Num.of_Z 3); JNumber (Num.of_Z 5)];
                     donut_colors := [JString "#2563eb"; JString "#22c55e"] |})
            example_world).
Proof.
  assert (Forall (fun d => Js.nullish d = false) example_donut) as Hseg
    by (repeat constructor).
  assert (can_draw "mentionsDonutChart" example_world = true) as Hdraw
    by (vm_compute; reflexivity).
  destruct (donut_chart_segments (JArray example_donut) example_donut example_world
              eq_refl Hseg) as (Hrun & _).
  split; [exact Hseg|]. split; [exact Hdraw|].
  rewrite Hrun, Hdraw. reflexivity.
Defined.

Lemma trend_tab_switch_witness :
  can_draw "visibilityTrendChart" example_world = true
  /\ (let w' := createOrUpdateTrendChart "rank" example_world in
      currentMetric (trendState w') = "rank"
      /\ yTitle <$> visibilityTrendChart w' = Some "Average Rank"
      /\ El.has_class "active" <$> elem "trendTabRank" w' = Some true
      /\ El.has_class "active" <$> elem "trendTabVisibility" w' = Some false).
Proof.
  assert (can_draw "visibilityTrendChart" example_world = true) as Hdraw
    by (vm_compute; reflexivity).
  pose proof (trend_tab_switch "rank" example_world (or_intror eq_refl)) as Hthm.
  cbv zeta in Hthm. destruct Hthm as (_ & Hdrawn & _).
  destruct (Hdrawn Hdraw) as (Hchart & Hmetric & Htabs).
  destruct Htabs as [Hv Hr]; [eexists; vm_compute; reflexivity..|].
  split; [exact Hdraw|]. cbv zeta.
  split; [exact Hmetric|]. split; [rewrite Hchart; reflexivity|].
  split; [exact Hr|exact Hv].
Defined.

Lemma charts_emptied_without_metrics_witness :
  Js.truthy (Js.get_opt "metrics" example_error) = false
  /\ exists w',
       updateChartsFromAnalysis example_error "Acme" "pricing" example_world
       = Completed tt w'
       /\ datasets w' = ([], [])
       /\ options <$> elem "trendTopicSelect" w'
          = Some [("", "All Topics"); ("pricing", "pricing")].
Proof.
  split; [reflexivity|].
  destruct (charts_emptied_without_metrics example_error "Acme" "pricing" example_world
              eq_refl) as (w' & Hrun & _ & Hdatasets & _ & _ & Hselect).
  exists w'. split; [exact Hrun|]. split; [exact Hdatasets|].
  rewrite Hselect. vm_compute. reflexivity.
Defined.

Lemma scorecards_show_brand_and_numbers_witness :
  optional_string (Js.get_opt "name" (Js.get_opt "brand" example_scores)) = true
  /\ exists w',
       updateMetricCardsFromAnalysis no_shortest_repr no_StringToNumber
         example_scores "Acme" example_world
       = Completed tt w'
       /\ textContent <$> elem "cardBrandMentionsLabel" w' = Some "B"
       /\ textContent <$> elem "cardBrandCitationsSubtitle" w' = Some "B"
       /\ textContent <$> elem "cardMentionsValue" w' = Some "42.5"
       /\ textContent <$> elem "cardAvgRankValue" w' = Some "0.0"
       /\ textContent <$> elem "cardCitationsValue" w' = Some "7".
Proof.
  split; [reflexivity|].
  destruct (scorecards_show_brand_and_numbers no_shortest_repr no_StringToNumber
              example_scores "Acme" example_world eq_refl eq_refl eq_refl eq_refl)
    as (w' & share & rank & cites & Hrun & Hlabels & Hsubtitles
        & Hshare & Hrank & Hcites & _ & _ & _ & Hm & Ha & Hc).
  injection Hshare as <-. injection Hrank as <-. injection Hcites as <-.
  exists w'. split; [exact Hrun|]. split.
  { rewrite (Hlabels "cardBrandMentionsLabel") by (left). vm_compute. reflexivity. }
  split.
  { rewrite (Hsubtitles "cardBrandCitationsSubtitle") by (right; right; left).
    vm_compute. reflexivity. }
  split; [rewrite Hm; vm_compute; reflexivity|].
  split; [rewrite Ha; vm_compute; reflexivity|].
  rewrite Hc. vm_compute. reflexivity.
Defined.

Lemma blank_names_send_nothing_witness :
  is_Some (elem "brandStepNext" step2_blank)
  /\ is_Some (elem "brandNameStep2" step2_blank)
  /\ all_space (field "brandNameStep2" step2_blank) = true
  /\ requests (Stmt.run (goToStep2 no_shortest_repr true) step2_blank) = []
  /\ requests (Stmt.run (createBtn_click no_shortest_repr) step2_blank) = [].
Proof.
  assert (is_Some (elem "brandStepNext" step2_blank)) as Hbtn
    by (eexists; vm_compute; reflexivity).
  assert (is_Some (elem "brandNameStep2" step2_blank)) as Hinput
    by (eexists; vm_compute; reflexivity).
  pose proof (blank_names_send_nothing no_shortest_repr true step2_blank Hbtn Hinput)
    as Hthm.
  cbv zeta in Hthm. destruct Hthm as (Hlookup & Hcreate & _).
  split; [exact Hbtn|]. split; [exact Hinput|]. split; [reflexivity|].
  split.
  - rewrite (proj2 Hlookup eq_refl). reflexivity.
  - rewrite (proj2 Hcreate eq_refl). reflexivity.
Defined.
